(** * The etcd configuration driver of the profile service

    A shallow embedding of [src/profile-service/src/drivers/etcd.driver.ts]
    (class [EtcdDriver]) and the properties of its parameter resolver, key
    derivation, scope guard and watch handlers.

    JavaScript values that flow through the driver are [undefined], [null]
    and strings; objects used as dictionaries ([process.env], [envParams],
    the etcd key space) are finite maps; the manifest, whose key order
    drives the resolution loop, is an association list. [process.env] is
    the environment of the process: it keeps a value up to its first NUL
    character and drops an assignment to an empty name or to a name with
    ['=']; names are looked up as written. A watch is cancelled in two
    steps: the delete listener requests it, the coordination service
    acknowledges it. *)

From Stdlib Require Import Ascii String.
From stdpp Require Import base gmap strings list.

Open Scope string_scope.

(** ** JavaScript values *)

Module JS.

Inductive value : Type :=
| VUndefined
| VNull
| VString (s : string).

#[global] Instance value_eq_dec : EqDecision value.
Proof. solve_decision. Defined.

(** Truthiness as tested by [!x], [x || y] and [if (x)]: [undefined],
    [null] and the empty string are falsy. *)
Definition truthy (v : value) : bool :=
  match v with
  | VString s => negb (String.eqb s "")
  | _ => false
  end.

(** [a || b] *)
Definition or (a b : value) : value := if truthy a then a else b.

(** [String(v)], the conversion [process.env] applies to whatever is
    assigned to one of its properties, and template literals to their
    holes. *)
Definition to_String (v : value) : string :=
  match v with
  | VUndefined => "undefined"
  | VNull => "null"
  | VString s => s
  end.

(** A property read on a string dictionary: the string or [undefined]. *)
Definition of_option (o : option string) : value :=
  match o with
  | Some s => VString s
  | None => VUndefined
  end.

(** [s.split(sep)] for a one-character separator: always at least one
    segment, the empty string gives [[""]]. *)
Fixpoint split (sep : ascii) (s : string) : list string :=
  match s with
  | EmptyString => [EmptyString]
  | String c rest =>
      if Ascii.eqb c sep then EmptyString :: split sep rest
      else match split sep rest with
           | [] => [String c EmptyString]
           | seg :: segs => String c seg :: segs
           end
  end.

End JS.

Infix "||'" := JS.or (at level 50, left associativity).

(** ** Scope guard *)

(** [isInScope(keyName)], lines 201-215. *)
Definition isInScope (keyName : string) : bool :=
  let splittedKey := JS.split "/"%char keyName in
  if (3 <=? length splittedKey)%nat then
    if (length splittedKey =? 3)%nat
       && negb (String.eqb (List.last splittedKey "") "")
    then true
    else (3 <? length splittedKey)%nat
  else false.

(** ** Configuration objects (interfaces at the end of the source file) *)

Module Conf.

(** [IETCDPropertyDefenition]; a property left out of the object literal
    or set to [undefined] is [None]. *)
Record IETCDPropertyDefenition : Type := {
  etcdPath : option string;
  defaultValue : option string
}.

(** A manifest value: [IETCDPropertyDefenition | string]. *)
Inductive ManifestValue : Type :=
| Literal (s : string)
| Definition_ (d : IETCDPropertyDefenition).

(** [IETCDDriverConfigs]. [dirname] is [None] when the object has no such
    property and [Some v] when it has one, whatever it holds ([undefined]
    included): the object spread of [overrideDefaultConfigs] copies own
    properties, not values. An optional boolean that is absent reads as
    [undefined], which every test in the driver treats as [false]. *)
Record IETCDDriverConfigs : Type := {
  dirname : option JS.value;
  genKeys : bool;
  overrideSysObj : bool;
  watchKeys : bool;
  overrideNotInScope : bool;
  genEnvDirectories : bool
}.

(** [IETCDConfigurations]. [envParams] lists the own properties of the
    manifest object in [Object.keys] order; a missing manifest behaves as
    the empty one (both fail the same test of [initialize]). *)
Record IETCDConfigurations : Type := {
  envParams : list (string * ManifestValue);
  driverConfigs : option IETCDDriverConfigs
}.

(** [manifest[propertyName]] *)
Fixpoint lookup (propertyName : string) (manifest : list (string * ManifestValue))
  : option ManifestValue :=
  match manifest with
  | [] => None
  | (k, v) :: rest => if String.eqb k propertyName then Some v else lookup propertyName rest
  end.

(** [Object.keys(manifest)] *)
Definition keys (manifest : list (string * ManifestValue)) : list string :=
  map fst manifest.

(** [driverConfigs?.flag] *)
Definition flag (f : IETCDDriverConfigs -> bool) (c : IETCDConfigurations) : bool :=
  match driverConfigs c with
  | Some d => f d
  | None => false
  end.

(** [driverConfigs?.dirname] *)
Definition dir (c : IETCDConfigurations) : JS.value :=
  match driverConfigs c with
  | Some d => default JS.VUndefined (dirname d)
  | None => JS.VUndefined
  end.

End Conf.

(** ** The driver, its environment and what it is observed to do *)

(** What a [throw] or a rejected promise carries. *)
Inductive Exn : Type :=
| ThrownString (msg : string)      (* [throw '...'] in the driver *)
| TypeError (msg : string)         (* raised by the runtime *)
| RemoteUnavailable (key : string) (* a request the etcd client rejects *).

Inductive LogLine : Type :=
| ConsoleLog (args : list JS.value)
| ConsoleError (label : string) (ex : Exn).

(** One subscription created by [watchForChanges]: the watched key, the
    parameter it feeds, whether the coordination service still delivers
    its events to the two listeners, and whether [watcher.cancel()] has
    been called and not yet acknowledged. *)
Record Watcher : Type := {
  wkey : string;
  wprop : string;
  wactive : bool;
  wcancelling : bool
}.

Definition IETCDOptions : Type := string.

Record State : Type := {
  (* fields of the [EtcdDriver] instance *)
  client : option IETCDOptions;
  proccesedConfigurations : Conf.IETCDConfigurations;
  _etcdWatcher : bool;
  envParams : option (gmap string JS.value);
  defaultDirname : option string; (* [process.env.ETCD_SERVICE_NAME] when the instance was built *)
  (* the process and the coordination service *)
  process_env : gmap string string;
  etcd : gmap string string;
  unavailable : gset string;      (* keys whose requests are rejected *)
  watchers : list Watcher;
  (* observations, most recent first *)
  puts : list (string * JS.value);
  console : list LogLine
}.

Definition set_client (c : option IETCDOptions) (s : State) : State :=
  {| client := c; proccesedConfigurations := proccesedConfigurations s;
     _etcdWatcher := _etcdWatcher s; envParams := envParams s;
     defaultDirname := defaultDirname s; process_env := process_env s;
     etcd := etcd s; unavailable := unavailable s; watchers := watchers s;
     puts := puts s; console := console s |}.

Definition set_proccesedConfigurations (c : Conf.IETCDConfigurations) (s : State) : State :=
  {| client := client s; proccesedConfigurations := c;
     _etcdWatcher := _etcdWatcher s; envParams := envParams s;
     defaultDirname := defaultDirname s; process_env := process_env s;
     etcd := etcd s; unavailable := unavailable s; watchers := watchers s;
     puts := puts s; console := console s |}.

Definition set_etcdWatcher (w : bool) (s : State) : State :=
  {| client := client s; proccesedConfigurations := proccesedConfigurations s;
     _etcdWatcher := w; envParams := envParams s;
     defaultDirname := defaultDirname s; process_env := process_env s;
     etcd := etcd s; unavailable := unavailable s; watchers := watchers s;
     puts := puts s; console := console s |}.

Definition set_envParams (m : option (gmap string JS.value)) (s : State) : State :=
  {| client := client s; proccesedConfigurations := proccesedConfigurations s;
     _etcdWatcher := _etcdWatcher s; envParams := m;
     defaultDirname := defaultDirname s; process_env := process_env s;
     etcd := etcd s; unavailable := unavailable s; watchers := watchers s;
     puts := puts s; console := console s |}.

Definition set_process_env (e : gmap string string) (s : State) : State :=
  {| client := client s; proccesedConfigurations := proccesedConfigurations s;
     _etcdWatcher := _etcdWatcher s; envParams := envParams s;
     defaultDirname := defaultDirname s; process_env := e;
     etcd := etcd s; unavailable := unavailable s; watchers := watchers s;
     puts := puts s; console := console s |}.

Definition set_etcd (e : gmap string string) (s : State) : State :=
  {| client := client s; proccesedConfigurations := proccesedConfigurations s;
     _etcdWatcher := _etcdWatcher s; envParams := envParams s;
     defaultDirname := defaultDirname s; process_env := process_env s;
     etcd := e; unavailable := unavailable s; watchers := watchers s;
     puts := puts s; console := console s |}.

Definition set_watchers (w : list Watcher) (s : State) : State :=
  {| client := client s; proccesedConfigurations := proccesedConfigurations s;
     _etcdWatcher := _etcdWatcher s; envParams := envParams s;
     defaultDirname := defaultDirname s; process_env := process_env s;
     etcd := etcd s; unavailable := unavailable s; watchers := w;
     puts := puts s; console := console s |}.

Definition set_unavailable (u : gset string) (s : State) : State :=
  {| client := client s; proccesedConfigurations := proccesedConfigurations s;
     _etcdWatcher := _etcdWatcher s; envParams := envParams s;
     defaultDirname := defaultDirname s; process_env := process_env s;
     etcd := etcd s; unavailable := u; watchers := watchers s;
     puts := puts s; console := console s |}.

Definition set_puts (p : list (string * JS.value)) (s : State) : State :=
  {| client := client s; proccesedConfigurations := proccesedConfigurations s;
     _etcdWatcher := _etcdWatcher s; envParams := envParams s;
     defaultDirname := defaultDirname s; process_env := process_env s;
     etcd := etcd s; unavailable := unavailable s; watchers := watchers s;
     puts := p; console := console s |}.

Definition set_console (c : list LogLine) (s : State) : State :=
  {| client := client s; proccesedConfigurations := proccesedConfigurations s;
     _etcdWatcher := _etcdWatcher s; envParams := envParams s;
     defaultDirname := defaultDirname s; process_env := process_env s;
     etcd := etcd s; unavailable := unavailable s; watchers := watchers s;
     puts := puts s; console := c |}.

(** ** Control flow: mutable state and exceptions

    A computation runs on the state and either completes or throws; what it
    changed before throwing stays changed, as in JavaScript. *)

Inductive Completion (A : Type) : Type :=
| Normal (a : A)
| Throw (e : Exn).
Arguments Normal {A} a.
Arguments Throw {A} e.

Definition M (A : Type) : Type := State -> Completion A * State.

Definition ret {A} (a : A) : M A := fun s => (Normal a, s).

Definition bind {A B} (c : M A) (k : A -> M B) : M B :=
  fun s =>
    match c s with
    | (Normal a, s') => k a s'
    | (Throw e, s') => (Throw e, s')
    end.

Definition throw {A} (e : Exn) : M A := fun s => (Throw e, s).

(** [try { body } catch (ex) { handler(ex) }] *)
Definition try_catch (body : M unit) (handler : Exn -> M unit) : M unit :=
  fun s =>
    match body s with
    | (Normal a, s') => (Normal a, s')
    | (Throw e, s') => handler e s'
    end.

Definition gets {A} (f : State -> A) : M A := fun s => (Normal (f s), s).

Definition modify (f : State -> State) : M unit := fun s => (Normal tt, f s).

(** A call to an [async] function whose promise is neither awaited nor
    given a rejection handler: its effects happen, its failure never
    reaches the caller. *)
Definition not_awaited (c : M unit) : M unit := fun s => (Normal tt, snd (c s)).

Definition when (b : bool) (c : M unit) : M unit := if b then c else ret tt.

Notation "x <- c1 ;; c2" := (bind c1 (fun x => c2))
  (at level 100, c1 at next level, right associativity).
Notation "c1 ;; c2" := (bind c1 (fun _ => c2))
  (at level 100, right associativity).

(** [for (const x of xs) { body(x) }] *)
Fixpoint for_of {A} (xs : list A) (body : A -> M unit) : M unit :=
  match xs with
  | [] => ret tt
  | x :: rest => body x ;; for_of rest body
  end.

(** ** Collaborators: console, [process.env], the etcd client *)

Definition console_log (args : list JS.value) : M unit :=
  modify (fun s => set_console (ConsoleLog args :: console s) s).

Definition console_error (label : string) (ex : Exn) : M unit :=
  modify (fun s => set_console (ConsoleError label ex :: console s) s).

(** [process.env[name]] *)
Definition env_get (s : State) (name : string) : JS.value :=
  JS.of_option (process_env s !! name).

(** What the environment of the process keeps of a string handed to it:
    the characters before the first NUL. *)
Fixpoint cstring (s : string) : string :=
  match s with
  | EmptyString => EmptyString
  | String c rest => if Ascii.eqb c Ascii.zero then EmptyString else String c (cstring rest)
  end.

(** Whether a string contains a character. *)
Fixpoint mentions (c : ascii) (s : string) : bool :=
  match s with
  | EmptyString => false
  | String c' rest => Ascii.eqb c' c || mentions c rest
  end.

(** The names the environment of the process accepts: not empty, without
    ['=']. *)
Definition env_settable (name : string) : bool :=
  negb (String.eqb name "") && negb (mentions "="%char name).

(** [process.env[name] = val]: Node converts the value with [String(val)]
    and hands name and value to the environment of the process, which
    keeps the value up to its first NUL character and refuses a name that
    is empty or contains ['=']; a refused assignment is dropped
    silently. *)
Definition env_set (name : string) (val : JS.value) : M unit :=
  modify (fun s =>
    if env_settable name
    then set_process_env (<[name := cstring (JS.to_String val)]> (process_env s)) s
    else s).

(** [delete process.env[name]] *)
Definition env_delete (name : string) : M unit :=
  modify (fun s => set_process_env (delete name (process_env s)) s).

(** [await client.get(key).string()]: the stored string, [null] when the
    key does not exist; a rejected request throws at the [await]. *)
Definition remoteValue (s : State) (key : string) : JS.value :=
  match etcd s !! key with
  | Some v => JS.VString v
  | None => JS.VNull
  end.

Definition client_get (key : string) : M JS.value :=
  fun s =>
    if decide (key ∈ unavailable s) then (Throw (RemoteUnavailable key), s)
    else (Normal (remoteValue s key), s).

(** [await client.put(key).value(val)]. The call is recorded whatever
    comes of it. The etcd3 builder turns the value into a buffer, which
    fails for anything but a string; a rejected request throws. *)
Definition client_put (key : string) (val : JS.value) : M unit :=
  modify (fun s => set_puts ((key, val) :: puts s) s) ;;
  match val with
  | JS.VString v =>
      fun s =>
        if decide (key ∈ unavailable s) then (Throw (RemoteUnavailable key), s)
        else (Normal tt, set_etcd (<[key := v]> (etcd s)) s)
  | _ => throw (TypeError "The first argument must be of type string")
  end.

(** ** Methods of [EtcdDriver] *)

(** [createClient], lines 52-57: a client is built once. *)
Definition createClient (connectionOptions : IETCDOptions) : M unit :=
  c <- gets client ;;
  match c with
  | None =>
      modify (set_client (Some connectionOptions)) ;;
      console_log [JS.VString "ETCD client has been created"]
  | Some _ => ret tt
  end.

(** [overrideDefaultConfigs], lines 60-65. [defaultConfigs] holds an empty
    manifest and a [driverConfigs] whose only property, [dirname], is what
    the environment gave for [ETCD_SERVICE_NAME]; the object spreads let
    every own property of the caller's objects win, also one that holds
    [undefined]. The merged [driverConfigs] always has a [dirname]
    property. *)
Definition overrideDefaultConfigs (s : State) (customConfigs : Conf.IETCDConfigurations)
  : Conf.IETCDConfigurations :=
  let merged :=
    match Conf.driverConfigs customConfigs with
    | Some c =>
        {| Conf.dirname := Some (match Conf.dirname c with
                                 | Some v => v
                                 | None => JS.of_option (defaultDirname s)
                                 end);
           Conf.genKeys := Conf.genKeys c;
           Conf.overrideSysObj := Conf.overrideSysObj c;
           Conf.watchKeys := Conf.watchKeys c;
           Conf.overrideNotInScope := Conf.overrideNotInScope c;
           Conf.genEnvDirectories := Conf.genEnvDirectories c |}
    | None =>
        {| Conf.dirname := Some (JS.of_option (defaultDirname s));
           Conf.genKeys := false;
           Conf.overrideSysObj := false;
           Conf.watchKeys := false;
           Conf.overrideNotInScope := false;
           Conf.genEnvDirectories := false |}
    end in
  {| Conf.envParams := Conf.envParams customConfigs;
     Conf.driverConfigs := Some merged |}.

(** [getPropertySetting], lines 96-101: the manifest value when it is an
    object, [undefined] otherwise. *)
Definition getPropertySetting (s : State) (propertyName : string)
  : option Conf.IETCDPropertyDefenition :=
  match Conf.lookup propertyName (Conf.envParams (proccesedConfigurations s)) with
  | Some (Conf.Definition_ d) => Some d
  | _ => None
  end.

(** [updateEnv], lines 110-118. *)
Definition updateEnv (propertyName : string) (val : JS.value) : M unit :=
  cfg <- gets proccesedConfigurations ;;
  match Conf.driverConfigs cfg with
  | None => throw (TypeError "Cannot read properties of undefined")
  | Some d =>
      when (Conf.overrideSysObj d)
        (console_log [JS.VString "Update new key in process.env"] ;;
         env_set propertyName val) ;;
      params <- gets envParams ;;
      match params with
      | Some m => modify (set_envParams (Some (<[propertyName := val]> m)))
      | None => throw (TypeError "Cannot set properties of null")
      end
  end.

(** [watchForChanges], lines 126-148: the subscription part. The two
    listeners are [on_put] and [on_delete] below. *)
Definition watchForChanges (key propertyName : string) : M unit :=
  w <- gets _etcdWatcher ;;
  if negb w then throw (ThrownString "There is no ETCD client, initialization is required")
  else modify (fun s =>
         set_watchers
           (watchers s
              ++ [{| wkey := key; wprop := propertyName;
                     wactive := true; wcancelling := false |}]) s).

(** [getEnvironemntDir], lines 153-157. *)
Definition getEnvironemntDir (s : State) : string :=
  if Conf.flag Conf.genEnvDirectories (proccesedConfigurations s)
     && JS.truthy (env_get s "NODE_ENV")
  then JS.to_String (env_get s "NODE_ENV") ++ "/"
  else "".

(** Line 167: the derived key path. *)
Definition generatedEtcdPath (s : State) (propertyName : string) : string :=
  "/" ++ JS.to_String (Conf.dir (proccesedConfigurations s)) ++ "/"
      ++ getEnvironemntDir s ++ propertyName.

(** Line 168: [propertySetting?.etcdPath || generatedEtcdPath]. *)
Definition etcdEntryName (s : State) (propertyName : string) : string :=
  let explicit :=
    match getPropertySetting s propertyName with
    | Some d => JS.of_option (Conf.etcdPath d)
    | None => JS.VUndefined
    end in
  JS.to_String (explicit ||' JS.VString (generatedEtcdPath s propertyName)).

(** Lines 172-173: the manifest value as a default. The comparison is
    made on the value itself, so only a bare string can equal
    ['[object Object]']; an object passes the test and is converted by
    [Object.prototype.toString]. *)
Definition strDefaultVal (s : State) (propertyName : string) : JS.value :=
  match Conf.lookup propertyName (Conf.envParams (proccesedConfigurations s)) with
  | Some (Conf.Literal lit) =>
      if String.eqb lit "[object Object]" then JS.VUndefined else JS.VString lit
  | Some (Conf.Definition_ _) => JS.VString "[object Object]"
  | None => JS.VUndefined
  end.

(** [propertySetting?.defaultValue] *)
Definition settingDefault (s : State) (propertyName : string) : JS.value :=
  match getPropertySetting s propertyName with
  | Some d => JS.of_option (Conf.defaultValue d)
  | None => JS.VUndefined
  end.

(** Lines 176 and 181: the right-hand side of both assignments, read
    against the environment of the moment. *)
Definition fallback (etcdVal : JS.value) (s : State) (propertyName : string) : JS.value :=
  etcdVal ||' env_get s propertyName ||' settingDefault s propertyName
          ||' strDefaultVal s propertyName.

(** One turn of the loop of [initializeProcess], lines 165-194. *)
Definition initializeProperty (propertyName : string) : M unit :=
  cfg <- gets proccesedConfigurations ;;
  etcdEntry <- gets (fun s => etcdEntryName s propertyName) ;;
  etcdVal <- client_get etcdEntry ;;
  when (Conf.flag Conf.overrideSysObj cfg)
    (effective <- gets (fun s => fallback etcdVal s propertyName) ;;
     env_set propertyName effective ;;
     shown <- gets (fun s => env_get s propertyName) ;;
     console_log [JS.VString ("process.env[" ++ propertyName ++ "]:"); shown]) ;;
  params <- gets envParams ;;
  when (bool_decide (params = None)) (modify (set_envParams (Some ∅))) ;;
  effective <- gets (fun s => fallback etcdVal s propertyName) ;;
  modify (fun s =>
    set_envParams (Some (<[propertyName := effective]> (default ∅ (envParams s)))) s) ;;
  when (Conf.flag Conf.watchKeys cfg)
    (not_awaited (watchForChanges etcdEntry propertyName)) ;;
  when (negb (JS.truthy etcdVal) && Conf.flag Conf.genKeys cfg)
    (if Conf.flag Conf.overrideNotInScope cfg || isInScope etcdEntry
     then pushed <- gets (fun s => env_get s propertyName) ;;
          client_put etcdEntry pushed
     else console_log
            [JS.VString "Can not change/push out of scope variables, Property can be changed in driverConfigs"]).

(** [initializeProcess], lines 163-196. *)
Definition initializeProcess : M unit :=
  cfg <- gets proccesedConfigurations ;;
  for_of (Conf.keys (Conf.envParams cfg)) initializeProperty.

(** [initialize], lines 73-88. *)
Definition initialize (connectionOptions : IETCDOptions)
    (userDefinedConfigs : Conf.IETCDConfigurations) : M unit :=
  try_catch
    (modify (fun s =>
       set_proccesedConfigurations (overrideDefaultConfigs s userDefinedConfigs) s) ;;
     createClient connectionOptions ;;
     modify (set_etcdWatcher true) ;;
     cfg <- gets proccesedConfigurations ;;
     when (negb (JS.truthy (Conf.dir cfg)))
       (throw (ThrownString "ETCD_SERVICE_NAME not found in environment variables")) ;;
     when (bool_decide (Conf.keys (Conf.envParams cfg) = []))
       (throw (ThrownString "Configs arg does not contains any properties")) ;;
     initializeProcess)
    (fun ex => console_error "initialize() ex:" ex).

(** ** Watch notifications *)

Inductive WatchEvent : Type :=
| EvPut (val : string)
| EvDelete.

(** The ["put"] listener, lines 131-134. *)
Definition on_put (w : Watcher) (val : string) : M unit :=
  console_log [JS.VString ("Updating the " ++ wkey w ++ " to:"); JS.VString val] ;;
  updateEnv (wprop w) (JS.VString val).

(** [watcher.cancel()] for the subscription at index [i]: the request to
    cancel goes out to the coordination service. The promise the listener
    awaits settles when the service acknowledges it ([acknowledge] below);
    until then the subscription and its listeners stay as they are. *)
Definition cancel (i : nat) : M unit :=
  modify (fun s =>
    set_watchers
      (alter (fun w => {| wkey := wkey w; wprop := wprop w;
                          wactive := wactive w; wcancelling := true |}) i (watchers s))
      s).

(** The ["delete"] listener, lines 136-146. *)
Definition on_delete (i : nat) (w : Watcher) : M unit :=
  console_log [JS.VString ("Deleting param: " ++ wprop w ++ " from envs")] ;;
  params <- gets envParams ;;
  match params with
  | Some m => modify (set_envParams (Some (delete (wprop w) m)))
  | None => ret tt
  end ;;
  cfg <- gets proccesedConfigurations ;;
  when (Conf.flag Conf.overrideSysObj cfg) (env_delete (wprop w)) ;;
  cancel i.

(** The coordination service acknowledges the cancellation of
    subscription [i], if one was requested: from then on it delivers
    nothing to it. *)
Definition acknowledge (i : nat) : M unit :=
  modify (fun s =>
    set_watchers
      (alter (fun w => if wcancelling w
                       then {| wkey := wkey w; wprop := wprop w;
                               wactive := false; wcancelling := false |}
                       else w) i (watchers s))
      s).

(** The coordination service notifies subscription [i]: the listener of
    the event runs, also while a cancellation is on its way. A
    subscription whose cancellation was acknowledged, or that was never
    created, receives nothing. *)
Definition notify (i : nat) (ev : WatchEvent) : M unit :=
  ws <- gets watchers ;;
  match ws !! i with
  | Some w =>
      if wactive w then
        match ev with
        | EvPut val => on_put w val
        | EvDelete => on_delete i w
        end
      else ret tt
  | None => ret tt
  end.

(** [this.envParams[name]] as a caller reads it. *)
Definition readParam (s : State) (name : string) : JS.value :=
  match envParams s with
  | Some m => default JS.VUndefined (m !! name)
  | None => JS.VUndefined
  end.

(** The state after running a computation. *)
Definition exec {A} (c : M A) (s : State) : State := snd (c s).

(** A freshly constructed driver in a process with the given environment,
    facing the given key space. *)
Definition fresh (env kv : gmap string string) : State :=
  {| client := None;
     proccesedConfigurations := {| Conf.envParams := []; Conf.driverConfigs := None |};
     _etcdWatcher := false;
     envParams := None;
     defaultDirname := env !! "ETCD_SERVICE_NAME";
     process_env := env;
     etcd := kv;
     unavailable := ∅;
     watchers := [];
     puts := [];
     console := [] |}.

(** ** Auxiliary definitions for the statements *)

(** *** The state between the statements of [initialize] and of one loop turn *)

(** The state in which [initialize] checks its preconditions: options
    merged, client created if there was none, watch builder obtained. *)
Definition prepared (connectionOptions : IETCDOptions)
    (userDefinedConfigs : Conf.IETCDConfigurations) (s : State) : State :=
  set_etcdWatcher true
    (exec (createClient connectionOptions)
       (set_proccesedConfigurations (overrideDefaultConfigs s userDefinedConfigs) s)).

(** What the [catch] of [initialize] does with an error. *)
Definition caught (ex : Exn) (s : State) : State :=
  set_console (ConsoleError "initialize() ex:" ex :: console s) s.

(** After lines 175-178, given what the coordination service answered. *)
Definition mirrored (etcdVal : JS.value) (propertyName : string) (s : State) : State :=
  if Conf.flag Conf.overrideSysObj (proccesedConfigurations s) then
    let s1 := exec (env_set propertyName (fallback etcdVal s propertyName)) s in
    set_console
      (ConsoleLog [JS.VString ("process.env[" ++ propertyName ++ "]:"); env_get s1 propertyName]
         :: console s1) s1
  else s.

(** After lines 180-181. *)
Definition resolved (etcdVal : JS.value) (propertyName : string) (s : State) : State :=
  let s1 := mirrored etcdVal propertyName s in
  set_envParams
    (Some (<[propertyName := fallback etcdVal s1 propertyName]> (default ∅ (envParams s1)))) s1.

(** After lines 183-185. *)
Definition watched (key propertyName : string) (s : State) : State :=
  if Conf.flag Conf.watchKeys (proccesedConfigurations s) && _etcdWatcher s then
    set_watchers
      (watchers s
         ++ [{| wkey := key; wprop := propertyName; wactive := true; wcancelling := false |}]) s
  else s.

(** Lines 187-194, the generation of a missing key. *)
Definition generateMissing (etcdVal : JS.value) (key propertyName : string) : M unit :=
  fun s =>
    if negb (JS.truthy etcdVal) && Conf.flag Conf.genKeys (proccesedConfigurations s) then
      if Conf.flag Conf.overrideNotInScope (proccesedConfigurations s) || isInScope key
      then client_put key (env_get s propertyName) s
      else console_log
             [JS.VString "Can not change/push out of scope variables, Property can be changed in driverConfigs"] s
    else (Normal tt, s).

(** The value a loop turn stores in [envParams] for the parameter. *)
Definition effectiveValue (s : State) (propertyName : string) : JS.value :=
  let etcdVal := remoteValue s (etcdEntryName s propertyName) in
  fallback etcdVal (mirrored etcdVal propertyName s) propertyName.

(** The chain when the coordination service has nothing to offer: ambient
    environment value, then the defaults of the manifest. *)
Definition localValue (s : State) (propertyName : string) : JS.value :=
  env_get s propertyName ||' settingDefault s propertyName ||' strDefaultVal s propertyName.

(** A loop turn is about to write the key: nothing usable came back, keys
    are generated, and the write is allowed. *)
Definition pushing (s : State) (propertyName : string) : bool :=
  negb (JS.truthy (remoteValue s (etcdEntryName s propertyName)))
  && Conf.flag Conf.genKeys (proccesedConfigurations s)
  && (Conf.flag Conf.overrideNotInScope (proccesedConfigurations s)
      || isInScope (etcdEntryName s propertyName)).

(** What [process.env] holds for the parameter when line 190 reads it. *)
Definition pushedValue (s : State) (propertyName : string) : JS.value :=
  env_get (mirrored (remoteValue s (etcdEntryName s propertyName)) propertyName s) propertyName.

(** *** The fallback chain and the key paths as the specification words them *)

(** A candidate counts when it is a non-empty string. *)
Definition nonEmpty (candidate : JS.value) : option string :=
  match candidate with
  | JS.VString v => if String.eqb v "" then None else Some v
  | _ => None
  end.

(** "First non-empty wins". *)
Fixpoint firstNonEmpty (candidates : list JS.value) : option string :=
  match candidates with
  | [] => None
  | candidate :: rest =>
      match nonEmpty candidate with
      | Some v => Some v
      | None => firstNonEmpty rest
      end
  end.

(** The manifest literal default of the specification: the bare string of
    a manifest entry; an entry that is a property definition has none. *)
Definition literalDefault (s : State) (propertyName : string) : JS.value :=
  match Conf.lookup propertyName (Conf.envParams (proccesedConfigurations s)) with
  | Some (Conf.Literal lit) => JS.VString lit
  | _ => JS.VUndefined
  end.

(** The candidates of a parameter in the order of the specification:
    remote value, ambient environment value, [defaultValue] of the
    property definition, manifest literal default. *)
Definition candidates (s : State) (propertyName : string) : list JS.value :=
  [ remoteValue s (etcdEntryName s propertyName);
    env_get s propertyName;
    settingDefault s propertyName;
    literalDefault s propertyName ].

(** The manifest gives [propertyName] the default [D]: as the
    [defaultValue] of its property definition, or as its bare string. *)
Definition manifestDefault (s : State) (propertyName D : string) : Prop :=
  match Conf.lookup propertyName (Conf.envParams (proccesedConfigurations s)) with
  | Some (Conf.Definition_ d) => Conf.defaultValue d = Some D
  | Some (Conf.Literal lit) => lit = D
  | None => False
  end.

(** The manifest entry is the bare string ['[object Object]'], the one
    string lines 172-173 do not take as a default. *)
Definition discardedLiteral (s : State) (propertyName : string) : Prop :=
  Conf.lookup propertyName (Conf.envParams (proccesedConfigurations s))
  = Some (Conf.Literal "[object Object]").

(** A string the environment of the process keeps whole. *)
Definition nulFree (v : string) : Prop := cstring v = v.

(** The scope rule as section 4.3 of the specification words it: a key
    path is in scope when it has three or more meaningful (non-empty)
    segments; [/{dir}/{param}] is not. *)
Definition inScopeOfSpecification (keyPath : string) : bool :=
  (3 <=? length (List.filter (fun segment => negb (String.eqb segment ""))
                   (JS.split "/"%char keyPath)))%nat.

(** Number of separators in a string. *)
Fixpoint occurrences (sep : ascii) (s : string) : nat :=
  match s with
  | EmptyString => 0
  | String c rest => (if Ascii.eqb c sep then 1 else 0) + occurrences sep rest
  end.

(** *** Predicates on states *)

(** The entry of [envParams] for a parameter, if any. *)
Definition storedParam (s : State) (name : string) : option JS.value :=
  m ← envParams s; m !! name.

(** The driver went through [initialize] and resolved at least one
    parameter: the processed options exist and [envParams] is an object.
    Watches are only ever created in such a state. *)
Definition initialized (s : State) : Prop :=
  is_Some (Conf.driverConfigs (proccesedConfigurations s)) ∧ is_Some (envParams s).

(** The call violates a precondition of [initialize]: no directory name
    after the merge with the defaults, or no parameter in the manifest. *)
Definition invalidConfiguration (s : State) (userDefinedConfigs : Conf.IETCDConfigurations)
  : Prop :=
  JS.truthy (Conf.dir (overrideDefaultConfigs s userDefinedConfigs)) = false
  ∨ Conf.envParams userDefinedConfigs = [].

(** The coordination service holds the key (with whatever value) and
    answers requests for it. *)
Definition holdsKey (s : State) (key : string) : Prop :=
  (key ∉ unavailable s) ∧ is_Some (etcd s !! key).

(** *** The states a driver can be in *)

(** A driver starts fresh; it is then called through [initialize] and
    notified through its watches, while the rest of the world changes the
    environment, the key space and the availability of keys at will. *)
Inductive reachable : State → Prop :=
| reachable_fresh env kv : reachable (fresh env kv)
| reachable_initialize connectionOptions cfg s :
    reachable s → reachable (exec (initialize connectionOptions cfg) s)
| reachable_notify i ev s :
    reachable s → reachable (exec (notify i ev) s)
| reachable_acknowledge i s :
    reachable s → reachable (exec (acknowledge i) s)
| reachable_world env kv down s :
    reachable s → reachable (set_unavailable down (set_etcd kv (set_process_env env s))).

(** The resolution loop of the call [initialize connectionOptions cfg] on
    [s] reaches the parameter, in state [s1]: the call passes the checks
    of lines 79-82 and the turns of the parameters before it in the
    manifest complete. The keys of an object are distinct, so the
    parameter does not come up again. *)
Definition reaches (connectionOptions : IETCDOptions) (cfg : Conf.IETCDConfigurations)
    (s : State) (propertyName : string) (s1 : State) : Prop :=
  JS.truthy (Conf.dir (overrideDefaultConfigs s cfg)) = true
  ∧ ∃ before after : list string,
      Conf.keys (Conf.envParams cfg) = (before ++ propertyName :: after)%list
      ∧ (propertyName ∉ after)
      ∧ for_of before initializeProperty (prepared connectionOptions cfg s) = (Normal tt, s1).

(** *** Sample options, manifests and states *)

(** Driver options with a directory name and every flag off. *)
Definition plainConfigs (dir : string) : Conf.IETCDDriverConfigs :=
  {| Conf.dirname := Some (JS.VString dir);
     Conf.genKeys := false;
     Conf.overrideSysObj := false;
     Conf.watchKeys := false;
     Conf.overrideNotInScope := false;
     Conf.genEnvDirectories := false |}.

(** Driver options asking for per-environment subdirectories only. *)
Definition envDirConfigs (dir : string) : Conf.IETCDDriverConfigs :=
  {| Conf.dirname := Some (JS.VString dir);
     Conf.genKeys := false;
     Conf.overrideSysObj := false;
     Conf.watchKeys := false;
     Conf.overrideNotInScope := false;
     Conf.genEnvDirectories := true |}.

(** Driver options of the end-to-end scenario:
    [{ dirname: 'profile', genKeys: true, overrideSysObj: true }]. *)
Definition profileConfigs : Conf.IETCDDriverConfigs :=
  {| Conf.dirname := Some (JS.VString "profile");
     Conf.genKeys := true;
     Conf.overrideSysObj := true;
     Conf.watchKeys := false;
     Conf.overrideNotInScope := false;
     Conf.genEnvDirectories := false |}.

(** The same options without mirroring. *)
Definition profileConfigsNoMirror : Conf.IETCDDriverConfigs :=
  {| Conf.dirname := Some (JS.VString "profile");
     Conf.genKeys := true;
     Conf.overrideSysObj := false;
     Conf.watchKeys := false;
     Conf.overrideNotInScope := false;
     Conf.genEnvDirectories := false |}.

(** Driver options with mirroring and watching on. *)
Definition watchConfigs (dir : string) : Conf.IETCDDriverConfigs :=
  {| Conf.dirname := Some (JS.VString dir);
     Conf.genKeys := false;
     Conf.overrideSysObj := true;
     Conf.watchKeys := true;
     Conf.overrideNotInScope := false;
     Conf.genEnvDirectories := false |}.

(** Driver options that mirror and generate keys. *)
Definition generatingConfigs (dir : string) : Conf.IETCDDriverConfigs :=
  {| Conf.dirname := Some (JS.VString dir);
     Conf.genKeys := true;
     Conf.overrideSysObj := true;
     Conf.watchKeys := false;
     Conf.overrideNotInScope := false;
     Conf.genEnvDirectories := false |}.

(** The manifest [{ MONGO_URI: 'mongodb://localhost' }]. *)
Definition mongoManifest (d : Conf.IETCDDriverConfigs) : Conf.IETCDConfigurations :=
  {| Conf.envParams := [("MONGO_URI", Conf.Literal "mongodb://localhost")];
     Conf.driverConfigs := Some d |}.

(** The manifest [{ MONGO_URI: { etcdPath: path } }]. *)
Definition explicitManifest (path : string) (d : Conf.IETCDDriverConfigs)
  : Conf.IETCDConfigurations :=
  {| Conf.envParams :=
       [("MONGO_URI", Conf.Definition_ {| Conf.etcdPath := Some path; Conf.defaultValue := None |})];
     Conf.driverConfigs := Some d |}.

(** The manifest [{ PORT: { defaultValue: 'D' } }]. *)
Definition portManifest (d : Conf.IETCDDriverConfigs) : Conf.IETCDConfigurations :=
  {| Conf.envParams :=
       [("PORT", Conf.Definition_ {| Conf.etcdPath := None; Conf.defaultValue := Some "D" |})];
     Conf.driverConfigs := Some d |}.

(** The manifest [{ MONGODB_URI: { defaultValue: undefined, etcdPath: path } }]. *)
Definition mongodbManifest (path : string) (d : Conf.IETCDDriverConfigs)
  : Conf.IETCDConfigurations :=
  {| Conf.envParams :=
       [("MONGODB_URI",
         Conf.Definition_ {| Conf.etcdPath := Some path; Conf.defaultValue := None |})];
     Conf.driverConfigs := Some d |}.

(** A call of [initialize] without any driver options, in a process
    whose environment does not name the service either. *)
Definition noDirectory : Conf.IETCDConfigurations :=
  {| Conf.envParams := [("MONGO_URI", Conf.Literal "mongodb://localhost")];
     Conf.driverConfigs := None |}.

(** A call of [initialize] with an empty manifest. *)
Definition emptyManifest : Conf.IETCDConfigurations :=
  {| Conf.envParams := [];
     Conf.driverConfigs := Some (plainConfigs "svc") |}.

(** The manifest [{ P: '' }]: a parameter whose default is the empty
    string. *)
Definition emptyDefaultManifest : Conf.IETCDConfigurations :=
  {| Conf.envParams := [("P", Conf.Literal "")];
     Conf.driverConfigs := Some (generatingConfigs "svc") |}.

(** A driver whose configuration has been processed, as [initialize]
    leaves it before the resolution loop starts. *)
Definition configured (cfg : Conf.IETCDConfigurations) (env kv : gmap string string) : State :=
  prepared "localhost:2379" cfg (fresh env kv).

(** A driver that resolved [MONGO_URI] from the key ["/svc/MONGO_URI"] and
    watches it. *)
Definition watching : State :=
  exec (initialize "localhost:2379" (mongoManifest (watchConfigs "svc")))
    (fresh ∅ {[ "/svc/MONGO_URI" := "mongodb://db" ]}).

(** Its only subscription. *)
Definition mongoWatcher : Watcher :=
  {| wkey := "/svc/MONGO_URI"; wprop := "MONGO_URI"; wactive := true; wcancelling := false |}.

(** ** The address report of the server ([findMyIP] of both [server.ts]) *)

(** The fields of [os.NetworkInterfaceInfo] the function reads. *)
Record NetworkInterfaceInfo : Type := {
  family : string;
  internal : bool;
  address : string
}.

(** The inner [forEach] callback, on the pair of the two variables it
    updates: the counter [alias] and [localIP]. *)
Definition visitInterfaceInfo (acc : nat * JS.value) (iface : NetworkInterfaceInfo)
  : nat * JS.value :=
  let '(alias, localIP) := acc in
  if negb (String.eqb "IPv4" (family iface)) || negb (eqb (internal iface) false)
  then (alias, localIP)
  else (S alias, if (alias <? 1)%nat then JS.VString (address iface) else localIP).

(** [findMyIP]. [ifaces] lists the own properties of
    [os.networkInterfaces()] in [Object.keys] order, each with its value;
    [localIP] starts [undefined] and [alias] restarts at 0 for every
    interface. *)
Definition findMyIP (ifaces : list (string * list NetworkInterfaceInfo)) : JS.value :=
  fold_left
    (fun localIP entry => snd (fold_left visitInterfaceInfo (snd entry) (0, localIP)))
    ifaces JS.VUndefined.

(** An address that is neither internal nor of another family than IPv4. *)
Definition externalIPv4 (iface : NetworkInterfaceInfo) : bool :=
  String.eqb "IPv4" (family iface) && negb (internal iface).

(** The first external IPv4 address of one interface. *)
Definition firstExternal (infos : list NetworkInterfaceInfo) : option string :=
  address <$> head (filter (λ iface, externalIPv4 iface = true) infos).

(** The first external IPv4 address of the last interface that has one. *)
Fixpoint lastExternal (ifaces : list (string * list NetworkInterfaceInfo)) : option string :=
  match ifaces with
  | [] => None
  | entry :: rest =>
      match lastExternal rest with
      | Some a => Some a
      | None => firstExternal (snd entry)
      end
  end.

(** ** Runs of the resolution loop that nothing interrupts *)

(** Every request is answered, and a put is always given a string: the
    environment is mirrored before line 190 reads it, under names it
    accepts, or no key is generated at all. *)
Definition uninterrupted (names : list string) (s : State) : Prop :=
  unavailable s = ∅
  ∧ ((Conf.flag Conf.overrideSysObj (proccesedConfigurations s) = true
      ∧ Forall (λ name, env_settable name = true) names)
     ∨ Conf.flag Conf.genKeys (proccesedConfigurations s) = false).

(** A value with a NUL character in it. *)
Definition cutValue : string := String "a" (String Ascii.zero (String "b" EmptyString)).

(** The manifest [{ P: '[object Object]' }]: a bare string that reads like
    a converted object. *)
Definition objectStringManifest (d : Conf.IETCDDriverConfigs) : Conf.IETCDConfigurations :=
  {| Conf.envParams := [("P", Conf.Literal "[object Object]")];
     Conf.driverConfigs := Some d |}.

(** The manifest [{ P: v }]. *)
Definition literalManifest (v : string) (d : Conf.IETCDDriverConfigs)
  : Conf.IETCDConfigurations :=
  {| Conf.envParams := [("P", Conf.Literal v)];
     Conf.driverConfigs := Some d |}.

(** The manifest [{ A: 'a', B: 'b' }]. *)
Definition abManifest (d : Conf.IETCDDriverConfigs) : Conf.IETCDConfigurations :=
  {| Conf.envParams := [("A", Conf.Literal "a"); ("B", Conf.Literal "b")];
     Conf.driverConfigs := Some d |}.

(** The manifest [{ A: 'a', B: 'b', C: 'c' }]. *)
Definition abcManifest (d : Conf.IETCDDriverConfigs) : Conf.IETCDConfigurations :=
  {| Conf.envParams :=
       [("A", Conf.Literal "a"); ("B", Conf.Literal "b"); ("C", Conf.Literal "c")];
     Conf.driverConfigs := Some d |}.

(** A freshly constructed driver facing a coordination service that
    rejects the requests for the keys [down]. *)
Definition partlyDown (down : gset string) (env kv : gmap string string) : State :=
  set_unavailable down (fresh env kv).


(** Driver options that watch the keys and leave [process.env] alone. *)
Definition watchOnlyConfigs (dir : string) : Conf.IETCDDriverConfigs :=
  {| Conf.dirname := Some (JS.VString dir);
     Conf.genKeys := false;
     Conf.overrideSysObj := false;
     Conf.watchKeys := true;
     Conf.overrideNotInScope := false;
     Conf.genEnvDirectories := false |}.


(** Driver options whose [dirname] property is there and holds
    [undefined]: [{ dirname: undefined }]. *)
Definition undefinedDirConfigs : Conf.IETCDDriverConfigs :=
  {| Conf.dirname := Some JS.VUndefined;
     Conf.genKeys := false;
     Conf.overrideSysObj := false;
     Conf.watchKeys := false;
     Conf.overrideNotInScope := false;
     Conf.genEnvDirectories := false |}.


(** The operands of the chain of lines 176 and 181 when the turn of a
    parameter starts. *)
Definition operands (s : State) (propertyName : string) : list JS.value :=
  [ remoteValue s (etcdEntryName s propertyName);
    env_get s propertyName;
    settingDefault s propertyName;
    strDefaultVal s propertyName ].

(** The manifest [{ 'A=B': 'x' }]: a parameter name the environment of
    the process refuses. *)
Definition refusedNameManifest (d : Conf.IETCDDriverConfigs) : Conf.IETCDConfigurations :=
  {| Conf.envParams := [("A=B", Conf.Literal "x")];
     Conf.driverConfigs := Some d |}.


(** The manifest [{ [name]: { etcdPath: path, defaultValue: D } }]. *)
Definition definitionManifest (name path : string) (D : option string)
    (d : Conf.IETCDDriverConfigs) : Conf.IETCDConfigurations :=
  {| Conf.envParams :=
       [(name, Conf.Definition_ {| Conf.etcdPath := Some path; Conf.defaultValue := D |})];
     Conf.driverConfigs := Some d |}.


(** * Properties *)

Arguments Conf.flag : simpl never.

(** ** Splitting a key path *)

Section Split.

Variable sep : ascii.

#[local] Abbreviation occurrences := (occurrences sep).

Lemma split_nonempty s : JS.split sep s ≠ [].
Proof.
  destruct s as [|c rest]; simpl; [discriminate|].
  destruct (Ascii.eqb c sep); [discriminate|].
  destruct (JS.split sep rest); discriminate.
Qed.

Lemma length_split s : length (JS.split sep s) = S (occurrences s).
Proof.
  induction s as [|c rest IH]; simpl; [reflexivity|].
  destruct (Ascii.eqb c sep); simpl; [by rewrite IH|].
  destruct (JS.split sep rest) eqn:E; simpl in *; [discriminate|done].
Qed.

Lemma occurrences_app a b : occurrences (a ++ b) = occurrences a + occurrences b.
Proof. induction a as [|c a IH]; simpl; [reflexivity|]. rewrite IH. lia. Qed.

Lemma split_no_separator s : occurrences s = 0 → JS.split sep s = [s].
Proof.
  induction s as [|c rest IH]; simpl; [reflexivity|].
  destruct (Ascii.eqb c sep); simpl; [discriminate|].
  intros H. by rewrite (IH H).
Qed.

(** Splitting distributes over a separator. *)
Lemma split_app a b :
  JS.split sep (a ++ String sep b) = (JS.split sep a ++ JS.split sep b)%list.
Proof.
  induction a as [|c a IH]; simpl.
  - by rewrite Ascii.eqb_refl.
  - rewrite IH. destruct (Ascii.eqb c sep); [reflexivity|].
    pose proof (split_nonempty a).
    destruct (JS.split sep a); done.
Qed.

(** The last segment is whatever follows the last separator. *)
Lemma last_split_app a b d :
  List.last (JS.split sep (a ++ String sep b)) d = List.last (JS.split sep b) d.
Proof.
  rewrite split_app. pose proof (split_nonempty b) as Hb.
  induction (JS.split sep a) as [|x xs IH]; simpl; [reflexivity|].
  destruct (xs ++ JS.split sep b)%list eqn:E; [|exact IH].
  destruct xs; simpl in E; [done|discriminate].
Qed.

End Split.

(** The scope guard in terms of the number of slashes of the key. *)
Lemma isInScope_spec keyName :
  isInScope keyName = true ↔
    3 <= occurrences "/" keyName
    ∨ (occurrences "/" keyName = 2
       ∧ List.last (JS.split "/" keyName) "" ≠ "").
Proof.
  unfold isInScope. rewrite length_split.
  destruct (String.eqb_spec (List.last (JS.split "/" keyName) "") "") as [->|Hne].
  - destruct (occurrences "/" keyName) as [|[|[|n]]]; simpl; split; intros H;
      try done; try (destruct H as [?|[? ?]]; done || lia); left; lia.
  - destruct (occurrences "/" keyName) as [|[|[|n]]]; simpl; split; intros H;
      try done; try (destruct H as [?|[? ?]]; done || lia); [by right|left; lia].
Qed.

(** ** C2: the scope guard *)

(** C2, as stated, does not hold: the guard accepts ["/svc/param"], so the
    three sample verdicts of the claim cannot hold together. *)
Lemma isInScope_two_segments_counterexample :
  isInScope "/svc/param" = true
  ∧ ¬ (isInScope "/svc/param" = false
       ∧ isInScope "/svc/prod/param" = true
       ∧ isInScope "/svc" = false).
Proof. split; [reflexivity|]. intros [H _]. vm_compute in H. discriminate. Qed.

(** C2 (amended): the guard returns true for ["/svc/param"] and for
    ["/svc/prod/param"], false for ["/svc"]. In general a path
    [/{dir}/{param}] with a non-empty parameter segment is in scope, a path
    with three or more slashes ([/{dir}/{subdir}/{param}...]) is in scope,
    and a path with a single segment after the leading slash, or with an
    empty second one ([/{dir}/]), is not. *)
Theorem isInScope_segments :
  isInScope "/svc/param" = true
  ∧ isInScope "/svc/prod/param" = true
  ∧ isInScope "/svc" = false
  ∧ (∀ dir param : string,
       occurrences "/" dir = 0 → occurrences "/" param = 0 → param ≠ "" →
       isInScope ("/" ++ dir ++ "/" ++ param) = true)
  ∧ (∀ dir subdir rest : string,
       isInScope ("/" ++ dir ++ "/" ++ subdir ++ "/" ++ rest) = true)
  ∧ (∀ dir : string,
       occurrences "/" dir = 0 →
       isInScope ("/" ++ dir) = false ∧ isInScope ("/" ++ dir ++ "/") = false).
Proof.
  do 3 (split; [reflexivity|]). split; [|split]; [| |intros dir Hd; split].
  - intros dir param Hd Hp Hne. apply isInScope_spec. right. split.
    + change ("/" ++ dir ++ "/" ++ param) with (String "/" (dir ++ String "/" param)).
      simpl. rewrite occurrences_app. simpl. lia.
    + change ("/" ++ dir ++ "/" ++ param) with ("" ++ String "/" (dir ++ String "/" param)).
      rewrite !last_split_app, (split_no_separator _ _ Hp). exact Hne.
  - intros dir subdir rest. apply isInScope_spec. left.
    change ("/" ++ dir ++ "/" ++ subdir ++ "/" ++ rest)
      with (String "/" (dir ++ String "/" (subdir ++ String "/" rest))).
    simpl. rewrite !occurrences_app. simpl. rewrite !occurrences_app. simpl. lia.
  - apply not_true_is_false. intros H. apply isInScope_spec in H.
    change ("/" ++ dir) with (String "/" dir) in H. simpl in H.
    destruct H as [H|[H _]]; lia.
  - apply not_true_is_false. intros H. apply isInScope_spec in H.
    change ("/" ++ dir ++ "/") with ("" ++ String "/" (dir ++ String "/" "")) in H.
    rewrite !last_split_app in H.
    change ("" ++ String "/" (dir ++ String "/" "")) with (String "/" (dir ++ String "/" "")) in H.
    simpl in H. rewrite occurrences_app in H. simpl in H.
    destruct H as [H|[_ H]]; [lia|done].
Qed.

Lemma isInScope_segments_witness :
  isInScope ("/" ++ "profile" ++ "/" ++ "MONGODB_URI") = true
  ∧ isInScope ("/" ++ "profile") = false.
Proof.
  destruct isInScope_segments as (_ & _ & _ & Htwo & _ & Hone).
  split.
  - apply Htwo; [reflexivity|reflexivity|discriminate].
  - apply (Hone "profile"). reflexivity.
Defined.

(** ** C6: key-path derivation *)

Lemma string_app_assoc (a b c : string) : (a ++ b) ++ c = a ++ b ++ c.
Proof.
  induction a as [|x a IH]; [reflexivity|].
  change (String x ((a ++ b) ++ c) = String x (a ++ b ++ c)). by rewrite IH.
Qed.

(** C6: the derived path is [/{directory}/{environment}/{parameter}] when
    per-environment subdirectories are enabled and [NODE_ENV] is available
    (set and non-empty), [/{directory}/{parameter}] otherwise; an explicit
    (non-empty) [etcdPath] of the property definition is used instead of the
    derived path, which serves only when there is none. With directory
    ["svc"], [MONGO_URI] derives to ["/svc/MONGO_URI"], and to
    ["/svc/prod/MONGO_URI"] with the environment ["prod"] enabled. *)
Theorem key_path_derivation (s : State) (propertyName dir : string) :
  Conf.dir (proccesedConfigurations s) = JS.VString dir →
  (∀ nodeEnv : string,
     Conf.flag Conf.genEnvDirectories (proccesedConfigurations s) = true →
     process_env s !! "NODE_ENV" = Some nodeEnv → nodeEnv ≠ "" →
     generatedEtcdPath s propertyName = "/" ++ dir ++ "/" ++ nodeEnv ++ "/" ++ propertyName)
  ∧ (Conf.flag Conf.genEnvDirectories (proccesedConfigurations s) = false
     ∨ process_env s !! "NODE_ENV" = None
     ∨ process_env s !! "NODE_ENV" = Some "" →
     generatedEtcdPath s propertyName = "/" ++ dir ++ "/" ++ propertyName)
  ∧ (∀ (d : Conf.IETCDPropertyDefenition) (path : string),
       Conf.lookup propertyName (Conf.envParams (proccesedConfigurations s))
         = Some (Conf.Definition_ d) →
       Conf.etcdPath d = Some path → path ≠ "" →
       etcdEntryName s propertyName = path)
  ∧ ((∀ d, Conf.lookup propertyName (Conf.envParams (proccesedConfigurations s))
             = Some (Conf.Definition_ d) → Conf.etcdPath d = None) →
     etcdEntryName s propertyName = generatedEtcdPath s propertyName)
  ∧ generatedEtcdPath (configured (mongoManifest (plainConfigs "svc")) ∅ ∅) "MONGO_URI"
    = "/svc/MONGO_URI"
  ∧ generatedEtcdPath
      (configured (mongoManifest (envDirConfigs "svc")) {[ "NODE_ENV" := "prod" ]} ∅)
      "MONGO_URI"
    = "/svc/prod/MONGO_URI"
  ∧ etcdEntryName
      (configured (explicitManifest "mongodb_uri" (envDirConfigs "svc"))
         {[ "NODE_ENV" := "prod" ]} ∅)
      "MONGO_URI"
    = "mongodb_uri".
Proof.
  intros Hdir. unfold generatedEtcdPath, getEnvironemntDir, env_get. rewrite Hdir. simpl.
  split; [|split; [|split; [|split; [|by vm_compute]]]].
  - intros nodeEnv -> -> Hne. simpl.
    destruct (String.eqb_spec nodeEnv ""); [done|]. simpl.
    by rewrite string_app_assoc.
  - intros [->|[->| ->]]; [reflexivity| |]; simpl; by rewrite andb_false_r.
  - intros d path Hl Hp Hne. unfold etcdEntryName, getPropertySetting.
    rewrite Hl, Hp. unfold JS.or. simpl.
    by destruct (String.eqb_spec path "").
  - intros Hnone. unfold etcdEntryName, getPropertySetting, generatedEtcdPath,
      getEnvironemntDir, env_get. rewrite Hdir.
    destruct (Conf.lookup propertyName _) as [[lit|d]|] eqn:Hl; try reflexivity.
    by rewrite (Hnone d eq_refl).
Qed.

Lemma key_path_derivation_witness :
  generatedEtcdPath
    (configured (mongoManifest (envDirConfigs "svc")) {[ "NODE_ENV" := "prod" ]} ∅) "MONGO_URI"
  = "/" ++ "svc" ++ "/" ++ "prod" ++ "/" ++ "MONGO_URI"
  ∧ etcdEntryName
      (configured (explicitManifest "/shared/db/uri" (plainConfigs "svc")) ∅ ∅) "MONGO_URI"
    = "/shared/db/uri".
Proof.
  split.
  - destruct (key_path_derivation
                (configured (mongoManifest (envDirConfigs "svc")) {[ "NODE_ENV" := "prod" ]} ∅)
                "MONGO_URI" "svc" eq_refl) as (Henv & _).
    apply (Henv "prod"); [reflexivity|reflexivity|discriminate].
  - destruct (key_path_derivation
                (configured (explicitManifest "/shared/db/uri" (plainConfigs "svc")) ∅ ∅)
                "MONGO_URI" "svc" eq_refl) as (_ & _ & Hexplicit & _).
    apply (Hexplicit {| Conf.etcdPath := Some "/shared/db/uri"; Conf.defaultValue := None |});
      [reflexivity|reflexivity|discriminate].
Defined.

(** ** One loop turn, statement by statement *)

(** The environment keeps a string without NUL whole, and cutting is
    idempotent. *)
Lemma cstring_idemp v : cstring (cstring v) = cstring v.
Proof.
  induction v as [|c v IH]; [done|]. simpl.
  destruct (Ascii.eqb c Ascii.zero) eqn:Hc; [done|]. simpl. by rewrite Hc, IH.
Qed.

Lemma nulFree_cstring v : nulFree (cstring v).
Proof. apply cstring_idemp. Qed.

Lemma env_set_fields name v s :
  proccesedConfigurations (exec (env_set name v) s) = proccesedConfigurations s
  ∧ envParams (exec (env_set name v) s) = envParams s
  ∧ etcd (exec (env_set name v) s) = etcd s
  ∧ unavailable (exec (env_set name v) s) = unavailable s
  ∧ puts (exec (env_set name v) s) = puts s
  ∧ watchers (exec (env_set name v) s) = watchers s
  ∧ console (exec (env_set name v) s) = console s
  ∧ client (exec (env_set name v) s) = client s
  ∧ _etcdWatcher (exec (env_set name v) s) = _etcdWatcher s
  ∧ defaultDirname (exec (env_set name v) s) = defaultDirname s.
Proof. unfold exec, env_set, modify. simpl. by destruct (env_settable name). Qed.

Lemma process_env_env_set name v s :
  process_env (exec (env_set name v) s)
  = if env_settable name then <[name := cstring (JS.to_String v)]> (process_env s)
    else process_env s.
Proof. unfold exec, env_set, modify. simpl. by destruct (env_settable name). Qed.

Lemma mirrored_fields v name s :
  proccesedConfigurations (mirrored v name s) = proccesedConfigurations s
  ∧ envParams (mirrored v name s) = envParams s
  ∧ etcd (mirrored v name s) = etcd s
  ∧ unavailable (mirrored v name s) = unavailable s
  ∧ puts (mirrored v name s) = puts s
  ∧ watchers (mirrored v name s) = watchers s
  ∧ client (mirrored v name s) = client s
  ∧ _etcdWatcher (mirrored v name s) = _etcdWatcher s
  ∧ defaultDirname (mirrored v name s) = defaultDirname s.
Proof.
  unfold mirrored. destruct (Conf.flag _ _); [|done].
  cbn [proccesedConfigurations envParams etcd unavailable puts watchers client _etcdWatcher
         defaultDirname set_console].
  by destruct (env_set_fields name (fallback v s name) s)
    as (-> & -> & -> & -> & -> & -> & _ & -> & -> & ->).
Qed.

Lemma proccesedConfigurations_mirrored v name s :
  proccesedConfigurations (mirrored v name s) = proccesedConfigurations s.
Proof. by destruct (mirrored_fields v name s) as (-> & _). Qed.

Lemma envParams_mirrored v name s : envParams (mirrored v name s) = envParams s.
Proof. by destruct (mirrored_fields v name s) as (_ & -> & _). Qed.

Lemma initializeProperty_run name s :
  initializeProperty name s =
    let key := etcdEntryName s name in
    if decide (key ∈ unavailable s) then (Throw (RemoteUnavailable key), s)
    else generateMissing (remoteValue s key) key name
           (watched key name (resolved (remoteValue s key) name s)).
Proof.
  cbv zeta. unfold initializeProperty, bind, gets, client_get. simpl.
  destruct (decide _) as [?|_]; [done|].
  unfold generateMissing, watched, resolved, mirrored, when, exec, env_set.
  generalize (remoteValue s (etcdEntryName s name)). intros etcdVal.
  generalize (etcdEntryName s name). intros key.
  destruct (Conf.flag Conf.overrideSysObj (proccesedConfigurations s)) eqn:Ho,
    (Conf.flag Conf.watchKeys (proccesedConfigurations s)) eqn:Hwk,
    (envParams s) as [m|] eqn:Hm, (_etcdWatcher s) eqn:Hw,
    (env_settable name) eqn:Hset;
    unfold not_awaited, watchForChanges, bind, gets, modify, ret, throw; simpl;
    rewrite ?Hm, ?Hw, ?Hwk; simpl; rewrite ?Hm, ?Hw, ?Hwk; simpl;
    (destruct (negb (JS.truthy etcdVal) && Conf.flag Conf.genKeys (proccesedConfigurations s));
     [|reflexivity]);
    destruct (Conf.flag Conf.overrideNotInScope (proccesedConfigurations s) || isInScope key);
    reflexivity.
Qed.

(** What the phases of a loop turn leave untouched. *)

Lemma proccesedConfigurations_resolved v name s :
  proccesedConfigurations (resolved v name s) = proccesedConfigurations s.
Proof. unfold resolved. simpl. apply proccesedConfigurations_mirrored. Qed.

Lemma watched_fields key name s :
  proccesedConfigurations (watched key name s) = proccesedConfigurations s
  ∧ envParams (watched key name s) = envParams s
  ∧ process_env (watched key name s) = process_env s
  ∧ etcd (watched key name s) = etcd s
  ∧ unavailable (watched key name s) = unavailable s
  ∧ puts (watched key name s) = puts s.
Proof. unfold watched. by destruct (_ && _). Qed.

Lemma generateMissing_fields v key name s :
  proccesedConfigurations (generateMissing v key name s).2 = proccesedConfigurations s
  ∧ envParams (generateMissing v key name s).2 = envParams s
  ∧ process_env (generateMissing v key name s).2 = process_env s
  ∧ unavailable (generateMissing v key name s).2 = unavailable s
  ∧ watchers (generateMissing v key name s).2 = watchers s.
Proof.
  unfold generateMissing, client_put, console_log, bind, modify, throw.
  destruct (_ && _); [|done]. destruct (_ || _); [|done].
  destruct (env_get s name); simpl; try done.
  by destruct (decide _).
Qed.

(** The store of resolved parameters after a loop turn that reached the
    coordination service. *)
Lemma envParams_initializeProperty name s :
  etcdEntryName s name ∉ unavailable s →
  envParams (exec (initializeProperty name) s)
  = Some (<[name := effectiveValue s name]> (default ∅ (envParams s))).
Proof.
  intros Hav. unfold exec. rewrite initializeProperty_run. cbv zeta.
  destruct (decide _) as [?|_]; [done|].
  destruct (generateMissing_fields (remoteValue s (etcdEntryName s name))
              (etcdEntryName s name) name
              (watched (etcdEntryName s name) name
                 (resolved (remoteValue s (etcdEntryName s name)) name s)))
    as (_ & -> & _).
  destruct (watched_fields (etcdEntryName s name) name
              (resolved (remoteValue s (etcdEntryName s name)) name s))
    as (_ & -> & _).
  unfold resolved. simpl. by rewrite envParams_mirrored.
Qed.

Lemma process_env_initializeProperty name s :
  etcdEntryName s name ∉ unavailable s →
  process_env (exec (initializeProperty name) s)
  = process_env (mirrored (remoteValue s (etcdEntryName s name)) name s).
Proof.
  intros Hav. unfold exec. rewrite initializeProperty_run. cbv zeta.
  destruct (decide _) as [?|_]; [done|].
  destruct (generateMissing_fields (remoteValue s (etcdEntryName s name))
              (etcdEntryName s name) name
              (watched (etcdEntryName s name) name
                 (resolved (remoteValue s (etcdEntryName s name)) name s)))
    as (_ & _ & -> & _).
  destruct (watched_fields (etcdEntryName s name) name
              (resolved (remoteValue s (etcdEntryName s name)) name s))
    as (_ & _ & -> & _).
  reflexivity.
Qed.

Lemma process_env_mirrored v name s :
  process_env (mirrored v name s) =
    if Conf.flag Conf.overrideSysObj (proccesedConfigurations s) && env_settable name
    then <[name := cstring (JS.to_String (fallback v s name))]> (process_env s)
    else process_env s.
Proof.
  unfold mirrored. destruct (Conf.flag _ _); [|done].
  cbn [process_env set_console andb]. apply process_env_env_set.
Qed.

(** ** The fallback chain *)

Lemma nonEmpty_Some c v : nonEmpty c = Some v → c = JS.VString v ∧ JS.truthy c = true.
Proof.
  destruct c as [| |x]; simpl; try discriminate.
  destruct (String.eqb x ""); [discriminate|]. by intros [= ->].
Qed.

Lemma nonEmpty_None c : nonEmpty c = None → JS.truthy c = false.
Proof. destruct c as [| |x]; simpl; try done. by destruct (String.eqb x ""). Qed.

Lemma or_truthy a b : JS.truthy a = true → a ||' b = a.
Proof. unfold JS.or. by intros ->. Qed.

Lemma or_falsy a b : JS.truthy a = false → a ||' b = b.
Proof. unfold JS.or. by intros ->. Qed.

(** The chain of [||] picks the first non-empty candidate when there is
    one. *)
Lemma or_chain_firstNonEmpty a b c d v :
  firstNonEmpty [a; b; c; d] = Some v → a ||' b ||' c ||' d = JS.VString v.
Proof.
  simpl.
  destruct (nonEmpty a) eqn:Ha.
  { intros [= ->]. apply nonEmpty_Some in Ha as [-> Ht]. by rewrite !(or_truthy (JS.VString v)) by exact Ht. }
  apply nonEmpty_None in Ha. rewrite (or_falsy a) by done.
  destruct (nonEmpty b) eqn:Hb.
  { intros [= ->]. apply nonEmpty_Some in Hb as [-> Ht]. by rewrite !(or_truthy (JS.VString v)) by exact Ht. }
  apply nonEmpty_None in Hb. rewrite (or_falsy b) by done.
  destruct (nonEmpty c) eqn:Hc.
  { intros [= ->]. apply nonEmpty_Some in Hc as [-> Ht]. by rewrite !(or_truthy (JS.VString v)) by exact Ht. }
  apply nonEmpty_None in Hc. rewrite (or_falsy c) by done.
  destruct (nonEmpty d) eqn:Hd; [|discriminate].
  intros [= ->]. by apply nonEmpty_Some in Hd as [-> _].
Qed.

Lemma settingDefault_mirrored v name s p :
  settingDefault (mirrored v name s) p = settingDefault s p.
Proof.
  unfold settingDefault, getPropertySetting. by rewrite proccesedConfigurations_mirrored.
Qed.

Lemma strDefaultVal_mirrored v name s p :
  strDefaultVal (mirrored v name s) p = strDefaultVal s p.
Proof. unfold strDefaultVal. by rewrite proccesedConfigurations_mirrored. Qed.

(** The manifest value never contributes [null], and an object
    contributes a non-empty string. *)
Lemma strDefaultVal_not_null s name : strDefaultVal s name ≠ JS.VNull.
Proof.
  unfold strDefaultVal.
  destruct (Conf.lookup _ _) as [[lit|d]|]; try done.
  by destruct (String.eqb lit _).
Qed.

Lemma truthy_to_String v : JS.truthy v = true → JS.VString (JS.to_String v) = v.
Proof. by destruct v. Qed.

(** Feeding the result of the chain back in second place, converted to a
    string, yields that string. *)
Lemma or_chain_fed_back a b c d :
  d ≠ JS.VNull →
  a ||' JS.VString (JS.to_String (a ||' b ||' c ||' d)) ||' c ||' d
  = JS.VString (JS.to_String (a ||' b ||' c ||' d)).
Proof.
  intros Hd.
  destruct (JS.truthy a) eqn:Ha.
  { rewrite !(or_truthy a) by done. by rewrite truthy_to_String. }
  rewrite !(or_falsy a) by done.
  destruct (JS.truthy b) eqn:Hb.
  { rewrite !(or_truthy b) by done. rewrite truthy_to_String by done.
    by rewrite !(or_truthy b). }
  rewrite !(or_falsy b) by done.
  destruct (JS.truthy c) eqn:Hc.
  { rewrite !(or_truthy c) by done. rewrite truthy_to_String by done.
    by rewrite !(or_truthy c). }
  rewrite !(or_falsy c) by done.
  destruct d as [| |x]; [reflexivity|done|].
  unfold JS.or. simpl. destruct (String.eqb x "") eqn:Hx; simpl; rewrite ?Hx; simpl; [by rewrite Hc|done].
Qed.

(** Without mirroring the stored value is the chain read against the
    ambient environment. *)
Lemma effectiveValue_plain s name :
  Conf.flag Conf.overrideSysObj (proccesedConfigurations s) = false →
  effectiveValue s name = fallback (remoteValue s (etcdEntryName s name)) s name.
Proof. intros Ho. unfold effectiveValue, mirrored. by rewrite Ho. Qed.

(** Nor does mirroring change it under a name the environment refuses. *)
Lemma effectiveValue_refused s name :
  env_settable name = false →
  effectiveValue s name = fallback (remoteValue s (etcdEntryName s name)) s name.
Proof.
  intros Hset. unfold effectiveValue.
  generalize (remoteValue s (etcdEntryName s name)). intros etcdVal.
  unfold fallback at 1. rewrite settingDefault_mirrored, strDefaultVal_mirrored.
  unfold env_get at 1. rewrite process_env_mirrored, Hset, andb_false_r. reflexivity.
Qed.

(** With mirroring, under a name the environment accepts, the stored
    value is the chain with the mirrored string in second place. *)
Lemma effectiveValue_mirrored s name :
  Conf.flag Conf.overrideSysObj (proccesedConfigurations s) = true →
  env_settable name = true →
  effectiveValue s name
  = remoteValue s (etcdEntryName s name)
    ||' JS.VString (cstring (JS.to_String
                               (fallback (remoteValue s (etcdEntryName s name)) s name)))
    ||' settingDefault s name ||' strDefaultVal s name.
Proof.
  intros Ho Hset. unfold effectiveValue.
  generalize (remoteValue s (etcdEntryName s name)). intros etcdVal.
  unfold fallback at 1. rewrite settingDefault_mirrored, strDefaultVal_mirrored.
  unfold env_get at 1. rewrite process_env_mirrored, Ho, Hset. cbn [andb].
  by rewrite lookup_insert_eq.
Qed.

(** When the environment keeps the string of the chain whole, the two
    assignments of lines 176 and 181 agree. *)
Lemma effectiveValue_mirror s name :
  Conf.flag Conf.overrideSysObj (proccesedConfigurations s) = true →
  env_settable name = true →
  nulFree (JS.to_String (fallback (remoteValue s (etcdEntryName s name)) s name)) →
  effectiveValue s name
  = JS.VString (JS.to_String (fallback (remoteValue s (etcdEntryName s name)) s name)).
Proof.
  intros Ho Hset Hnul. rewrite effectiveValue_mirrored by done. rewrite Hnul.
  apply or_chain_fed_back, strDefaultVal_not_null.
Qed.

(** The operands of the chain of the code against the candidates of the
    specification: they differ in the last place, for an entry that is a
    property definition and for the bare string ['[object Object]']. *)
Lemma fallback_candidates s name v :
  firstNonEmpty (candidates s name) = Some v →
  (discardedLiteral s name →
   firstNonEmpty [remoteValue s (etcdEntryName s name); env_get s name] ≠ None) →
  fallback (remoteValue s (etcdEntryName s name)) s name = JS.VString v.
Proof.
  unfold candidates, discardedLiteral, fallback, literalDefault, strDefaultVal, settingDefault,
    getPropertySetting.
  generalize (remoteValue s (etcdEntryName s name)) (env_get s name). intros a b.
  destruct (Conf.lookup name _) as [[lit|d]|].
  - destruct (String.eqb_spec lit "[object Object]") as [->|Hne].
    + intros Hfirst Hdiscarded. specialize (Hdiscarded eq_refl).
      cbn [firstNonEmpty] in Hfirst, Hdiscarded.
      destruct (nonEmpty a) eqn:Ha.
      { injection Hfirst as ->. apply nonEmpty_Some in Ha as [-> Ht].
        by rewrite !(or_truthy (JS.VString v)) by exact Ht. }
      apply nonEmpty_None in Ha. rewrite (or_falsy a) by done.
      destruct (nonEmpty b) eqn:Hb; [|done].
      injection Hfirst as ->. apply nonEmpty_Some in Hb as [-> Ht].
      by rewrite !(or_truthy (JS.VString v)) by exact Ht.
    + intros Hfirst _. by apply or_chain_firstNonEmpty.
  - intros Hfirst _.
    assert (firstNonEmpty [a; b; JS.of_option (Conf.defaultValue d)] = Some v) as Hthree.
    { cbn [firstNonEmpty] in *. destruct (nonEmpty a); [done|].
      destruct (nonEmpty b); [done|]. by destruct (nonEmpty (JS.of_option _)). }
    cbn [firstNonEmpty] in Hthree.
    destruct (nonEmpty a) eqn:Ha.
    { injection Hthree as ->. apply nonEmpty_Some in Ha as [-> Ht].
      by rewrite !(or_truthy (JS.VString v)) by exact Ht. }
    apply nonEmpty_None in Ha. rewrite (or_falsy a) by done.
    destruct (nonEmpty b) eqn:Hb.
    { injection Hthree as ->. apply nonEmpty_Some in Hb as [-> Ht].
      by rewrite !(or_truthy (JS.VString v)) by exact Ht. }
    apply nonEmpty_None in Hb. rewrite (or_falsy b) by done.
    destruct (nonEmpty (JS.of_option _)) eqn:Hc; [|done].
    injection Hthree as ->. apply nonEmpty_Some in Hc as [-> Ht].
    by rewrite !(or_truthy (JS.VString v)) by exact Ht.
  - intros Hfirst _. by apply or_chain_firstNonEmpty.
Qed.

(** Whenever some candidate is non-empty, the stored value is the first
    such candidate, unless lines 172-173 discard it or the mirror cuts
    it. *)
Lemma effectiveValue_firstNonEmpty s name v :
  firstNonEmpty (candidates s name) = Some v →
  (discardedLiteral s name →
   firstNonEmpty [remoteValue s (etcdEntryName s name); env_get s name] ≠ None) →
  (JS.truthy (remoteValue s (etcdEntryName s name)) = false →
   Conf.flag Conf.overrideSysObj (proccesedConfigurations s) = true →
   env_settable name = true → nulFree v) →
  effectiveValue s name = JS.VString v.
Proof.
  intros Hfirst Hdiscarded Hnul.
  pose proof (fallback_candidates s name v Hfirst Hdiscarded) as Hchain.
  assert (v ≠ "") as Hv.
  { intros ->. revert Hfirst. unfold candidates. cbn [firstNonEmpty].
    repeat (match goal with
            | |- context [nonEmpty ?c] =>
                let H := fresh in
                destruct (nonEmpty c) eqn:H;
                [apply nonEmpty_Some in H as [-> H]; intros [= ->]; done|]
            end). done. }
  destruct (Conf.flag Conf.overrideSysObj (proccesedConfigurations s)) eqn:Ho;
    [|by rewrite effectiveValue_plain].
  destruct (env_settable name) eqn:Hset; [|by rewrite effectiveValue_refused].
  rewrite effectiveValue_mirrored, Hchain by done. cbn [JS.to_String].
  destruct (JS.truthy (remoteValue s (etcdEntryName s name))) eqn:Hremote.
  - unfold fallback in Hchain. rewrite !(or_truthy (remoteValue _ _)) in Hchain by done.
    rewrite Hchain. by rewrite !(or_truthy (JS.VString v)) by (simpl; by destruct (String.eqb_spec v "")).
  - rewrite (or_falsy (remoteValue _ _)) by done. rewrite (Hnul eq_refl eq_refl eq_refl).
    by rewrite !(or_truthy (JS.VString v)) by (simpl; by destruct (String.eqb_spec v "")).
Qed.

Lemma readParam_initializeProperty name s :
  etcdEntryName s name ∉ unavailable s →
  readParam (exec (initializeProperty name) s) name = effectiveValue s name.
Proof.
  intros Hav. unfold readParam. rewrite envParams_initializeProperty by done.
  by rewrite lookup_insert_eq.
Qed.

Lemma nonEmpty_VString v : v ≠ "" → nonEmpty (JS.VString v) = Some v.
Proof. intros Hv. simpl. by destruct (String.eqb_spec v ""). Qed.

Lemma unavailable_configured cfg env kv key : key ∉ unavailable (configured cfg env kv).
Proof. apply not_elem_of_empty. Qed.

(** ** The generation of missing keys *)

Lemma env_get_watched_resolved key v name s :
  env_get (watched key name (resolved v name s)) name = env_get (mirrored v name s) name.
Proof.
  unfold env_get.
  destruct (watched_fields key name (resolved v name s)) as (_ & _ & -> & _).
  reflexivity.
Qed.

Lemma flag_watched_resolved f key v name s :
  Conf.flag f (proccesedConfigurations (watched key name (resolved v name s)))
  = Conf.flag f (proccesedConfigurations s).
Proof.
  destruct (watched_fields key name (resolved v name s)) as (-> & _).
  by rewrite proccesedConfigurations_resolved.
Qed.

Lemma puts_watched_resolved key v name s :
  puts (watched key name (resolved v name s)) = puts s.
Proof.
  destruct (watched_fields key name (resolved v name s)) as (_ & _ & _ & _ & _ & ->).
  unfold resolved. cbn [puts set_envParams].
  by destruct (mirrored_fields v name s) as (_ & _ & _ & _ & -> & _).
Qed.

Lemma etcd_watched_resolved key v name s :
  etcd (watched key name (resolved v name s)) = etcd s.
Proof.
  destruct (watched_fields key name (resolved v name s)) as (_ & _ & _ & -> & _).
  unfold resolved. cbn [etcd set_envParams].
  by destruct (mirrored_fields v name s) as (_ & _ & -> & _).
Qed.

Lemma unavailable_watched_resolved key v name s :
  unavailable (watched key name (resolved v name s)) = unavailable s.
Proof.
  destruct (watched_fields key name (resolved v name s)) as (_ & _ & _ & _ & -> & _).
  unfold resolved. cbn [unavailable set_envParams].
  by destruct (mirrored_fields v name s) as (_ & _ & _ & -> & _).
Qed.

(** The put calls on record after a loop turn that reached the
    coordination service: at most one more, carrying what [process.env]
    holds for the parameter at that moment. *)
Lemma puts_initializeProperty name s :
  etcdEntryName s name ∉ unavailable s →
  puts (exec (initializeProperty name) s)
  = if negb (JS.truthy (remoteValue s (etcdEntryName s name)))
       && Conf.flag Conf.genKeys (proccesedConfigurations s)
       && (Conf.flag Conf.overrideNotInScope (proccesedConfigurations s)
           || isInScope (etcdEntryName s name))
    then (etcdEntryName s name,
          env_get (mirrored (remoteValue s (etcdEntryName s name)) name s) name) :: puts s
    else puts s.
Proof.
  intros Hav. unfold exec. rewrite initializeProperty_run. cbv zeta.
  destruct (decide _) as [?|_]; [done|].
  unfold generateMissing. rewrite !flag_watched_resolved, env_get_watched_resolved.
  destruct (negb _ && _); simpl; [|apply puts_watched_resolved].
  destruct (_ || _); simpl; [|apply puts_watched_resolved].
  unfold client_put, bind, modify, throw. simpl. rewrite puts_watched_resolved.
  destruct (env_get _ _); try reflexivity.
  by destruct (decide _).
Qed.

(** ** C4: the end-to-end scenario with an undefined default *)

(** C4 at its scenario: the manifest
    [{ MONGODB_URI: { defaultValue: undefined, etcdPath: 'mongodb_uri' } }]
    with [{ dirname: 'profile', genKeys: true, overrideSysObj: true }], an
    empty key space and an empty environment. The resolved value is the
    string ["[object Object]"], present in [envParams] and in
    [process.env]; no put call is issued there, the path being out of
    scope, but one carrying ["[object Object]"] is issued for the in-scope
    path ["/profile/prod/mongodb_uri"]. *)
Theorem undefined_default_resolves_to_object_string :
  let s1 := exec (initialize "localhost:2379" (mongodbManifest "mongodb_uri" profileConfigs))
              (fresh ∅ ∅) in
  let s2 := exec (initialize "localhost:2379"
                    (mongodbManifest "/profile/prod/mongodb_uri" profileConfigs))
              (fresh ∅ ∅) in
  readParam s1 "MONGODB_URI" = JS.VString "[object Object]"
  ∧ process_env s1 !! "MONGODB_URI" = Some "[object Object]"
  ∧ puts s1 = []
  ∧ puts s2 = [("/profile/prod/mongodb_uri", JS.VString "[object Object]")]
  ∧ etcd s2 !! "/profile/prod/mongodb_uri" = Some "[object Object]".
Proof. by vm_compute. Qed.

Lemma fallback_no_remote etcdVal s name :
  JS.truthy etcdVal = false → fallback etcdVal s name = localValue s name.
Proof. intros Hfalsy. unfold fallback, localValue. by rewrite (or_falsy etcdVal). Qed.

(** ** [initialize], statement by statement *)

Arguments prepared : simpl never.

Lemma prepared_fields connectionOptions userDefinedConfigs s :
  proccesedConfigurations (prepared connectionOptions userDefinedConfigs s)
    = overrideDefaultConfigs s userDefinedConfigs
  ∧ envParams (prepared connectionOptions userDefinedConfigs s) = envParams s
  ∧ process_env (prepared connectionOptions userDefinedConfigs s) = process_env s
  ∧ etcd (prepared connectionOptions userDefinedConfigs s) = etcd s
  ∧ unavailable (prepared connectionOptions userDefinedConfigs s) = unavailable s
  ∧ puts (prepared connectionOptions userDefinedConfigs s) = puts s
  ∧ watchers (prepared connectionOptions userDefinedConfigs s) = watchers s
  ∧ _etcdWatcher (prepared connectionOptions userDefinedConfigs s) = true.
Proof.
  unfold prepared, exec, createClient, console_log, bind, gets, modify. simpl.
  destruct (client s); repeat split.
Qed.

Lemma initialize_run connectionOptions userDefinedConfigs s :
  initialize connectionOptions userDefinedConfigs s =
    let s0 := prepared connectionOptions userDefinedConfigs s in
    if negb (JS.truthy (Conf.dir (overrideDefaultConfigs s userDefinedConfigs)))
    then (Normal tt,
          caught (ThrownString "ETCD_SERVICE_NAME not found in environment variables") s0)
    else if bool_decide (Conf.keys (Conf.envParams userDefinedConfigs) = [])
    then (Normal tt, caught (ThrownString "Configs arg does not contains any properties") s0)
    else try_catch (for_of (Conf.keys (Conf.envParams userDefinedConfigs)) initializeProperty)
           (console_error "initialize() ex:") s0.
Proof.
  cbv zeta.
  unfold initialize, initializeProcess, prepared, exec, caught, try_catch, console_error,
    createClient, console_log, bind, gets, modify, when, throw.
  simpl.
  destruct (client s); simpl;
    destruct (JS.truthy (Conf.dir (overrideDefaultConfigs s userDefinedConfigs))); simpl;
    try reflexivity;
    destruct (bool_decide (Conf.keys (Conf.envParams userDefinedConfigs) = [])); simpl;
    reflexivity.
Qed.

(** ** C3: errors of [initialize] *)

(** C3, as stated, does not hold: with the directory name missing, or with
    an empty manifest, the call completes normally; nothing is thrown to
    the caller. *)
Lemma initialize_invalid_configuration_counterexample :
  invalidConfiguration (fresh ∅ ∅) noDirectory
  ∧ invalidConfiguration (fresh ∅ ∅) emptyManifest
  ∧ (initialize "localhost:2379" noDirectory (fresh ∅ ∅)).1 = Normal tt
  ∧ (initialize "localhost:2379" emptyManifest (fresh ∅ ∅)).1 = Normal tt
  ∧ ¬ (∃ e, (initialize "localhost:2379" noDirectory (fresh ∅ ∅)).1 = Throw e)
  ∧ ¬ (∃ e, (initialize "localhost:2379" emptyManifest (fresh ∅ ∅)).1 = Throw e).
Proof.
  split; [by left|]. split; [by right|].
  split; [reflexivity|]. split; [reflexivity|].
  split; intros [e He]; vm_compute in He; discriminate.
Qed.

(** C3 (amended): no error of [initialize] crosses the call boundary: the
    call always completes normally. When the directory name is missing or
    the manifest is empty, the error raised for it aborts the
    initialization before any parameter is resolved (the resolved
    parameters, the environment, the key space, the put calls and the
    watches are as before the call) and, like every other internal error,
    it is caught and logged. *)
Theorem initialize_catches_every_error (connectionOptions : IETCDOptions)
    (userDefinedConfigs : Conf.IETCDConfigurations) (s : State) :
  (initialize connectionOptions userDefinedConfigs s).1 = Normal tt
  ∧ (∀ (e : Exn) (s' : State),
       for_of (Conf.keys (Conf.envParams userDefinedConfigs)) initializeProperty
         (prepared connectionOptions userDefinedConfigs s) = (Throw e, s') →
       invalidConfiguration s userDefinedConfigs
       ∨ exec (initialize connectionOptions userDefinedConfigs) s = caught e s')
  ∧ (invalidConfiguration s userDefinedConfigs →
     let s' := exec (initialize connectionOptions userDefinedConfigs) s in
     (∃ msg earlier,
        console s' = ConsoleError "initialize() ex:" (ThrownString msg) :: earlier)
     ∧ envParams s' = envParams s
     ∧ process_env s' = process_env s
     ∧ etcd s' = etcd s
     ∧ puts s' = puts s
     ∧ watchers s' = watchers s).
Proof.
  rewrite initialize_run. unfold exec. rewrite initialize_run. cbv zeta.
  destruct (prepared_fields connectionOptions userDefinedConfigs s)
    as (_ & Hparams & Henv & Hkv & _ & Hputs & Hws & _).
  split; [|split].
  - destruct (negb _); [reflexivity|]. destruct (bool_decide _); [reflexivity|].
    unfold try_catch, console_error, modify.
    destruct (for_of _ _ _) as [[[]|e] s']; reflexivity.
  - intros e s' Hloop.
    destruct (JS.truthy (Conf.dir (overrideDefaultConfigs s userDefinedConfigs))) eqn:Hdir;
      [|left; by left].
    destruct (bool_decide_reflect (Conf.keys (Conf.envParams userDefinedConfigs) = []))
      as [Hkeys|Hkeys].
    { left; right. by destruct (Conf.envParams userDefinedConfigs). }
    right. unfold try_catch. by rewrite Hloop.
  - intros [Hdir|Hempty].
    + rewrite Hdir. unfold caught.
      cbn [negb snd set_console envParams process_env etcd puts watchers console].
      rewrite Hparams, Henv, Hkv, Hputs, Hws. eauto 10.
    + rewrite Hempty. unfold caught. change (Conf.keys []) with (@nil string).
      rewrite bool_decide_eq_true_2 by done.
      destruct (negb _);
        cbn [snd set_console envParams process_env etcd puts watchers console];
        rewrite Hparams, Henv, Hkv, Hputs, Hws; eauto 10.
Qed.

Lemma initialize_catches_every_error_witness :
  envParams (exec (initialize "localhost:2379" noDirectory) (fresh ∅ ∅)) = None
  ∧ puts (exec (initialize "localhost:2379" emptyManifest) (fresh ∅ ∅)) = [].
Proof.
  split.
  - destruct (initialize_catches_every_error "localhost:2379" noDirectory (fresh ∅ ∅))
      as (_ & _ & Habort).
    destruct (Habort (or_introl eq_refl)) as (_ & Hparams & _). exact Hparams.
  - destruct (initialize_catches_every_error "localhost:2379" emptyManifest (fresh ∅ ∅))
      as (_ & _ & Habort).
    destruct (Habort (or_intror eq_refl)) as (_ & _ & _ & _ & Hputs & _). exact Hputs.
Defined.

(** ** One loop turn: every field *)

Lemma initializeProperty_unavailable name s :
  etcdEntryName s name ∈ unavailable s →
  initializeProperty name s = (Throw (RemoteUnavailable (etcdEntryName s name)), s).
Proof.
  intros Hav. rewrite initializeProperty_run. cbv zeta. by destruct (decide _).
Qed.

Lemma generateMissing_run name s :
  let key := etcdEntryName s name in
  let s' := watched key name (resolved (remoteValue s key) name s) in
  generateMissing (remoteValue s key) key name s' =
    if pushing s name then client_put key (pushedValue s name) s'
    else if negb (JS.truthy (remoteValue s key))
            && Conf.flag Conf.genKeys (proccesedConfigurations s)
    then console_log
           [JS.VString "Can not change/push out of scope variables, Property can be changed in driverConfigs"] s'
    else (Normal tt, s').
Proof.
  cbv zeta. unfold generateMissing, pushing, pushedValue.
  rewrite !flag_watched_resolved, env_get_watched_resolved.
  destruct (negb _ && _); [|reflexivity]. by destruct (_ || _).
Qed.

Lemma etcd_initializeProperty name s :
  etcdEntryName s name ∉ unavailable s →
  etcd (exec (initializeProperty name) s)
  = if pushing s name then
      match pushedValue s name with
      | JS.VString v => <[etcdEntryName s name := v]> (etcd s)
      | _ => etcd s
      end
    else etcd s.
Proof.
  intros Hav. unfold exec. rewrite initializeProperty_run. cbv zeta.
  destruct (decide _) as [?|_]; [done|].
  rewrite generateMissing_run. cbv zeta.
  destruct (pushing s name).
  - unfold client_put, bind, modify, throw. simpl.
    destruct (pushedValue s name); simpl; try apply etcd_watched_resolved.
    rewrite unavailable_watched_resolved.
    destruct (decide _) as [?|_]; [done|]. simpl. by rewrite etcd_watched_resolved.
  - destruct (_ && _); simpl; apply etcd_watched_resolved.
Qed.

Lemma outcome_initializeProperty name s :
  etcdEntryName s name ∉ unavailable s →
  (initializeProperty name s).1
  = if pushing s name then
      match pushedValue s name with
      | JS.VString v => Normal tt
      | _ => Throw (TypeError "The first argument must be of type string")
      end
    else Normal tt.
Proof.
  intros Hav. rewrite initializeProperty_run. cbv zeta.
  destruct (decide _) as [?|_]; [done|].
  rewrite generateMissing_run. cbv zeta.
  destruct (pushing s name).
  - unfold client_put, bind, modify, throw. simpl.
    destruct (pushedValue s name); simpl; try reflexivity.
    rewrite unavailable_watched_resolved.
    by destruct (decide _).
  - by destruct (_ && _).
Qed.

Lemma static_initializeProperty name s :
  proccesedConfigurations (exec (initializeProperty name) s) = proccesedConfigurations s
  ∧ unavailable (exec (initializeProperty name) s) = unavailable s
  ∧ defaultDirname (exec (initializeProperty name) s) = defaultDirname s.
Proof.
  unfold exec. rewrite initializeProperty_run. cbv zeta.
  destruct (decide _) as [?|_]; [done|].
  set (s' := watched _ _ _).
  assert (proccesedConfigurations s' = proccesedConfigurations s
          ∧ unavailable s' = unavailable s ∧ defaultDirname s' = defaultDirname s)
    as (Hc & Hu & Hd).
  { unfold s', watched, resolved, mirrored, exec, env_set, modify.
    destruct (Conf.flag Conf.overrideSysObj _); simpl;
      destruct (env_settable name); simpl; destruct (_ && _); done. }
  unfold generateMissing, client_put, console_log, bind, modify, throw.
  destruct (_ && _); [|done]. destruct (_ || _); [|done].
  destruct (env_get s' name); simpl; try done.
  by destruct (decide _).
Qed.

(** A loop turn touches one key, one stored parameter and one
    environment variable. *)
Lemma etcd_frame name s k :
  k ≠ etcdEntryName s name →
  etcd (exec (initializeProperty name) s) !! k = etcd s !! k.
Proof.
  intros Hk. destruct (decide (etcdEntryName s name ∈ unavailable s)) as [Hav|Hav].
  - unfold exec. by rewrite initializeProperty_unavailable.
  - rewrite etcd_initializeProperty by done.
    destruct (pushing s name); [|done].
    destruct (pushedValue s name); try done. by rewrite lookup_insert_ne.
Qed.

Lemma storedParam_frame name s n :
  n ≠ name →
  storedParam (exec (initializeProperty name) s) n = storedParam s n.
Proof.
  intros Hn. destruct (decide (etcdEntryName s name ∈ unavailable s)) as [Hav|Hav].
  - unfold exec. by rewrite initializeProperty_unavailable.
  - unfold storedParam. rewrite envParams_initializeProperty by done. simpl.
    rewrite lookup_insert_ne by done. by destruct (envParams s).
Qed.

Lemma process_env_frame name s n :
  n ≠ name →
  process_env (exec (initializeProperty name) s) !! n = process_env s !! n.
Proof.
  intros Hn. destruct (decide (etcdEntryName s name ∈ unavailable s)) as [Hav|Hav].
  - unfold exec. by rewrite initializeProperty_unavailable.
  - rewrite process_env_initializeProperty, process_env_mirrored by done.
    destruct (_ && _); [|done]. by rewrite lookup_insert_ne.
Qed.

(** Without mirroring the environment is not written at all. *)
Lemma process_env_unmirrored name s :
  Conf.flag Conf.overrideSysObj (proccesedConfigurations s) = false →
  process_env (exec (initializeProperty name) s) = process_env s.
Proof.
  intros Ho. destruct (decide (etcdEntryName s name ∈ unavailable s)) as [Hav|Hav].
  - unfold exec. by rewrite initializeProperty_unavailable.
  - by rewrite process_env_initializeProperty, process_env_mirrored, Ho.
Qed.

(** ** A loop turn on a key the service holds *)

Lemma fallback_truthy v s name : JS.truthy v = true → fallback v s name = v.
Proof. intros Hv. unfold fallback. by rewrite !(or_truthy v). Qed.

Lemma effectiveValue_remote s name :
  JS.truthy (remoteValue s (etcdEntryName s name)) = true →
  effectiveValue s name = remoteValue s (etcdEntryName s name).
Proof. intros Hv. unfold effectiveValue. by apply fallback_truthy. Qed.

Lemma pushing_remote s name :
  JS.truthy (remoteValue s (etcdEntryName s name)) = true → pushing s name = false.
Proof. intros Hv. unfold pushing. by rewrite Hv. Qed.

(** ** The resolution loop *)

Lemma for_of_cons {A} (x : A) rest body s :
  for_of (x :: rest) body s =
    match body x s with
    | (Normal _, s') => for_of rest body s'
    | (Throw e, s') => (Throw e, s')
    end.
Proof. reflexivity. Qed.

Lemma try_catch_run body handler s :
  try_catch body handler s =
    match body s with
    | (Normal a, s') => (Normal a, s')
    | (Throw e, s') => handler e s'
    end.
Proof. reflexivity. Qed.

(** A call that passes the checks is the loop under the [catch]. *)
Lemma initialize_valid connectionOptions cfg s :
  JS.truthy (Conf.dir (overrideDefaultConfigs s cfg)) = true →
  Conf.keys (Conf.envParams cfg) ≠ [] →
  initialize connectionOptions cfg s
  = try_catch (for_of (Conf.keys (Conf.envParams cfg)) initializeProperty)
      (console_error "initialize() ex:") (prepared connectionOptions cfg s).
Proof.
  intros Hdir Hkeys. rewrite initialize_run. cbv zeta. rewrite Hdir.
  by rewrite bool_decide_eq_false_2.
Qed.

(** What every loop turn preserves, the loop preserves, however it ends. *)
Lemma for_of_invariant (P : State → Prop) names s :
  (∀ name s', name ∈ names → P s' → P (exec (initializeProperty name) s')) →
  P s → P (exec (for_of names initializeProperty) s).
Proof.
  revert s. induction names as [|name rest IH]; intros s Hstep Hs; [exact Hs|].
  pose proof (Hstep name s (list_elem_of_here _ _) Hs) as Hturn.
  unfold exec in *. rewrite for_of_cons.
  destruct (initializeProperty name s) as [[[]|e] s1]; cbn [fst snd] in *; [|exact Hturn].
  apply IH; [|exact Hturn]. intros n s' Hn. apply Hstep. by right.
Qed.

(** What the preparation establishes, every loop turn preserves and the
    [catch] preserves, holds after [initialize]. *)
Lemma initialize_invariant (P : State → Prop) connectionOptions cfg s :
  P (prepared connectionOptions cfg s) →
  (∀ name s', name ∈ Conf.keys (Conf.envParams cfg) →
              P s' → P (exec (initializeProperty name) s')) →
  (∀ e s', P s' → P (caught e s')) →
  P (exec (initialize connectionOptions cfg) s).
Proof.
  intros Hprepared Hstep Hcaught.
  pose proof (for_of_invariant P (Conf.keys (Conf.envParams cfg)) _ Hstep Hprepared) as Hloop.
  unfold exec in *. rewrite initialize_run. cbv zeta.
  destruct (negb _); [by apply Hcaught|].
  destruct (bool_decide _); [by apply Hcaught|].
  rewrite try_catch_run.
  destruct (for_of _ _ _) as [[[]|e] s1]; cbn [fst snd] in *; [exact Hloop|].
  by apply Hcaught.
Qed.

(** The put calls of one loop turn: none, or one for the key just read. *)
Lemma puts_step name s :
  puts (exec (initializeProperty name) s) = puts s
  ∨ (pushing s name = true
     ∧ puts (exec (initializeProperty name) s)
       = (etcdEntryName s name, pushedValue s name) :: puts s).
Proof.
  destruct (decide (etcdEntryName s name ∈ unavailable s)) as [Hav|Hav].
  - left. unfold exec. by rewrite initializeProperty_unavailable.
  - rewrite puts_initializeProperty by done. fold (pushedValue s name).
    fold (pushing s name). destruct (pushing s name); [by right|by left].
Qed.

(** The key space after one loop turn: untouched, or the key just read
    set to the string [process.env] holds for the parameter. *)
Lemma etcd_step name s :
  etcd (exec (initializeProperty name) s) = etcd s
  ∨ (pushing s name = true
     ∧ ∃ x, pushedValue s name = JS.VString x
            ∧ etcd (exec (initializeProperty name) s)
              = <[etcdEntryName s name := x]> (etcd s)).
Proof.
  destruct (decide (etcdEntryName s name ∈ unavailable s)) as [Hav|Hav].
  - left. unfold exec. by rewrite initializeProperty_unavailable.
  - rewrite etcd_initializeProperty by done.
    destruct (pushing s name); [|by left].
    destruct (pushedValue s name) as [| |x]; [by left..|]. right. eauto.
Qed.

Lemma machinery_step name s :
  client (exec (initializeProperty name) s) = client s
  ∧ _etcdWatcher (exec (initializeProperty name) s) = _etcdWatcher s.
Proof.
  unfold exec. rewrite initializeProperty_run. cbv zeta.
  destruct (decide _) as [?|_]; [done|].
  set (s' := watched _ _ _).
  assert (client s' = client s ∧ _etcdWatcher s' = _etcdWatcher s) as (Hc & Hw).
  { unfold s', watched, resolved, mirrored, exec, env_set, modify.
    destruct (Conf.flag Conf.overrideSysObj _); simpl;
      destruct (env_settable name); simpl; destruct (_ && _); done. }
  unfold generateMissing, client_put, console_log, bind, modify, throw.
  destruct (_ && _); [|done]. destruct (_ || _); [|done].
  destruct (env_get s' name); simpl; try done.
  by destruct (decide _).
Qed.

Lemma watchers_step name s :
  etcdEntryName s name ∉ unavailable s →
  watchers (exec (initializeProperty name) s)
  = if Conf.flag Conf.watchKeys (proccesedConfigurations s) && _etcdWatcher s
    then (watchers s
            ++ [{| wkey := etcdEntryName s name; wprop := name;
                   wactive := true; wcancelling := false |}])%list
    else watchers s.
Proof.
  intros Hav. unfold exec. rewrite initializeProperty_run. cbv zeta.
  destruct (decide _) as [?|_]; [done|].
  destruct (generateMissing_fields (remoteValue s (etcdEntryName s name))
              (etcdEntryName s name) name
              (watched (etcdEntryName s name) name
                 (resolved (remoteValue s (etcdEntryName s name)) name s)))
    as (_ & _ & _ & _ & ->).
  unfold watched. rewrite proccesedConfigurations_resolved.
  assert (_etcdWatcher (resolved (remoteValue s (etcdEntryName s name)) name s)
            = _etcdWatcher s
          ∧ watchers (resolved (remoteValue s (etcdEntryName s name)) name s) = watchers s)
    as [-> Hws].
  { unfold resolved. cbn [_etcdWatcher watchers set_envParams].
    by destruct (mirrored_fields (remoteValue s (etcdEntryName s name)) name s)
      as (_ & _ & _ & _ & _ & -> & _ & -> & _). }
  destruct (_ && _); [|done]. cbn [watchers set_watchers]. by rewrite Hws.
Qed.

Lemma flags_merged s cfg :
  Conf.flag Conf.genKeys (overrideDefaultConfigs s cfg) = Conf.flag Conf.genKeys cfg
  ∧ Conf.flag Conf.watchKeys (overrideDefaultConfigs s cfg) = Conf.flag Conf.watchKeys cfg
  ∧ Conf.flag Conf.overrideNotInScope (overrideDefaultConfigs s cfg)
    = Conf.flag Conf.overrideNotInScope cfg.
Proof.
  unfold overrideDefaultConfigs, Conf.flag. by destruct (Conf.driverConfigs cfg).
Qed.

Lemma pushing_inv s name :
  pushing s name = true →
  JS.truthy (remoteValue s (etcdEntryName s name)) = false
  ∧ Conf.flag Conf.genKeys (proccesedConfigurations s) = true
  ∧ (Conf.flag Conf.overrideNotInScope (proccesedConfigurations s) = true
     ∨ isInScope (etcdEntryName s name) = true).
Proof.
  unfold pushing. intros H.
  apply andb_prop in H as [H Hscope]. apply andb_prop in H as [Hv Hgen].
  split; [by apply negb_true_iff|]. split; [done|]. by apply orb_prop.
Qed.

Lemma client_prepared connectionOptions cfg s :
  client (prepared connectionOptions cfg s) = Some (default connectionOptions (client s)).
Proof.
  unfold prepared, exec, createClient, console_log, bind, gets, modify.
  destruct (client s) as [c|] eqn:Hc; simpl; rewrite Hc; simpl; by rewrite ?Hc.
Qed.

Lemma for_of_app {A} (pre rest : list A) body s :
  for_of (pre ++ rest) body s =
    match for_of pre body s with
    | (Normal _, s1) => for_of rest body s1
    | (Throw e, s1) => (Throw e, s1)
    end.
Proof.
  revert s. induction pre as [|x pre IH]; intros s; [done|].
  rewrite <- app_comm_cons, !for_of_cons.
  destruct (body x s) as [[[]|e] s1]; [apply IH|done].
Qed.

(** ** One turn within a call of [initialize] *)

Lemma readParam_storedParam s name :
  readParam s name = default JS.VUndefined (storedParam s name).
Proof. unfold readParam, storedParam. by destruct (envParams s). Qed.

Lemma mirror_merged s cfg :
  Conf.flag Conf.overrideSysObj (overrideDefaultConfigs s cfg) = Conf.flag Conf.overrideSysObj cfg.
Proof. unfold overrideDefaultConfigs, Conf.flag. by destruct (Conf.driverConfigs cfg). Qed.

(** The turns of other parameters leave the entries of a parameter
    alone. *)
Lemma for_of_keeps names s name :
  name ∉ names →
  storedParam (exec (for_of names initializeProperty) s) name = storedParam s name
  ∧ process_env (exec (for_of names initializeProperty) s) !! name = process_env s !! name.
Proof.
  intros Hfresh.
  apply (for_of_invariant (λ s', storedParam s' name = storedParam s name
                                 ∧ process_env s' !! name = process_env s !! name));
    [|done].
  intros n s' Hn (<- & <-).
  assert (name ≠ n) by (by intros ->).
  by rewrite storedParam_frame, process_env_frame.
Qed.

(** The put log only grows along the loop. *)
Lemma for_of_puts names s :
  ∃ later, puts (exec (for_of names initializeProperty) s) = (later ++ puts s)%list.
Proof.
  apply (for_of_invariant (λ s', ∃ later, puts s' = (later ++ puts s)%list)); [|by exists []].
  intros n s' _ (later & Hlater).
  destruct (puts_step n s') as [->|[_ ->]]; [by exists later|].
  exists ((etcdEntryName s' n, pushedValue s' n) :: later). by rewrite Hlater.
Qed.

(** When the loop reaches a parameter, the options are the merged ones
    and the availability of the keys is what it was. *)
Lemma reaches_static connectionOptions cfg s name s1 :
  reaches connectionOptions cfg s name s1 →
  proccesedConfigurations s1 = overrideDefaultConfigs s cfg
  ∧ unavailable s1 = unavailable s.
Proof.
  intros (_ & before & after & _ & _ & Hbefore).
  assert (s1 = exec (for_of before initializeProperty) (prepared connectionOptions cfg s))
    as -> by (unfold exec; by rewrite Hbefore).
  apply (for_of_invariant
           (λ s', proccesedConfigurations s' = overrideDefaultConfigs s cfg
                  ∧ unavailable s' = unavailable s)).
  - intros n s' _ (<- & <-). by destruct (static_initializeProperty n s') as (-> & -> & _).
  - by destruct (prepared_fields connectionOptions cfg s) as (-> & _ & _ & _ & -> & _).
Qed.

(** What the call leaves in the stores for a parameter is what the turn
    of the parameter left there, and the put calls of the turn are on
    record. *)
Lemma initialize_turn connectionOptions cfg s name s1 :
  reaches connectionOptions cfg s name s1 →
  storedParam (exec (initialize connectionOptions cfg) s) name
    = storedParam (exec (initializeProperty name) s1) name
  ∧ process_env (exec (initialize connectionOptions cfg) s) !! name
    = process_env (exec (initializeProperty name) s1) !! name
  ∧ ∃ later, puts (exec (initialize connectionOptions cfg) s)
             = (later ++ puts (exec (initializeProperty name) s1))%list.
Proof.
  intros (Hdir & before & after & Hkeys & Hfresh & Hbefore).
  unfold exec at 1 3 5. rewrite initialize_valid; [|done|rewrite Hkeys; by destruct before].
  rewrite try_catch_run, Hkeys, for_of_app, Hbefore, for_of_cons.
  unfold exec. destruct (initializeProperty name s1) as [[[]|e] s2]; cbn [fst snd].
  - destruct (for_of_keeps after s2 name Hfresh) as (Hstored & Henv).
    destruct (for_of_puts after s2) as (later & Hlater).
    unfold exec in *.
    destruct (for_of after initializeProperty s2) as [[[]|e] s3]; cbn [fst snd] in *;
      (split; [exact Hstored|split; [exact Henv|by exists later]]).
  - split; [done|]. split; [done|]. by exists [].
Qed.

Lemma initialize_turn_read connectionOptions cfg s name s1 :
  reaches connectionOptions cfg s name s1 →
  etcdEntryName s1 name ∉ unavailable s1 →
  readParam (exec (initialize connectionOptions cfg) s) name = effectiveValue s1 name.
Proof.
  intros Hreach Hav. destruct (initialize_turn _ _ _ _ _ Hreach) as (Hstored & _).
  rewrite readParam_storedParam, Hstored, <- readParam_storedParam.
  by apply readParam_initializeProperty.
Qed.

(** The first parameter of the manifest is reached right after the
    checks. *)
Lemma reaches_first connectionOptions cfg s name after :
  JS.truthy (Conf.dir (overrideDefaultConfigs s cfg)) = true →
  Conf.keys (Conf.envParams cfg) = name :: after →
  name ∉ after →
  reaches connectionOptions cfg s name (prepared connectionOptions cfg s).
Proof. intros Hdir Hkeys Hfresh. split; [done|]. by exists [], after. Qed.

(** ** C1: precedence of the fallback chain *)

(** C1, as stated, does not hold for every manifest entry. A put the
    client refuses ends the loop, and the entries after it are never
    resolved: with [{ A: 'a', B: 'b' }], key generation on and mirroring
    off, nothing is stored for [B]. A request the coordination service
    rejects ends the loop too, and nothing is stored for its entry. The
    bare string ['[object Object]'] is not taken as a default. And under
    mirroring a default with a NUL character in it is stored as the
    environment cut it. *)
Lemma fallback_chain_precedence_counterexample :
  (firstNonEmpty (candidates (configured (abManifest profileConfigsNoMirror) ∅ ∅) "B")
     = Some "b"
   ∧ readParam (exec (initialize "localhost:2379" (abManifest profileConfigsNoMirror))
                  (fresh ∅ ∅)) "B" = JS.VUndefined)
  ∧ (firstNonEmpty
       (candidates (prepared "localhost:2379" (abcManifest (plainConfigs "svc"))
                      (partlyDown {[ "/svc/A" ]} ∅ ∅)) "A")
       = Some "a"
     ∧ readParam (exec (initialize "localhost:2379" (abcManifest (plainConfigs "svc")))
                    (partlyDown {[ "/svc/A" ]} ∅ ∅)) "A" = JS.VUndefined)
  ∧ (firstNonEmpty (candidates (configured (objectStringManifest (plainConfigs "svc")) ∅ ∅) "P")
       = Some "[object Object]"
     ∧ readParam (exec (initialize "localhost:2379" (objectStringManifest (plainConfigs "svc")))
                    (fresh ∅ ∅)) "P" = JS.VUndefined)
  ∧ (firstNonEmpty
       (candidates (configured (literalManifest cutValue (watchConfigs "svc")) ∅ ∅) "P")
       = Some cutValue
     ∧ readParam
         (exec (initialize "localhost:2379" (literalManifest cutValue (watchConfigs "svc")))
            (fresh ∅ ∅)) "P" = JS.VString "a").
Proof. repeat split; vm_compute; reflexivity. Qed.

(** C1 (amended): for every manifest entry the resolution loop reaches,
    and whose request the coordination service answers, the effective
    value stored by [initialize] is the first non-empty candidate in the
    order remote value, ambient environment value, [defaultValue] of the
    property definition, manifest literal default, unless that candidate
    is the bare string ['[object Object]'], and provided that under
    mirroring (and a name the environment accepts) a value that does not
    come from the coordination service has no NUL character. In
    particular, with remote ["R"], ambient ["A"] and default ["D"] all
    non-empty the effective value is ["R"]; with no remote value it is
    ["A"]; with neither it is ["D"]. *)
Theorem fallback_chain_precedence (connectionOptions : IETCDOptions)
    (cfg : Conf.IETCDConfigurations) (s s1 : State) (propertyName : string) :
  reaches connectionOptions cfg s propertyName s1 →
  etcdEntryName s1 propertyName ∉ unavailable s1 →
  (∀ v : string,
     firstNonEmpty (candidates s1 propertyName) = Some v →
     (discardedLiteral s1 propertyName →
      firstNonEmpty [remoteValue s1 (etcdEntryName s1 propertyName);
                     env_get s1 propertyName] ≠ None) →
     (JS.truthy (remoteValue s1 (etcdEntryName s1 propertyName)) = false →
      Conf.flag Conf.overrideSysObj cfg = true → env_settable propertyName = true →
      nulFree v) →
     readParam (exec (initialize connectionOptions cfg) s) propertyName = JS.VString v)
  ∧ (∀ R A D : string,
       R ≠ "" → A ≠ "" → D ≠ "" →
       etcd s1 !! etcdEntryName s1 propertyName = Some R →
       process_env s1 !! propertyName = Some A →
       manifestDefault s1 propertyName D →
       readParam (exec (initialize connectionOptions cfg) s) propertyName = JS.VString R)
  ∧ (∀ A D : string,
       A ≠ "" → D ≠ "" →
       etcd s1 !! etcdEntryName s1 propertyName = None →
       process_env s1 !! propertyName = Some A →
       manifestDefault s1 propertyName D →
       (Conf.flag Conf.overrideSysObj cfg = true → env_settable propertyName = true →
        nulFree A) →
       readParam (exec (initialize connectionOptions cfg) s) propertyName = JS.VString A)
  ∧ (∀ D : string,
       D ≠ "" →
       etcd s1 !! etcdEntryName s1 propertyName = None →
       process_env s1 !! propertyName = None →
       manifestDefault s1 propertyName D →
       ¬ discardedLiteral s1 propertyName →
       (Conf.flag Conf.overrideSysObj cfg = true → env_settable propertyName = true →
        nulFree D) →
       readParam (exec (initialize connectionOptions cfg) s) propertyName = JS.VString D).
Proof.
  intros Hreach Hav.
  destruct (reaches_static _ _ _ _ _ Hreach) as (Hcfg & _).
  assert (∀ v, firstNonEmpty (candidates s1 propertyName) = Some v →
               (discardedLiteral s1 propertyName →
                firstNonEmpty [remoteValue s1 (etcdEntryName s1 propertyName);
                               env_get s1 propertyName] ≠ None) →
               (JS.truthy (remoteValue s1 (etcdEntryName s1 propertyName)) = false →
                Conf.flag Conf.overrideSysObj cfg = true → env_settable propertyName = true →
                nulFree v) →
               readParam (exec (initialize connectionOptions cfg) s) propertyName
               = JS.VString v) as Hfirst.
  { intros v Hv Hdiscarded Hnul. rewrite (initialize_turn_read _ _ _ _ s1) by done.
    apply effectiveValue_firstNonEmpty; [done..|].
    rewrite Hcfg, mirror_merged. exact Hnul. }
  split; [exact Hfirst|]. split; [|split].
  - intros R A D HR HA _ Hremote Hambient _. apply Hfirst.
    + unfold candidates, remoteValue. rewrite Hremote.
      cbn -[nonEmpty]. by rewrite nonEmpty_VString.
    + intros _. unfold remoteValue. rewrite Hremote.
      cbn -[nonEmpty]. by rewrite nonEmpty_VString.
    + unfold remoteValue. rewrite Hremote. simpl. by destruct (String.eqb_spec R "").
  - intros A D HA _ Hremote Hambient _ Hnul. apply Hfirst.
    + unfold candidates, remoteValue, env_get. rewrite Hremote, Hambient.
      cbn -[nonEmpty]. by rewrite nonEmpty_VString.
    + intros _. unfold remoteValue, env_get. rewrite Hremote, Hambient.
      cbn -[nonEmpty]. by rewrite nonEmpty_VString.
    + intros _. exact Hnul.
  - intros D HD Hremote Hambient Hdefault Hkept Hnul. apply Hfirst.
    + unfold candidates, remoteValue, env_get. rewrite Hremote, Hambient.
      cbn -[nonEmpty settingDefault literalDefault].
      revert Hdefault. unfold manifestDefault, settingDefault, literalDefault, getPropertySetting.
      destruct (Conf.lookup _ _) as [[lit|d]|]; [intros ->|intros ->|done];
        cbn -[nonEmpty]; by rewrite nonEmpty_VString.
    + intros Hdiscarded. by destruct Hkept.
    + intros _. exact Hnul.
Qed.

Lemma fallback_chain_precedence_witness :
  readParam
    (exec (initialize "localhost:2379" (portManifest (plainConfigs "svc")))
       (fresh {[ "PORT" := "A" ]} {[ "/svc/PORT" := "R" ]})) "PORT" = JS.VString "R"
  ∧ readParam
      (exec (initialize "localhost:2379" (portManifest (plainConfigs "svc")))
         (fresh {[ "PORT" := "A" ]} ∅)) "PORT"
    = JS.VString "A"
  ∧ readParam
      (exec (initialize "localhost:2379" (portManifest (plainConfigs "svc"))) (fresh ∅ ∅))
      "PORT"
    = JS.VString "D".
Proof.
  split; [|split].
  - destruct (fallback_chain_precedence "localhost:2379" (portManifest (plainConfigs "svc"))
                (fresh {[ "PORT" := "A" ]} {[ "/svc/PORT" := "R" ]})
                (prepared "localhost:2379" (portManifest (plainConfigs "svc"))
                   (fresh {[ "PORT" := "A" ]} {[ "/svc/PORT" := "R" ]})) "PORT")
      as (_ & Hremote & _).
    + by apply (reaches_first _ _ _ _ []); [| |apply not_elem_of_nil].
    + apply not_elem_of_empty.
    + apply (Hremote "R" "A" "D"); try discriminate; reflexivity.
  - destruct (fallback_chain_precedence "localhost:2379" (portManifest (plainConfigs "svc"))
                (fresh {[ "PORT" := "A" ]} ∅)
                (prepared "localhost:2379" (portManifest (plainConfigs "svc"))
                   (fresh {[ "PORT" := "A" ]} ∅)) "PORT")
      as (_ & _ & Hambient & _).
    + by apply (reaches_first _ _ _ _ []); [| |apply not_elem_of_nil].
    + apply not_elem_of_empty.
    + apply (Hambient "A" "D"); try discriminate; reflexivity.
  - destruct (fallback_chain_precedence "localhost:2379" (portManifest (plainConfigs "svc"))
                (fresh ∅ ∅)
                (prepared "localhost:2379" (portManifest (plainConfigs "svc")) (fresh ∅ ∅))
                "PORT")
      as (_ & _ & _ & Hdefault).
    + by apply (reaches_first _ _ _ _ []); [| |apply not_elem_of_nil].
    + apply not_elem_of_empty.
    + apply (Hdefault "D"); try discriminate; reflexivity.
Defined.

(** ** The console and the guarded keys within a call *)

(** The console only grows, in a turn, along the loop and in the
    call. *)
Lemma console_initializeProperty name s :
  ∃ more, console (exec (initializeProperty name) s) = (more ++ console s)%list.
Proof.
  unfold exec. rewrite initializeProperty_run. cbv zeta.
  destruct (decide _) as [?|_]; [by exists []|].
  set (key := etcdEntryName s name). set (v := remoteValue s key).
  assert (∃ more, console (watched key name (resolved v name s)) = (more ++ console s)%list)
    as (more & Hmore).
  { unfold watched, resolved, mirrored.
    destruct (Conf.flag Conf.overrideSysObj (proccesedConfigurations s)).
    - destruct (env_set_fields name (fallback v s name) s)
        as (_ & _ & _ & _ & _ & _ & Hconsole & _).
      eexists [_]. destruct (_ && _); cbn [console set_watchers set_envParams set_console];
        by rewrite Hconsole.
    - exists []. by destruct (_ && _). }
  unfold generateMissing, client_put, console_log, bind, modify, throw.
  destruct (_ && _); [|by exists more]. destruct (_ || _).
  - exists more. destruct (env_get _ name); cbn [fst snd console set_puts]; try done.
    destruct (decide _); cbn [snd console set_puts set_etcd]; done.
  - eexists (_ :: more). cbn [snd console set_console]. by rewrite Hmore.
Qed.

Lemma for_of_console names s :
  ∃ more, console (exec (for_of names initializeProperty) s) = (more ++ console s)%list.
Proof.
  apply (for_of_invariant (λ s', ∃ more, console s' = (more ++ console s)%list));
    [|by exists []].
  intros n s' _ (more & Hmore).
  destruct (console_initializeProperty n s') as (more' & ->).
  exists (more' ++ more)%list. by rewrite Hmore, app_assoc.
Qed.

Lemma initialize_turn_console connectionOptions cfg s name s1 :
  reaches connectionOptions cfg s name s1 →
  ∃ more, console (exec (initialize connectionOptions cfg) s)
          = (more ++ console (exec (initializeProperty name) s1))%list.
Proof.
  intros (Hdir & before & after & Hkeys & Hfresh & Hbefore).
  unfold exec at 1. rewrite initialize_valid; [|done|rewrite Hkeys; by destruct before].
  rewrite try_catch_run, Hkeys, for_of_app, Hbefore, for_of_cons.
  unfold exec. destruct (initializeProperty name s1) as [[[]|e] s2]; cbn [fst snd].
  - destruct (for_of_console after s2) as (more & Hmore). unfold exec in Hmore.
    destruct (for_of after initializeProperty s2) as [[[]|e] s3]; cbn [fst snd] in *.
    + by exists more.
    + eexists (_ :: more). cbn [console_error modify snd console set_console].
      by rewrite Hmore.
  - by eexists [_].
Qed.

(** A key the guard rejects is not written by a call without
    [overrideNotInScope]. *)
Lemma initialize_guarded_key connectionOptions cfg s key :
  Conf.flag Conf.overrideNotInScope cfg = false → isInScope key = false →
  etcd (exec (initialize connectionOptions cfg) s) !! key = etcd s !! key
  ∧ ∃ new, puts (exec (initialize connectionOptions cfg) s) = (new ++ puts s)%list
           ∧ Forall (λ put, put.1 ≠ key) new.
Proof.
  intros Hoff Hout.
  enough (proccesedConfigurations (exec (initialize connectionOptions cfg) s)
            = overrideDefaultConfigs s cfg
          ∧ etcd (exec (initialize connectionOptions cfg) s) !! key = etcd s !! key
          ∧ ∃ new, puts (exec (initialize connectionOptions cfg) s) = (new ++ puts s)%list
                   ∧ Forall (λ put, put.1 ≠ key) new) as (_ & ? & ?); [done|].
  apply (initialize_invariant
           (λ s', proccesedConfigurations s' = overrideDefaultConfigs s cfg
                  ∧ etcd s' !! key = etcd s !! key
                  ∧ ∃ new, puts s' = (new ++ puts s)%list
                           ∧ Forall (λ put, put.1 ≠ key) new)).
  - destruct (prepared_fields connectionOptions cfg s) as (-> & _ & _ & -> & _ & -> & _).
    split; [done|]. split; [done|]. by exists [].
  - intros name s' _ (Hcfg & Hkv & new & Hputs & Hnew).
    destruct (static_initializeProperty name s') as (-> & _ & _).
    split; [done|].
    assert (pushing s' name = true → etcdEntryName s' name ≠ key) as Hother.
    { intros Hpush <-. apply pushing_inv in Hpush as (_ & _ & [Ho|Hin]); [|congruence].
      rewrite Hcfg in Ho. destruct (flags_merged s cfg) as (_ & _ & Hm). congruence. }
    split.
    + destruct (etcd_step name s') as [->|(Hpush & x & _ & ->)]; [done|].
      rewrite lookup_insert_ne; [done|]. by apply Hother.
    + destruct (puts_step name s') as [->|[Hpush ->]]; [by exists new|].
      exists ((etcdEntryName s' name, pushedValue s' name) :: new). rewrite Hputs.
      split; [done|]. constructor; [by apply Hother|done].
  - by intros e s' H.
Qed.

(** ** C7: a key the guard rejects is not generated *)

(** C7, as stated, does not hold: by the scope rule of the specification
    ["/svc/MONGO_URI"] is out of scope, yet with key generation on and
    out-of-scope writes not allowed [initialize] puts to it. And for a key
    that is out of scope by either rule, the value resolved locally is
    stored as the environment cut it when it is mirrored. *)
Lemma out_of_scope_generation_counterexample :
  (inScopeOfSpecification "/svc/MONGO_URI" = false
   ∧ etcdEntryName (configured (mongoManifest (generatingConfigs "svc")) ∅ ∅) "MONGO_URI"
     = "/svc/MONGO_URI"
   ∧ Conf.flag Conf.genKeys (mongoManifest (generatingConfigs "svc")) = true
   ∧ Conf.flag Conf.overrideNotInScope (mongoManifest (generatingConfigs "svc")) = false
   ∧ puts (exec (initialize "localhost:2379" (mongoManifest (generatingConfigs "svc")))
             (fresh ∅ ∅))
     = [("/svc/MONGO_URI", JS.VString "mongodb://localhost")])
  ∧ (inScopeOfSpecification "p" = false ∧ isInScope "p" = false
     ∧ firstNonEmpty
         (candidates
            (configured (definitionManifest "P" "p" (Some cutValue) (generatingConfigs "svc"))
               ∅ ∅) "P")
       = Some cutValue
     ∧ readParam
         (exec (initialize "localhost:2379"
                  (definitionManifest "P" "p" (Some cutValue) (generatingConfigs "svc")))
            (fresh ∅ ∅)) "P"
       = JS.VString "a").
Proof. repeat split; vm_compute; reflexivity. Qed.

(** C7 (amended): scope is what [isInScope] decides (so [/{dir}/{param}]
    is in scope). For a parameter the resolution loop reaches, with no
    remote value, with [genKeys] on, a key the guard rejects and
    [overrideNotInScope] off: its turn raises nothing and records no put,
    no put call of the whole call targets its key and the key is as it was
    before the call, the skip is logged, and the value [initialize] stores
    in [envParams] is the one resolved locally, the first non-empty of
    ambient value and defaults (with the provisos of the fallback chain:
    not the bare string ['[object Object]'], and no NUL character when the
    value is mirrored). *)
Theorem out_of_scope_generation_skipped (connectionOptions : IETCDOptions)
    (cfg : Conf.IETCDConfigurations) (s s1 : State) (propertyName : string) :
  reaches connectionOptions cfg s propertyName s1 →
  etcdEntryName s1 propertyName ∉ unavailable s1 →
  JS.truthy (remoteValue s1 (etcdEntryName s1 propertyName)) = false →
  Conf.flag Conf.genKeys cfg = true →
  isInScope (etcdEntryName s1 propertyName) = false →
  Conf.flag Conf.overrideNotInScope cfg = false →
  (initializeProperty propertyName s1).1 = Normal tt
  ∧ puts (exec (initializeProperty propertyName) s1) = puts s1
  ∧ (∃ new, puts (exec (initialize connectionOptions cfg) s) = (new ++ puts s)%list
            ∧ Forall (λ put, put.1 ≠ etcdEntryName s1 propertyName) new)
  ∧ etcd (exec (initialize connectionOptions cfg) s) !! etcdEntryName s1 propertyName
    = etcd s !! etcdEntryName s1 propertyName
  ∧ (∃ later earlier,
       console (exec (initialize connectionOptions cfg) s)
       = (later
            ++ ConsoleLog
                 [JS.VString
                    "Can not change/push out of scope variables, Property can be changed in driverConfigs"]
                 :: earlier)%list)
  ∧ (∀ v : string,
       firstNonEmpty (candidates s1 propertyName) = Some v →
       ¬ discardedLiteral s1 propertyName ∨ nonEmpty (env_get s1 propertyName) = Some v →
       (Conf.flag Conf.overrideSysObj cfg = true → env_settable propertyName = true →
        nulFree v) →
       readParam (exec (initialize connectionOptions cfg) s) propertyName = JS.VString v).
Proof.
  intros Hreach Hav Hfalsy Hgen Hscope Hoverride.
  destruct (reaches_static _ _ _ _ _ Hreach) as (Hcfg & _).
  destruct (flags_merged s cfg) as (Hg & _ & Ho).
  assert (pushing s1 propertyName = false) as Hpush.
  { unfold pushing. by rewrite Hcfg, Ho, Hoverride, Hscope, andb_false_r. }
  split; [|split; [|split; [|split; [|split]]]].
  - rewrite outcome_initializeProperty by done. by rewrite Hpush.
  - destruct (puts_step propertyName s1) as [->|[? _]]; [done|congruence].
  - by apply initialize_guarded_key.
  - by apply initialize_guarded_key.
  - destruct (initialize_turn_console _ _ _ _ _ Hreach) as (later & ->).
    exists later. unfold exec. rewrite initializeProperty_run. cbv zeta.
    destruct (decide _) as [?|_]; [done|].
    unfold generateMissing. rewrite !flag_watched_resolved, Hfalsy, Hcfg, Hg, Hgen, Ho,
      Hoverride, Hscope.
    cbn [negb andb orb]. unfold console_log, modify. cbn [snd console set_console]. eauto.
  - intros v Hv Hkept Hnul. rewrite (initialize_turn_read _ _ _ _ s1) by done.
    apply effectiveValue_firstNonEmpty; [done| |].
    + intros Hdiscarded. destruct Hkept as [Hkept|Hkept]; [done|].
      cbn [firstNonEmpty]. rewrite Hkept. by destruct (nonEmpty (remoteValue _ _)).
    + intros _. rewrite Hcfg, mirror_merged. exact Hnul.
Qed.

Lemma out_of_scope_generation_skipped_witness :
  (∃ new, puts (exec (initialize "localhost:2379" (mongodbManifest "mongodb_uri" profileConfigs))
                  (fresh {[ "MONGODB_URI" := "mongodb://ambient" ]} ∅)) = (new ++ [])%list
          ∧ Forall (λ put, put.1 ≠ "mongodb_uri") new)
  ∧ readParam
      (exec (initialize "localhost:2379" (mongodbManifest "mongodb_uri" profileConfigs))
         (fresh {[ "MONGODB_URI" := "mongodb://ambient" ]} ∅)) "MONGODB_URI"
    = JS.VString "mongodb://ambient".
Proof.
  destruct (out_of_scope_generation_skipped "localhost:2379"
              (mongodbManifest "mongodb_uri" profileConfigs)
              (fresh {[ "MONGODB_URI" := "mongodb://ambient" ]} ∅)
              (prepared "localhost:2379" (mongodbManifest "mongodb_uri" profileConfigs)
                 (fresh {[ "MONGODB_URI" := "mongodb://ambient" ]} ∅))
              "MONGODB_URI") as (_ & _ & Hputs & _ & _ & Hlocal).
  - by apply (reaches_first _ _ _ _ []); [| |apply not_elem_of_nil].
  - apply not_elem_of_empty.
  - reflexivity.
  - reflexivity.
  - reflexivity.
  - reflexivity.
  - split; [exact Hputs|]. apply Hlocal; [reflexivity|by left|reflexivity].
Defined.

(** ** C9: a property definition as its own literal default *)

Lemma pushedValue_mirror s name :
  Conf.flag Conf.overrideSysObj (proccesedConfigurations s) = true →
  env_settable name = true →
  pushedValue s name
  = JS.VString (cstring (JS.to_String
                           (fallback (remoteValue s (etcdEntryName s name)) s name))).
Proof.
  intros Hm Hset. unfold pushedValue, env_get. rewrite process_env_mirrored, Hm, Hset.
  cbn [andb]. by rewrite lookup_insert_eq.
Qed.

(** C9, as stated, does not hold for the pushed value: with key
    generation on and mirroring off, the put call carries what
    [process.env] holds for the parameter, here [undefined], and not the
    resolved string; the client refuses it and nothing is written. Nor
    does it hold for the mirrored value under a name the environment
    refuses: nothing is mirrored, and the put call carries [undefined]
    again. *)
Lemma object_definition_literal_default_counterexample :
  let s' := exec (initialize "localhost:2379"
                    (mongodbManifest "/profile/prod/mongodb_uri" profileConfigsNoMirror))
              (fresh ∅ ∅) in
  let refused := exec (initialize "localhost:2379"
                         (definitionManifest "A=B" "/profile/prod/ab" None profileConfigs))
                   (fresh ∅ ∅) in
  (Conf.flag Conf.genKeys (mongodbManifest "/profile/prod/mongodb_uri" profileConfigsNoMirror)
     = true
   ∧ readParam s' "MONGODB_URI" = JS.VString "[object Object]"
   ∧ puts s' = [("/profile/prod/mongodb_uri", JS.VUndefined)]
   ∧ etcd s' !! "/profile/prod/mongodb_uri" = None)
  ∧ (Conf.flag Conf.overrideSysObj (definitionManifest "A=B" "/profile/prod/ab" None profileConfigs)
       = true
     ∧ readParam refused "A=B" = JS.VString "[object Object]"
     ∧ process_env refused !! "A=B" = None
     ∧ puts refused = [("/profile/prod/ab", JS.VUndefined)]).
Proof. repeat split; vm_compute; reflexivity. Qed.

(** C9 (amended): for a manifest entry that is a property definition
    object, the last step of the chain is the string ["[object Object]"].
    So when the loop reaches the entry, the coordination service has no
    value, the ambient environment has none and [defaultValue] is
    undefined, ["[object Object]"] is the value [initialize] stores in
    [envParams]. With mirroring on (and a name the environment accepts)
    it is also the value of [process.env], and then, with key generation
    on and the write allowed, the value of the put call that the call
    records. With mirroring off the put call carries [undefined] instead.
    Conversely, for a bare string ["[object Object]"] in the same
    situation nothing is resolved: [envParams] holds [undefined] or, when
    the value is mirrored, the string ["undefined"]. *)
Theorem object_definition_literal_default (connectionOptions : IETCDOptions)
    (cfg : Conf.IETCDConfigurations) (s s1 : State) (propertyName : string) :
  reaches connectionOptions cfg s propertyName s1 →
  etcdEntryName s1 propertyName ∉ unavailable s1 →
  etcd s1 !! etcdEntryName s1 propertyName = None →
  process_env s1 !! propertyName = None →
  (∀ d : Conf.IETCDPropertyDefenition,
     Conf.lookup propertyName (Conf.envParams cfg) = Some (Conf.Definition_ d) →
     Conf.defaultValue d = None →
     strDefaultVal s1 propertyName = JS.VString "[object Object]"
     ∧ readParam (exec (initialize connectionOptions cfg) s) propertyName
       = JS.VString "[object Object]"
     ∧ (Conf.flag Conf.overrideSysObj cfg = true → env_settable propertyName = true →
        process_env (exec (initialize connectionOptions cfg) s) !! propertyName
          = Some "[object Object]"
        ∧ (Conf.flag Conf.genKeys cfg = true →
           Conf.flag Conf.overrideNotInScope cfg = true
           ∨ isInScope (etcdEntryName s1 propertyName) = true →
           ∃ later, puts (exec (initialize connectionOptions cfg) s)
                    = (later ++ (etcdEntryName s1 propertyName, JS.VString "[object Object]")
                                  :: puts s1)%list))
     ∧ (Conf.flag Conf.overrideSysObj cfg = false →
        Conf.flag Conf.genKeys cfg = true →
        Conf.flag Conf.overrideNotInScope cfg = true
        ∨ isInScope (etcdEntryName s1 propertyName) = true →
        ∃ later, puts (exec (initialize connectionOptions cfg) s)
                 = (later ++ (etcdEntryName s1 propertyName, JS.VUndefined) :: puts s1)%list))
  ∧ (Conf.lookup propertyName (Conf.envParams cfg) = Some (Conf.Literal "[object Object]") →
     readParam (exec (initialize connectionOptions cfg) s) propertyName
     = if Conf.flag Conf.overrideSysObj cfg && env_settable propertyName
       then JS.VString "undefined" else JS.VUndefined).
Proof.
  intros Hreach Hav Hremote Hambient.
  destruct (reaches_static _ _ _ _ _ Hreach) as (Hcfg & _).
  destruct (flags_merged s cfg) as (Hg & _ & Ho).
  pose proof (mirror_merged s cfg) as Hm.
  destruct (initialize_turn _ _ _ _ _ Hreach) as (_ & Henv & later & Hputs).
  assert (Conf.envParams (proccesedConfigurations s1) = Conf.envParams cfg) as Hmanifest
    by by rewrite Hcfg.
  assert (JS.truthy (remoteValue s1 (etcdEntryName s1 propertyName)) = false) as Hfalsy
    by (unfold remoteValue; by rewrite Hremote).
  split.
  - intros d Hlookup Hdefault.
    assert (strDefaultVal s1 propertyName = JS.VString "[object Object]") as Hlit
      by (unfold strDefaultVal; by rewrite Hmanifest, Hlookup).
    assert (fallback (remoteValue s1 (etcdEntryName s1 propertyName)) s1 propertyName
            = JS.VString "[object Object]") as Hchain.
    { unfold fallback, remoteValue, env_get, settingDefault, getPropertySetting.
      by rewrite Hremote, Hambient, Hmanifest, Hlookup, Hdefault, Hlit. }
    assert (pushing s1 propertyName
            = Conf.flag Conf.genKeys cfg
              && (Conf.flag Conf.overrideNotInScope cfg
                  || isInScope (etcdEntryName s1 propertyName))) as Hpushing.
    { unfold pushing. by rewrite Hfalsy, Hcfg, Hg, Ho. }
    split; [exact Hlit|]. split; [|split].
    + rewrite (initialize_turn_read _ _ _ _ s1) by done.
      destruct (Conf.flag Conf.overrideSysObj (proccesedConfigurations s1)) eqn:Hmirror;
        [|by rewrite effectiveValue_plain].
      destruct (env_settable propertyName) eqn:Hset; [|by rewrite effectiveValue_refused].
      rewrite effectiveValue_mirror; by rewrite ?Hchain.
    + intros Hmirror Hset. rewrite <- Hm, <- Hcfg in Hmirror. split.
      * rewrite Henv, process_env_initializeProperty, process_env_mirrored, Hmirror, Hset
          by done.
        cbn [andb]. by rewrite lookup_insert_eq, Hchain.
      * intros Hgen Hallowed. exists later. rewrite Hputs, puts_initializeProperty by done.
        fold (pushing s1 propertyName). fold (pushedValue s1 propertyName).
        rewrite Hpushing, Hgen.
        assert (Conf.flag Conf.overrideNotInScope cfg
                || isInScope (etcdEntryName s1 propertyName) = true) as ->
          by (destruct Hallowed as [->| ->]; by rewrite ?orb_true_r).
        cbn [andb]. by rewrite pushedValue_mirror, Hchain.
    + intros Hmirror Hgen Hallowed. rewrite <- Hm, <- Hcfg in Hmirror.
      exists later. rewrite Hputs, puts_initializeProperty by done.
      fold (pushing s1 propertyName). rewrite Hpushing, Hgen.
      assert (Conf.flag Conf.overrideNotInScope cfg
              || isInScope (etcdEntryName s1 propertyName) = true) as ->
        by (destruct Hallowed as [->| ->]; by rewrite ?orb_true_r).
      cbn [andb]. unfold env_get. rewrite process_env_mirrored, Hmirror. cbn [andb].
      by rewrite Hambient.
  - intros Hlookup. rewrite (initialize_turn_read _ _ _ _ s1) by done.
    assert (fallback (remoteValue s1 (etcdEntryName s1 propertyName)) s1 propertyName
            = JS.VUndefined) as Hchain.
    { unfold fallback, remoteValue, env_get, settingDefault, strDefaultVal, getPropertySetting.
      by rewrite Hremote, Hambient, Hmanifest, Hlookup. }
    rewrite <- Hm, <- Hcfg.
    destruct (Conf.flag Conf.overrideSysObj (proccesedConfigurations s1)) eqn:Hmirror;
      [|by rewrite effectiveValue_plain].
    destruct (env_settable propertyName) eqn:Hset; [|by rewrite effectiveValue_refused].
    rewrite effectiveValue_mirror; by rewrite ?Hchain.
Qed.

Lemma object_definition_literal_default_witness :
  readParam
    (exec (initialize "localhost:2379"
             (mongodbManifest "/profile/prod/mongodb_uri" profileConfigs)) (fresh ∅ ∅))
    "MONGODB_URI" = JS.VString "[object Object]"
  ∧ ∃ later,
      puts
        (exec (initialize "localhost:2379"
                 (mongodbManifest "/profile/prod/mongodb_uri" profileConfigs)) (fresh ∅ ∅))
      = (later ++ [("/profile/prod/mongodb_uri", JS.VString "[object Object]")])%list.
Proof.
  destruct (object_definition_literal_default "localhost:2379"
              (mongodbManifest "/profile/prod/mongodb_uri" profileConfigs) (fresh ∅ ∅)
              (prepared "localhost:2379"
                 (mongodbManifest "/profile/prod/mongodb_uri" profileConfigs) (fresh ∅ ∅))
              "MONGODB_URI") as (Hobject & _).
  - by apply (reaches_first _ _ _ _ []); [| |apply not_elem_of_nil].
  - apply not_elem_of_empty.
  - reflexivity.
  - reflexivity.
  - destruct (Hobject {| Conf.etcdPath := Some "/profile/prod/mongodb_uri";
                         Conf.defaultValue := None |} eq_refl eq_refl)
      as (_ & Hstored & Hmirror & _).
    split; [exact Hstored|].
    destruct (Hmirror eq_refl eq_refl) as (_ & Hpushed).
    apply Hpushed; [reflexivity|by right].
Defined.

(** ** C8: calling [initialize] twice *)

(** C8 at a failing input: the manifest [{ P: '' }] with mirroring and key
    generation on, an empty key space and an empty environment. The first
    call generates the key ["/svc/P"], with the empty value. The service
    then holds every generated key, and the second call, which resolves
    the same parameters, puts to the existing key once more: line 187
    tests the value it read, not whether the key exists. *)
Theorem initialize_twice_repeats_put :
  let s1 := exec (initialize "localhost:2379" emptyDefaultManifest) (fresh ∅ ∅) in
  let s2 := exec (initialize "localhost:2379" emptyDefaultManifest) s1 in
  puts s1 = [("/svc/P", JS.VString "")]
  ∧ etcd s1 !! "/svc/P" = Some ""
  ∧ Forall (λ name, holdsKey s1 (etcdEntryName s1 name))
      (Conf.keys (Conf.envParams emptyDefaultManifest))
  ∧ envParams s2 = envParams s1
  ∧ etcd s2 = etcd s1
  ∧ puts s2 = [("/svc/P", JS.VString ""); ("/svc/P", JS.VString "")]
  ∧ puts s2 ≠ puts s1.
Proof.
  cbv zeta. split; [by vm_compute|]. split; [by vm_compute|]. split.
  { repeat constructor; [apply not_elem_of_empty|]. eexists. vm_compute. reflexivity. }
  split; [by vm_compute|]. split; [by vm_compute|]. split; [by vm_compute|].
  intros Hputs. vm_compute in Hputs. discriminate.
Qed.

(** ** Watches exist in initialized drivers only *)

Lemma proccesedConfigurations_notify i ev s :
  proccesedConfigurations (exec (notify i ev) s) = proccesedConfigurations s.
Proof.
  unfold exec, notify, bind, gets. simpl.
  destruct (watchers s !! i) as [w|]; [|done]. destruct (wactive w); [|done].
  destruct ev as [val|].
  - unfold on_put, updateEnv, console_log, env_set, bind, gets, modify, when, throw. simpl.
    destruct (Conf.driverConfigs (proccesedConfigurations s)) as [d|]; [|done].
    destruct (Conf.overrideSysObj d); simpl;
      destruct (env_settable (wprop w)); simpl; by destruct (envParams s).
  - unfold on_delete, cancel, env_delete, console_log, bind, gets, modify, when. simpl.
    destruct (envParams s); simpl; by destruct (Conf.flag _ _).
Qed.

Lemma envParams_notify i ev s :
  is_Some (envParams s) → is_Some (envParams (exec (notify i ev) s)).
Proof.
  intros [m Hm]. unfold exec, notify, bind, gets. simpl.
  destruct (watchers s !! i) as [w|]; [|simpl; rewrite Hm; eauto].
  destruct (wactive w); [|simpl; rewrite Hm; eauto].
  destruct ev as [val|].
  - unfold on_put, updateEnv, console_log, env_set, bind, gets, modify, when, throw. simpl.
    destruct (Conf.driverConfigs (proccesedConfigurations s)) as [d|]; simpl;
      [|rewrite Hm; eauto].
    destruct (Conf.overrideSysObj d); simpl;
      destruct (env_settable (wprop w)); simpl; rewrite Hm; simpl; eauto.
  - unfold on_delete, cancel, env_delete, console_log, bind, gets, modify, when. simpl.
    rewrite Hm. simpl. destruct (Conf.flag _ _); simpl; eauto.
Qed.

(** An acknowledgement touches the subscriptions only, and keeps their
    number. *)
Lemma acknowledge_fields i s :
  proccesedConfigurations (exec (acknowledge i) s) = proccesedConfigurations s
  ∧ envParams (exec (acknowledge i) s) = envParams s
  ∧ process_env (exec (acknowledge i) s) = process_env s
  ∧ etcd (exec (acknowledge i) s) = etcd s
  ∧ puts (exec (acknowledge i) s) = puts s
  ∧ length (watchers (exec (acknowledge i) s)) = length (watchers s).
Proof.
  unfold exec, acknowledge, modify. simpl. repeat split. apply length_alter.
Qed.

Lemma watchers_notify i ev s :
  watchers (exec (notify i ev) s) ≠ [] → watchers s ≠ [].
Proof.
  unfold exec, notify, bind, gets. simpl.
  destruct (watchers s !! i) as [w|] eqn:Hw; [|done].
  intros _ Hnil. by rewrite Hnil in Hw.
Qed.

Lemma watchers_initializeProperty name s :
  watchers (exec (initializeProperty name) s) ≠ [] →
  watchers s ≠ [] ∨ is_Some (envParams (exec (initializeProperty name) s)).
Proof.
  destruct (decide (etcdEntryName s name ∈ unavailable s)) as [Hav|Hav].
  - unfold exec. rewrite initializeProperty_unavailable by done. by left.
  - intros _. right. rewrite envParams_initializeProperty by done. eauto.
Qed.

Lemma envParams_initializeProperty_Some name s :
  is_Some (envParams s) → is_Some (envParams (exec (initializeProperty name) s)).
Proof.
  intros Hsome. destruct (decide (etcdEntryName s name ∈ unavailable s)) as [Hav|Hav].
  - unfold exec. by rewrite initializeProperty_unavailable.
  - rewrite envParams_initializeProperty by done. eauto.
Qed.

Lemma for_of_watchers names s :
  (watchers s ≠ [] → is_Some (envParams s)) →
  watchers (exec (for_of names initializeProperty) s) ≠ [] →
  is_Some (envParams (exec (for_of names initializeProperty) s)).
Proof.
  revert s. induction names as [|name rest IH]; intros s Hinv; [exact Hinv|].
  pose proof (watchers_initializeProperty name s) as Hws.
  pose proof (envParams_initializeProperty_Some name s) as Hsome.
  unfold exec in *. rewrite for_of_cons.
  destruct (initializeProperty name s) as [[[]|e] s1]; cbn [fst snd] in *.
  - apply IH. intros Hne. destruct (Hws Hne) as [Hold|Hnew]; auto.
  - intros Hne. destruct (Hws Hne) as [Hold|Hnew]; auto.
Qed.

Lemma for_of_static names s :
  proccesedConfigurations (exec (for_of names initializeProperty) s)
  = proccesedConfigurations s.
Proof.
  revert s. induction names as [|name rest IH]; intros s; [done|].
  destruct (static_initializeProperty name s) as (Hc & _).
  unfold exec in *. rewrite for_of_cons.
  destruct (initializeProperty name s) as [[[]|e] s1]; cbn [fst snd] in *; [|done].
  by rewrite IH.
Qed.

Lemma reachable_initialized s :
  reachable s → watchers s ≠ [] → initialized s.
Proof.
  induction 1 as [env kv|connectionOptions cfg s Hs IH|i ev s Hs IH|i s Hs IH
                  |env kv down s Hs IH].
  - done.
  - destruct (prepared_fields connectionOptions cfg s)
      as (Hc & Hp & _ & _ & _ & _ & Hws & _).
    assert (watchers (prepared connectionOptions cfg s) ≠ [] →
            is_Some (envParams (prepared connectionOptions cfg s))) as Hprepared.
    { rewrite Hws, Hp. intros Hne. by destruct (IH Hne). }
    pose proof (for_of_static (Conf.keys (Conf.envParams cfg))
                  (prepared connectionOptions cfg s)) as Hstatic.
    pose proof (for_of_watchers (Conf.keys (Conf.envParams cfg))
                  (prepared connectionOptions cfg s) Hprepared) as Hloop.
    unfold exec in *. rewrite initialize_run. cbv zeta.
    assert (is_Some (Conf.driverConfigs (overrideDefaultConfigs s cfg))) as Hcfg
      by (unfold overrideDefaultConfigs; simpl; eauto).
    destruct (negb _); [|destruct (bool_decide _)].
    + unfold caught. cbn [snd watchers set_console]. intros Hne.
      split; cbn [proccesedConfigurations envParams set_console].
      * by rewrite Hc.
      * by apply Hprepared.
    + unfold caught. cbn [snd watchers set_console]. intros Hne.
      split; cbn [proccesedConfigurations envParams set_console].
      * by rewrite Hc.
      * by apply Hprepared.
    + rewrite try_catch_run.
      destruct (for_of _ _ _) as [[[]|e] s1]; cbn [fst snd] in *; intros Hne;
        (split; [simpl; by rewrite Hstatic, Hc|by apply Hloop]).
  - intros Hne. apply watchers_notify in Hne. destruct (IH Hne) as [Hcfg Hparams].
    split; [by rewrite proccesedConfigurations_notify|by apply envParams_notify].
  - destruct (acknowledge_fields i s) as (Hc & Hp & _ & _ & _ & Hlen).
    intros Hne. unfold initialized. rewrite Hc, Hp. apply IH.
    intros Hnil. rewrite Hnil in Hlen. by destruct (watchers (exec (acknowledge i) s)).
  - exact IH.
Qed.

(** ** Watch notifications *)

Lemma notify_put s i w val d m :
  watchers s !! i = Some w → wactive w = true →
  Conf.driverConfigs (proccesedConfigurations s) = Some d →
  envParams s = Some m →
  (notify i (EvPut val) s).1 = Normal tt
  ∧ envParams (exec (notify i (EvPut val)) s) = Some (<[wprop w := JS.VString val]> m)
  ∧ process_env (exec (notify i (EvPut val)) s)
    = (if Conf.overrideSysObj d && env_settable (wprop w)
       then <[wprop w := cstring val]> (process_env s) else process_env s)
  ∧ etcd (exec (notify i (EvPut val)) s) = etcd s
  ∧ puts (exec (notify i (EvPut val)) s) = puts s
  ∧ watchers (exec (notify i (EvPut val)) s) = watchers s.
Proof.
  intros Hw Hactive Hd Hm.
  unfold exec, notify, bind, gets. simpl. rewrite Hw, Hactive.
  unfold on_put, updateEnv, console_log, env_set, bind, gets, modify, when. simpl.
  rewrite Hd. destruct (Conf.overrideSysObj d); simpl;
    destruct (env_settable (wprop w)); simpl; rewrite Hm; simpl; repeat split.
Qed.

Lemma notify_delete s i w :
  watchers s !! i = Some w → wactive w = true →
  (notify i EvDelete s).1 = Normal tt
  ∧ envParams (exec (notify i EvDelete) s) = delete (wprop w) <$> envParams s
  ∧ process_env (exec (notify i EvDelete) s)
    = (if Conf.flag Conf.overrideSysObj (proccesedConfigurations s)
       then delete (wprop w) (process_env s) else process_env s)
  ∧ etcd (exec (notify i EvDelete) s) = etcd s
  ∧ puts (exec (notify i EvDelete) s) = puts s
  ∧ watchers (exec (notify i EvDelete) s)
    = alter (λ w, {| wkey := wkey w; wprop := wprop w;
                     wactive := wactive w; wcancelling := true |}) i (watchers s).
Proof.
  intros Hw Hactive.
  unfold exec, notify, bind, gets. simpl. rewrite Hw, Hactive.
  unfold on_delete, cancel, env_delete, console_log, bind, gets, modify, when. simpl.
  destruct (envParams s) as [m|] eqn:Hm; simpl;
    destruct (Conf.flag Conf.overrideSysObj (proccesedConfigurations s)); simpl;
    rewrite ?Hm; repeat split.
Qed.

(** A subscription whose cancellation was acknowledged is inert. *)
Lemma notify_cancelled s i w ev :
  watchers s !! i = Some w → wactive w = false → notify i ev s = (Normal tt, s).
Proof.
  intros Hw Hactive. unfold notify, bind, gets. simpl. by rewrite Hw, Hactive.
Qed.

Lemma watching_reachable : reachable watching.
Proof. apply reachable_initialize, reachable_fresh. Qed.

(** After the delete notification the cancellation is requested, not yet
    in force. *)
Lemma notify_delete_cancelling s i w :
  watchers s !! i = Some w → wactive w = true →
  watchers (exec (notify i EvDelete) s) !! i
  = Some {| wkey := wkey w; wprop := wprop w; wactive := true; wcancelling := true |}.
Proof.
  intros Hw Hactive.
  destruct (notify_delete s i w Hw Hactive) as (_ & _ & _ & _ & _ & ->).
  by rewrite list_lookup_alter_eq, Hw, <- Hactive.
Qed.

Lemma acknowledge_cancelling s i w :
  watchers s !! i = Some w → wcancelling w = true →
  watchers (exec (acknowledge i) s) !! i
  = Some {| wkey := wkey w; wprop := wprop w; wactive := false; wcancelling := false |}.
Proof.
  intros Hw Hcancelling. unfold exec, acknowledge, modify. cbn [snd watchers set_watchers].
  rewrite list_lookup_alter_eq, Hw. simpl. by rewrite Hcancelling.
Qed.

(** ** C5: what put and delete notifications do *)

(** C5, as stated, does not hold. The delete listener calls
    [watcher.cancel()] last and awaits it; until the coordination service
    has acknowledged the cancellation the subscription is not terminal,
    and a put notification that still arrives writes the entry again. The
    environment, moreover, keeps a new value only up to its first NUL
    character, and keeps nothing under a name it refuses. *)
Lemma watch_notifications_counterexample :
  let deleted := exec (notify 0 EvDelete) watching in
  let refused := exec (initialize "localhost:2379" (refusedNameManifest (watchConfigs "svc")))
                   (fresh ∅ ∅) in
  (readParam deleted "MONGO_URI" = JS.VUndefined
   ∧ readParam (exec (notify 0 (EvPut "mongodb://again")) deleted) "MONGO_URI"
     = JS.VString "mongodb://again"
   ∧ process_env (exec (notify 0 (EvPut "mongodb://again")) deleted) !! "MONGO_URI"
     = Some "mongodb://again")
  ∧ (readParam (exec (notify 0 (EvPut cutValue)) watching) "MONGO_URI" = JS.VString cutValue
     ∧ process_env (exec (notify 0 (EvPut cutValue)) watching) !! "MONGO_URI" = Some "a")
  ∧ (readParam (exec (notify 0 (EvPut "y")) refused) "A=B" = JS.VString "y"
     ∧ process_env (exec (notify 0 (EvPut "y")) refused) !! "A=B" = None).
Proof. repeat split; vm_compute; reflexivity. Qed.

(** C5 (amended): for an active watch feeding a parameter, in any state
    the driver can be in, a put notification overwrites the entry of
    [envParams] with the new value and, when mirroring is on and the
    environment accepts the name, the entry of [process.env] with what the
    environment keeps of it (the new value itself when it has no NUL
    character). A delete notification removes the entry from [envParams]
    and, when mirroring is on, from [process.env], so that the parameter
    reads as absent, and requests the cancellation of the subscription.
    Until the coordination service acknowledges the cancellation a put
    notification that arrives is still applied; once it is acknowledged
    the subscription reacts to nothing any more, and the parameter stays
    absent. No notification ever writes to the coordination service. *)
Theorem watch_notifications (s : State) (i : nat) (w : Watcher) :
  reachable s → watchers s !! i = Some w → wactive w = true →
  (∀ val : string,
     storedParam (exec (notify i (EvPut val)) s) (wprop w) = Some (JS.VString val)
     ∧ readParam (exec (notify i (EvPut val)) s) (wprop w) = JS.VString val
     ∧ (Conf.flag Conf.overrideSysObj (proccesedConfigurations s) = true →
        env_settable (wprop w) = true →
        process_env (exec (notify i (EvPut val)) s) !! wprop w = Some (cstring val)
        ∧ (nulFree val →
           process_env (exec (notify i (EvPut val)) s) !! wprop w = Some val))
     ∧ etcd (exec (notify i (EvPut val)) s) = etcd s
     ∧ puts (exec (notify i (EvPut val)) s) = puts s)
  ∧ storedParam (exec (notify i EvDelete) s) (wprop w) = None
  ∧ readParam (exec (notify i EvDelete) s) (wprop w) = JS.VUndefined
  ∧ (Conf.flag Conf.overrideSysObj (proccesedConfigurations s) = true →
     process_env (exec (notify i EvDelete) s) !! wprop w = None)
  ∧ (∃ w', watchers (exec (notify i EvDelete) s) !! i = Some w'
           ∧ wcancelling w' = true ∧ wactive w' = true)
  ∧ (∀ val : string,
       readParam (exec (notify i (EvPut val)) (exec (notify i EvDelete) s)) (wprop w)
       = JS.VString val)
  ∧ (∀ ev : WatchEvent,
       notify i ev (exec (acknowledge i) (exec (notify i EvDelete) s))
       = (Normal tt, exec (acknowledge i) (exec (notify i EvDelete) s)))
  ∧ readParam (exec (acknowledge i) (exec (notify i EvDelete) s)) (wprop w) = JS.VUndefined
  ∧ etcd (exec (notify i EvDelete) s) = etcd s
  ∧ puts (exec (notify i EvDelete) s) = puts s.
Proof.
  intros Hreach Hw Hactive.
  destruct (reachable_initialized s Hreach) as [[d Hd] [m Hm]];
    [intros Hnil; by rewrite Hnil in Hw|].
  split.
  - intros val.
    destruct (notify_put s i w val d m Hw Hactive Hd Hm) as (_ & Hparams & Henv & Hkv & Hputs & _).
    unfold storedParam, readParam. rewrite Hparams. simpl. rewrite lookup_insert_eq.
    split; [done|]. split; [done|]. split; [|done].
    intros Ho Hset. rewrite Henv. unfold Conf.flag in Ho. rewrite Hd in Ho.
    rewrite Ho, Hset. cbn [andb]. rewrite lookup_insert_eq.
    split; [done|]. intros Hnul. by rewrite Hnul.
  - destruct (notify_delete s i w Hw Hactive) as (_ & Hparams & Henv & Hkv & Hputs & Hws).
    pose proof (notify_delete_cancelling s i w Hw Hactive) as Hcancelling.
    set (deleted := exec (notify i EvDelete) s) in *.
    assert (storedParam deleted (wprop w) = None) as Hgone.
    { unfold storedParam. rewrite Hparams, Hm. simpl. apply lookup_delete_eq. }
    split; [exact Hgone|]. split; [by rewrite readParam_storedParam, Hgone|].
    split; [intros Ho; rewrite Henv, Ho; apply lookup_delete_eq|].
    split; [eauto|]. split; [|split; [|split]].
    + intros val.
      assert (reachable deleted) as Hreach' by by apply reachable_notify.
      destruct (reachable_initialized deleted Hreach') as [[d' Hd'] [m' Hm']];
        [intros Hnil; by rewrite Hnil in Hcancelling|].
      destruct (notify_put deleted i _ val d' m' Hcancelling eq_refl Hd' Hm')
        as (_ & Hparams' & _).
      unfold readParam. rewrite Hparams'. cbn [wprop]. by rewrite lookup_insert_eq.
    + intros ev. eapply notify_cancelled; [by apply acknowledge_cancelling|done].
    + rewrite readParam_storedParam. unfold storedParam.
      destruct (acknowledge_fields i deleted) as (_ & -> & _).
      fold (storedParam deleted (wprop w)). by rewrite Hgone.
    + done.
Qed.

Lemma watch_notifications_witness :
  readParam (exec (notify 0 (EvPut "mongodb://other")) watching) "MONGO_URI"
    = JS.VString "mongodb://other"
  ∧ process_env (exec (notify 0 (EvPut "mongodb://other")) watching) !! "MONGO_URI"
    = Some "mongodb://other"
  ∧ readParam (exec (notify 0 EvDelete) watching) "MONGO_URI" = JS.VUndefined
  ∧ process_env (exec (notify 0 EvDelete) watching) !! "MONGO_URI" = None.
Proof.
  destruct (watch_notifications watching 0 mongoWatcher)
    as (Hput & _ & Hread & Henv & _);
    [exact watching_reachable|vm_compute; reflexivity|reflexivity|].
  destruct (Hput "mongodb://other") as (_ & Hread' & Henv' & _).
  split; [exact Hread'|].
  split; [apply Henv'; [vm_compute; reflexivity|reflexivity|reflexivity]|].
  split; [exact Hread|]. apply Henv. vm_compute; reflexivity.
Defined.

(** ** C10: the mirror agrees with the store *)

(** The chain returns one of its operands. *)
Lemma fallback_operand s name :
  fallback (remoteValue s (etcdEntryName s name)) s name ∈ operands s name.
Proof.
  unfold fallback, operands, JS.or.
  repeat (match goal with |- context [JS.truthy ?v] => destruct (JS.truthy v) end);
    set_solver.
Qed.

(** C10, as stated, does not hold: the environment keeps a value only up
    to its first NUL character, while [envParams] keeps it whole, and it
    keeps nothing under a name it refuses. So the two differ after the
    resolution of a remote value with a NUL in it, after a put
    notification with such a value, and after the resolution of a
    parameter named ['A=B']. *)
Lemma mirror_agreement_counterexample :
  let resolved := exec (initialize "localhost:2379" (mongoManifest (watchConfigs "svc")))
                    (fresh ∅ {[ "/svc/MONGO_URI" := cutValue ]}) in
  let refused := exec (initialize "localhost:2379" (refusedNameManifest (watchConfigs "svc")))
                   (fresh ∅ ∅) in
  Conf.flag Conf.overrideSysObj (mongoManifest (watchConfigs "svc")) = true
  ∧ (storedParam resolved "MONGO_URI" = Some (JS.VString cutValue)
     ∧ process_env resolved !! "MONGO_URI" = Some "a")
  ∧ (storedParam (exec (notify 0 (EvPut cutValue)) watching) "MONGO_URI"
       = Some (JS.VString cutValue)
     ∧ process_env (exec (notify 0 (EvPut cutValue)) watching) !! "MONGO_URI" = Some "a")
  ∧ (storedParam refused "A=B" = Some (JS.VString "x")
     ∧ process_env refused !! "A=B" = None).
Proof. repeat split; vm_compute; reflexivity. Qed.

(** C10 (amended): with mirroring on, for a parameter whose name the
    environment accepts and values without NUL character, the entry of
    [envParams] and the entry of [process.env] agree after each operation
    on the parameter: after its resolution by [initialize] (the loop
    reaching it and the coordination service answering) and after a put
    notification both hold the same string. After a delete notification
    both are absent, whatever the name. *)
Theorem mirror_agreement (s : State) :
  (∀ (connectionOptions : IETCDOptions) (cfg : Conf.IETCDConfigurations)
     (propertyName : string) (s1 : State),
     reaches connectionOptions cfg s propertyName s1 →
     Conf.flag Conf.overrideSysObj cfg = true →
     etcdEntryName s1 propertyName ∉ unavailable s1 →
     env_settable propertyName = true →
     Forall (λ operand, nulFree (JS.to_String operand)) (operands s1 propertyName) →
     ∃ v : string,
       process_env (exec (initialize connectionOptions cfg) s) !! propertyName = Some v
       ∧ storedParam (exec (initialize connectionOptions cfg) s) propertyName
         = Some (JS.VString v))
  ∧ (∀ (i : nat) (w : Watcher) (val : string),
       reachable s →
       Conf.flag Conf.overrideSysObj (proccesedConfigurations s) = true →
       watchers s !! i = Some w → wactive w = true →
       env_settable (wprop w) = true → nulFree val →
       process_env (exec (notify i (EvPut val)) s) !! wprop w = Some val
       ∧ storedParam (exec (notify i (EvPut val)) s) (wprop w) = Some (JS.VString val))
  ∧ (∀ (i : nat) (w : Watcher),
       Conf.flag Conf.overrideSysObj (proccesedConfigurations s) = true →
       watchers s !! i = Some w → wactive w = true →
       process_env (exec (notify i EvDelete) s) !! wprop w = None
       ∧ storedParam (exec (notify i EvDelete) s) (wprop w) = None).
Proof.
  split; [|split].
  - intros connectionOptions cfg name s1 Hreach Hmirror Hav Hset Hnul.
    destruct (reaches_static _ _ _ _ _ Hreach) as (Hcfg & _).
    destruct (initialize_turn _ _ _ _ _ Hreach) as (-> & -> & _).
    rewrite <- (mirror_merged s cfg), <- Hcfg in Hmirror.
    assert (nulFree (JS.to_String (fallback (remoteValue s1 (etcdEntryName s1 name)) s1 name)))
      as Hkept.
    { rewrite Forall_forall in Hnul. apply Hnul, fallback_operand. }
    exists (JS.to_String (fallback (remoteValue s1 (etcdEntryName s1 name)) s1 name)).
    unfold storedParam.
    rewrite process_env_initializeProperty, envParams_initializeProperty by done.
    rewrite process_env_mirrored, Hmirror, Hset. cbn [andb mbind option_bind].
    rewrite !lookup_insert_eq, Hkept. by rewrite effectiveValue_mirror.
  - intros i w val Hreach Ho Hw Hactive Hset Hnul.
    destruct (reachable_initialized s Hreach) as [_ [m Hm]];
      [intros Hnil; by rewrite Hnil in Hw|].
    assert (∃ d, Conf.driverConfigs (proccesedConfigurations s) = Some d
                 ∧ Conf.overrideSysObj d = true) as (d & Hd & Hod).
    { unfold Conf.flag in Ho. destruct (Conf.driverConfigs _) as [d|]; [eauto|done]. }
    destruct (notify_put s i w val d m Hw Hactive Hd Hm) as (_ & Hparams & Henv & _).
    unfold storedParam. rewrite Hparams, Henv, Hod, Hset. simpl.
    by rewrite !lookup_insert_eq, Hnul.
  - intros i w Ho Hw Hactive.
    destruct (notify_delete s i w Hw Hactive) as (_ & Hparams & Henv & _).
    unfold storedParam. rewrite Hparams, Henv, Ho.
    split; [apply lookup_delete_eq|].
    destruct (envParams s) as [m|]; simpl; [apply lookup_delete_eq|done].
Qed.

Lemma mirror_agreement_witness :
  (∃ v : string,
     process_env (exec (initialize "localhost:2379"
                          (mongodbManifest "mongodb_uri" profileConfigs)) (fresh ∅ ∅))
       !! "MONGODB_URI" = Some v
     ∧ storedParam (exec (initialize "localhost:2379"
                            (mongodbManifest "mongodb_uri" profileConfigs)) (fresh ∅ ∅))
         "MONGODB_URI" = Some (JS.VString v))
  ∧ process_env (exec (notify 0 (EvPut "mongodb://other")) watching) !! "MONGO_URI"
    = Some "mongodb://other"
  ∧ storedParam (exec (notify 0 EvDelete) watching) "MONGO_URI" = None.
Proof.
  split; [|split].
  - destruct (mirror_agreement (fresh ∅ ∅)) as (Hresolve & _).
    apply (Hresolve "localhost:2379" (mongodbManifest "mongodb_uri" profileConfigs)
             "MONGODB_URI"
             (prepared "localhost:2379" (mongodbManifest "mongodb_uri" profileConfigs)
                (fresh ∅ ∅))).
    + by apply (reaches_first _ _ _ _ []); [| |apply not_elem_of_nil].
    + reflexivity.
    + apply not_elem_of_empty.
    + reflexivity.
    + by repeat constructor.
  - destruct (mirror_agreement watching) as (_ & Hput & _).
    apply (Hput 0 mongoWatcher "mongodb://other");
      [exact watching_reachable|vm_compute; reflexivity|vm_compute; reflexivity
      |reflexivity|reflexivity|reflexivity].
  - destruct (mirror_agreement watching) as (_ & _ & Hdelete).
    apply (Hdelete 0 mongoWatcher); [vm_compute; reflexivity..|reflexivity].
Defined.

(** * Further properties *)

(** ** [findMyIP] *)

Lemma visitInterfaceInfo_skip alias localIP iface :
  externalIPv4 iface = false →
  visitInterfaceInfo (alias, localIP) iface = (alias, localIP).
Proof.
  unfold visitInterfaceInfo, externalIPv4.
  destruct (String.eqb "IPv4" (family iface)), (internal iface); simpl; done.
Qed.

Lemma visitInterfaceInfo_take alias localIP iface :
  externalIPv4 iface = true →
  visitInterfaceInfo (alias, localIP) iface
  = (S alias, if (alias <? 1)%nat then JS.VString (address iface) else localIP).
Proof.
  unfold visitInterfaceInfo, externalIPv4.
  destruct (String.eqb "IPv4" (family iface)), (internal iface); simpl; done.
Qed.

(** Once an address of the interface is taken, the rest of the interface
    changes nothing. *)
Lemma visit_after_first infos alias localIP :
  (fold_left visitInterfaceInfo infos (S alias, localIP)).2 = localIP.
Proof.
  revert alias. induction infos as [|iface infos IH]; intros alias; [done|].
  cbn [fold_left]. destruct (externalIPv4 iface) eqn:Hext.
  - rewrite visitInterfaceInfo_take by done. apply IH.
  - rewrite visitInterfaceInfo_skip by done. apply IH.
Qed.

Lemma visit_interface infos localIP :
  (fold_left visitInterfaceInfo infos (0, localIP)).2
  = match firstExternal infos with
    | Some a => JS.VString a
    | None => localIP
    end.
Proof.
  unfold firstExternal. induction infos as [|iface infos IH]; [done|].
  cbn [fold_left]. rewrite filter_cons. destruct (externalIPv4 iface) eqn:Hext.
  - rewrite visitInterfaceInfo_take by done. cbn [Nat.ltb Nat.leb].
    rewrite decide_True by done. simpl. apply visit_after_first.
  - rewrite visitInterfaceInfo_skip by done.
    rewrite decide_False by done. exact IH.
Qed.

Lemma findMyIP_from ifaces localIP :
  fold_left
    (λ localIP entry, (fold_left visitInterfaceInfo entry.2 (0, localIP)).2)
    ifaces localIP
  = match lastExternal ifaces with
    | Some a => JS.VString a
    | None => localIP
    end.
Proof.
  revert localIP. induction ifaces as [|entry rest IH]; intros localIP; [done|].
  cbn [fold_left lastExternal]. rewrite IH, visit_interface.
  destruct (lastExternal rest); [done|]. by destruct (firstExternal entry.2).
Qed.

Lemma firstExternal_None infos :
  firstExternal infos = None ↔ Forall (λ iface, externalIPv4 iface = false) infos.
Proof.
  unfold firstExternal. induction infos as [|iface infos IH]; [by split; constructor|].
  rewrite filter_cons, Forall_cons. destruct (externalIPv4 iface) eqn:Hext.
  - rewrite decide_True by done. simpl. split; [done|by intros [? _]].
  - rewrite decide_False by done. rewrite IH. by split; [|intros [_ ?]].
Qed.

Lemma firstExternal_Some infos a :
  firstExternal infos = Some a →
  ∃ iface, iface ∈ infos ∧ externalIPv4 iface = true ∧ address iface = a.
Proof.
  unfold firstExternal. induction infos as [|iface infos IH]; [done|].
  rewrite filter_cons. destruct (externalIPv4 iface) eqn:Hext.
  - rewrite decide_True by done. simpl. intros [= <-].
    exists iface. split; [by left|done].
  - rewrite decide_False by done. intros Hrest.
    destruct (IH Hrest) as (iface' & Hin & Hext' & Ha).
    exists iface'. split; [by right|done].
Qed.

Lemma lastExternal_None ifaces :
  lastExternal ifaces = None ↔
  Forall (λ entry, Forall (λ iface, externalIPv4 iface = false) entry.2) ifaces.
Proof.
  induction ifaces as [|entry rest IH]; [by split; constructor|].
  cbn [lastExternal]. rewrite Forall_cons, <- IH, <- firstExternal_None.
  destruct (lastExternal rest); [|by split; [|intros [? _]]].
  split; [done|by intros [_ ?]].
Qed.

Lemma lastExternal_Some ifaces a :
  lastExternal ifaces = Some a →
  ∃ entry iface,
    entry ∈ ifaces ∧ iface ∈ entry.2 ∧ externalIPv4 iface = true ∧ address iface = a.
Proof.
  induction ifaces as [|entry rest IH]; [done|].
  cbn [lastExternal]. destruct (lastExternal rest) as [b|].
  - intros [= ->]. destruct (IH eq_refl) as (entry' & iface & Hin & Hrest).
    exists entry', iface. split; [by right|done].
  - intros Hfirst. destruct (firstExternal_Some _ _ Hfirst) as (iface & Hin & Hrest).
    exists entry, iface. split; [by left|done].
Qed.

(** X1: [findMyIP] returns the first external IPv4 address of the last
    interface that has one, and [undefined] when no interface has any: the
    interfaces override one another in [Object.keys] order, while within
    an interface only the first external IPv4 address counts. *)
Theorem findMyIP_last_interface_first_alias
    (ifaces : list (string * list NetworkInterfaceInfo)) :
  findMyIP ifaces = JS.of_option (lastExternal ifaces).
Proof.
  unfold findMyIP. rewrite findMyIP_from. by destruct (lastExternal ifaces).
Qed.

(** X2: [findMyIP] returns [undefined] exactly when every address of
    every interface is internal or not IPv4; any string it returns is the
    address of an external IPv4 entry of the table. *)
Theorem findMyIP_undefined_iff (ifaces : list (string * list NetworkInterfaceInfo)) :
  (findMyIP ifaces = JS.VUndefined ↔
   Forall (λ entry, Forall (λ iface, externalIPv4 iface = false) entry.2) ifaces)
  ∧ findMyIP ifaces ≠ JS.VNull
  ∧ (∀ a : string,
       findMyIP ifaces = JS.VString a →
       ∃ entry iface,
         entry ∈ ifaces ∧ iface ∈ entry.2 ∧ externalIPv4 iface = true
         ∧ address iface = a).
Proof.
  unfold findMyIP. rewrite findMyIP_from. rewrite <- lastExternal_None.
  destruct (lastExternal ifaces) as [b|] eqn:Hlast.
  - split; [by split|]. split; [done|].
    intros a [= <-]. by apply lastExternal_Some.
  - by repeat split.
Qed.

Lemma findMyIP_undefined_iff_witness :
  findMyIP
    [("lo", [ {| family := "IPv4"; internal := true; address := "127.0.0.1" |} ]);
     ("eth0", [ {| family := "IPv6"; internal := false; address := "fe80::1" |} ])]
  = JS.VUndefined.
Proof.
  apply findMyIP_undefined_iff.
  repeat (apply Forall_cons; split; [repeat constructor|]). apply Forall_nil_2.
Defined.

(** ** The scope guard, by the slashes of the key *)

(** X3: the verdict of [isInScope] depends on the number of slashes only,
    and on whether the key ends right after the second one: with fewer
    than two slashes (a relative key such as [mongodb_uri]) a key is out
    of scope, with three or more it is in scope, and with exactly two it
    is in scope exactly when its last segment is not empty. *)
Theorem isInScope_by_slashes (keyName : string) :
  (occurrences "/" keyName < 2 → isInScope keyName = false)
  ∧ (occurrences "/" keyName = 2 →
     isInScope keyName = negb (String.eqb (List.last (JS.split "/" keyName) "") ""))
  ∧ (3 <= occurrences "/" keyName → isInScope keyName = true).
Proof.
  unfold isInScope. rewrite length_split.
  split; [|split]; intros Hn.
  - destruct (occurrences "/" keyName) as [|[|n]]; [done..|lia].
  - rewrite Hn. simpl. by destruct (negb _).
  - destruct (occurrences "/" keyName) as [|[|[|n]]]; [lia..|].
    by destruct n.
Qed.

Lemma isInScope_by_slashes_witness :
  isInScope "mongodb_uri" = false
  ∧ isInScope "/profile/" = false
  ∧ isInScope "/a/b/c/" = true.
Proof.
  split; [|split].
  - apply isInScope_by_slashes. vm_compute. lia.
  - destruct (isInScope_by_slashes "/profile/") as (_ & Htwo & _).
    rewrite Htwo; reflexivity.
  - apply isInScope_by_slashes. vm_compute. lia.
Defined.

(** X4: the scope guard never looks at the directory name: replacing the
    first segment of a key by any other slash-free segment does not change
    the verdict, so a key under another service's directory is as much in
    scope as one under the service's own. *)
Theorem isInScope_ignores_directory (dir dir' rest : string) :
  occurrences "/" dir = 0 → occurrences "/" dir' = 0 →
  isInScope ("/" ++ dir ++ "/" ++ rest) = isInScope ("/" ++ dir' ++ "/" ++ rest).
Proof.
  intros Hdir Hdir'.
  assert (∀ d, occurrences "/" d = 0 →
            (isInScope ("/" ++ d ++ "/" ++ rest) = true ↔
             1 <= occurrences "/" rest
             ∨ (occurrences "/" rest = 0 ∧ List.last (JS.split "/" rest) "" ≠ ""))) as Hchar.
  { intros d Hd. rewrite isInScope_spec.
    change ("/" ++ d ++ "/" ++ rest) with ("" ++ String "/" (d ++ String "/" rest)).
    rewrite !last_split_app.
    change ("" ++ String "/" (d ++ String "/" rest)) with (String "/" (d ++ String "/" rest)).
    cbn [occurrences]. rewrite occurrences_app. cbn [occurrences]. rewrite Hd.
    simpl. split; (intros [H|[H H']]; [left; lia|right; split; [lia|done]]). }
  apply eq_true_iff_eq. by rewrite !Hchar.
Qed.

Lemma isInScope_ignores_directory_witness :
  isInScope ("/" ++ "profile" ++ "/" ++ "prod/MONGODB_URI")
  = isInScope ("/" ++ "chat" ++ "/" ++ "prod/MONGODB_URI").
Proof. apply isInScope_ignores_directory; reflexivity. Defined.

(** ** The client and the options *)

(** X5: a client is built once: [createClient] on a driver that has a
    client, also one it has just built, changes nothing and logs nothing,
    whatever connection options it is given; the first options stay. *)
Theorem createClient_once (connectionOptions otherOptions : IETCDOptions) (s : State) :
  is_Some (client (exec (createClient connectionOptions) s))
  ∧ createClient otherOptions (exec (createClient connectionOptions) s)
    = (Normal tt, exec (createClient connectionOptions) s)
  ∧ (client s = None →
     client (exec (createClient connectionOptions) s) = Some connectionOptions)
  ∧ (is_Some (client s) → createClient otherOptions s = (Normal tt, s)).
Proof.
  unfold exec, createClient, console_log, bind, gets, modify.
  destruct (client s) as [c|] eqn:Hc; simpl; rewrite ?Hc; simpl.
  - split; [eauto|]. split; [done|]. split; [done|]. done.
  - split; [eauto|]. split; [done|]. split; [done|]. by intros [? ?].
Qed.

Lemma createClient_once_witness :
  client (exec (createClient "etcd-a:2379") (fresh ∅ ∅)) = Some "etcd-a:2379"
  ∧ createClient "etcd-b:2379" (exec (createClient "etcd-a:2379") (fresh ∅ ∅))
    = (Normal tt, exec (createClient "etcd-a:2379") (fresh ∅ ∅)).
Proof.
  destruct (createClient_once "etcd-a:2379" "etcd-b:2379" (fresh ∅ ∅))
    as (_ & Hsecond & Hfirst & _).
  split; [apply Hfirst; reflexivity|exact Hsecond].
Defined.

(** X6: merging the caller's options with the defaults keeps the manifest
    and the flags of the caller and is idempotent. The directory name is
    the caller's whenever the caller's [driverConfigs] has a [dirname]
    property, whatever it holds: a property holding [undefined] hides the
    name captured from [ETCD_SERVICE_NAME]. Without such a property, or
    without [driverConfigs], the captured name is taken. *)
Theorem overrideDefaultConfigs_merge (s : State) (customConfigs : Conf.IETCDConfigurations) :
  overrideDefaultConfigs s (overrideDefaultConfigs s customConfigs)
    = overrideDefaultConfigs s customConfigs
  ∧ Conf.envParams (overrideDefaultConfigs s customConfigs) = Conf.envParams customConfigs
  ∧ (∀ f, f ∈ [Conf.genKeys; Conf.overrideSysObj; Conf.watchKeys;
               Conf.overrideNotInScope; Conf.genEnvDirectories] →
          Conf.flag f (overrideDefaultConfigs s customConfigs) = Conf.flag f customConfigs)
  ∧ (∀ c v, Conf.driverConfigs customConfigs = Some c → Conf.dirname c = Some v →
            Conf.dir (overrideDefaultConfigs s customConfigs) = v)
  ∧ (Conf.driverConfigs customConfigs = None
     ∨ (∃ c, Conf.driverConfigs customConfigs = Some c ∧ Conf.dirname c = None) →
     Conf.dir (overrideDefaultConfigs s customConfigs) = JS.of_option (defaultDirname s)).
Proof.
  unfold overrideDefaultConfigs, Conf.dir, Conf.flag.
  split; [|split; [done|split; [|split]]].
  - destruct (Conf.driverConfigs customConfigs) as [c|]; simpl; [|done].
    by destruct (Conf.dirname c).
  - intros f Hf. repeat (apply elem_of_cons in Hf as [->|Hf]);
      [by destruct (Conf.driverConfigs customConfigs)..|by apply elem_of_nil in Hf].
  - intros c v -> Hv. simpl. by rewrite Hv.
  - intros [->|(c & -> & Hnone)]; simpl; [done|]. by rewrite Hnone.
Qed.

Lemma overrideDefaultConfigs_merge_witness :
  Conf.dir (overrideDefaultConfigs (fresh {[ "ETCD_SERVICE_NAME" := "profile" ]} ∅)
              (mongoManifest (plainConfigs "svc"))) = JS.VString "svc"
  ∧ Conf.dir (overrideDefaultConfigs (fresh {[ "ETCD_SERVICE_NAME" := "profile" ]} ∅)
                (mongoManifest undefinedDirConfigs)) = JS.VUndefined
  ∧ Conf.dir (overrideDefaultConfigs (fresh {[ "ETCD_SERVICE_NAME" := "profile" ]} ∅)
                noDirectory) = JS.VString "profile".
Proof.
  split; [|split].
  - destruct (overrideDefaultConfigs_merge (fresh {[ "ETCD_SERVICE_NAME" := "profile" ]} ∅)
                (mongoManifest (plainConfigs "svc"))) as (_ & _ & _ & Hgiven & _).
    by apply (Hgiven (plainConfigs "svc") (JS.VString "svc")).
  - destruct (overrideDefaultConfigs_merge (fresh {[ "ETCD_SERVICE_NAME" := "profile" ]} ∅)
                (mongoManifest undefinedDirConfigs)) as (_ & _ & _ & Hgiven & _).
    by apply (Hgiven undefinedDirConfigs JS.VUndefined).
  - destruct (overrideDefaultConfigs_merge (fresh {[ "ETCD_SERVICE_NAME" := "profile" ]} ∅)
                noDirectory) as (_ & _ & _ & _ & Hdefault).
    apply Hdefault. by left.
Defined.

(** ** What [initialize] always does, and what it never does *)

(** X7: whatever comes of it (an invalid configuration, a rejected
    request, a put refused by the client), a call of [initialize] leaves
    the driver with a client (the one it had, else one for the given
    connection options), with a watch builder, and with the caller's
    options merged with the defaults as its processed options. *)
Theorem initialize_always_prepares (connectionOptions : IETCDOptions)
    (userDefinedConfigs : Conf.IETCDConfigurations) (s : State) :
  client (exec (initialize connectionOptions userDefinedConfigs) s)
    = Some (default connectionOptions (client s))
  ∧ _etcdWatcher (exec (initialize connectionOptions userDefinedConfigs) s) = true
  ∧ proccesedConfigurations (exec (initialize connectionOptions userDefinedConfigs) s)
    = overrideDefaultConfigs s userDefinedConfigs.
Proof.
  apply (initialize_invariant
           (λ s', client s' = Some (default connectionOptions (client s))
                  ∧ _etcdWatcher s' = true
                  ∧ proccesedConfigurations s' = overrideDefaultConfigs s userDefinedConfigs)).
  - split; [apply client_prepared|].
    by destruct (prepared_fields connectionOptions userDefinedConfigs s)
      as (-> & _ & _ & _ & _ & _ & _ & ->).
  - intros name s' _ (Hc & Hw & Hcfg).
    destruct (machinery_step name s') as (-> & ->).
    by destruct (static_initializeProperty name s') as (-> & _ & _).
  - by intros e s' H.
Qed.

(** X8: without [genKeys], [initialize] only reads the coordination
    service: it issues no put and leaves the key space as it was. *)
Theorem initialize_without_genKeys_reads_only (connectionOptions : IETCDOptions)
    (userDefinedConfigs : Conf.IETCDConfigurations) (s : State) :
  Conf.flag Conf.genKeys userDefinedConfigs = false →
  puts (exec (initialize connectionOptions userDefinedConfigs) s) = puts s
  ∧ etcd (exec (initialize connectionOptions userDefinedConfigs) s) = etcd s.
Proof.
  intros Hgen.
  enough (proccesedConfigurations (exec (initialize connectionOptions userDefinedConfigs) s)
            = overrideDefaultConfigs s userDefinedConfigs
          ∧ puts (exec (initialize connectionOptions userDefinedConfigs) s) = puts s
          ∧ etcd (exec (initialize connectionOptions userDefinedConfigs) s) = etcd s)
    as (_ & ? & ?); [done|].
  apply (initialize_invariant
           (λ s', proccesedConfigurations s' = overrideDefaultConfigs s userDefinedConfigs
                  ∧ puts s' = puts s ∧ etcd s' = etcd s)).
  - by destruct (prepared_fields connectionOptions userDefinedConfigs s)
      as (-> & _ & _ & -> & _ & -> & _).
  - intros name s' _ (Hcfg & Hp & He).
    assert (pushing s' name = false) as Hpush.
    { destruct (pushing s' name) eqn:Hpush; [|done].
      apply pushing_inv in Hpush as (_ & Hg & _).
      rewrite Hcfg in Hg. destruct (flags_merged s userDefinedConfigs) as (Hm & _).
      congruence. }
    destruct (static_initializeProperty name s') as (-> & _ & _).
    split; [done|]. split.
    + destruct (puts_step name s') as [->|[? _]]; [done|congruence].
    + destruct (etcd_step name s') as [->|[? _]]; [done|congruence].
  - by intros e s' H.
Qed.

Lemma initialize_without_genKeys_reads_only_witness :
  puts (exec (initialize "localhost:2379" (mongoManifest (plainConfigs "svc"))) (fresh ∅ ∅)) = []
  ∧ etcd (exec (initialize "localhost:2379" (mongoManifest (plainConfigs "svc"))) (fresh ∅ ∅)) = ∅.
Proof.
  apply (initialize_without_genKeys_reads_only "localhost:2379"
           (mongoManifest (plainConfigs "svc")) (fresh ∅ ∅)).
  reflexivity.
Defined.

(** X9: without [overrideNotInScope], every put [initialize] issues
    targets a key the scope guard accepts; the put log only grows. *)
Theorem initialize_puts_in_scope (connectionOptions : IETCDOptions)
    (userDefinedConfigs : Conf.IETCDConfigurations) (s : State) :
  Conf.flag Conf.overrideNotInScope userDefinedConfigs = false →
  ∃ new, puts (exec (initialize connectionOptions userDefinedConfigs) s) = (new ++ puts s)%list
         ∧ Forall (λ put, isInScope put.1 = true) new.
Proof.
  intros Hscope.
  enough (proccesedConfigurations (exec (initialize connectionOptions userDefinedConfigs) s)
            = overrideDefaultConfigs s userDefinedConfigs
          ∧ ∃ new, puts (exec (initialize connectionOptions userDefinedConfigs) s)
                     = (new ++ puts s)%list
                   ∧ Forall (λ put, isInScope put.1 = true) new)
    as (_ & ?); [done|].
  apply (initialize_invariant
           (λ s', proccesedConfigurations s' = overrideDefaultConfigs s userDefinedConfigs
                  ∧ ∃ new, puts s' = (new ++ puts s)%list
                           ∧ Forall (λ put, isInScope put.1 = true) new)).
  - destruct (prepared_fields connectionOptions userDefinedConfigs s)
      as (-> & _ & _ & _ & _ & -> & _).
    split; [done|]. by exists [].
  - intros name s' _ (Hcfg & new & Hp & Hnew).
    destruct (static_initializeProperty name s') as (-> & _ & _).
    split; [done|].
    destruct (puts_step name s') as [->|[Hpush ->]]; [by exists new|].
    exists ((etcdEntryName s' name, pushedValue s' name) :: new). rewrite Hp.
    split; [done|]. constructor; [|done].
    apply pushing_inv in Hpush as (_ & _ & [Ho|Hin]); [|done].
    rewrite Hcfg in Ho. destruct (flags_merged s userDefinedConfigs) as (_ & _ & Hm).
    congruence.
  - by intros e s' H.
Qed.

Lemma initialize_puts_in_scope_witness :
  ∃ new, puts (exec (initialize "localhost:2379" (mongoManifest (generatingConfigs "svc")))
                 (fresh {[ "MONGO_URI" := "mongodb://local" ]} ∅)) = (new ++ [])%list
         ∧ Forall (λ put, isInScope put.1 = true) new.
Proof.
  apply (initialize_puts_in_scope "localhost:2379" (mongoManifest (generatingConfigs "svc"))
           (fresh {[ "MONGO_URI" := "mongodb://local" ]} ∅)).
  reflexivity.
Defined.



(** X11: without [overrideSysObj] the driver never writes [process.env]:
    neither [initialize], however it ends, nor a watch notification
    changes it. *)
Theorem process_env_untouched_without_mirroring (connectionOptions : IETCDOptions)
    (userDefinedConfigs : Conf.IETCDConfigurations) (i : nat) (ev : WatchEvent) (s : State) :
  (Conf.flag Conf.overrideSysObj userDefinedConfigs = false →
   process_env (exec (initialize connectionOptions userDefinedConfigs) s) = process_env s)
  ∧ (Conf.flag Conf.overrideSysObj (proccesedConfigurations s) = false →
     process_env (exec (notify i ev) s) = process_env s).
Proof.
  split.
  - intros Hoff.
    enough (proccesedConfigurations (exec (initialize connectionOptions userDefinedConfigs) s)
              = overrideDefaultConfigs s userDefinedConfigs
            ∧ process_env (exec (initialize connectionOptions userDefinedConfigs) s)
              = process_env s) as (_ & ?); [done|].
    apply (initialize_invariant
             (λ s', proccesedConfigurations s' = overrideDefaultConfigs s userDefinedConfigs
                    ∧ process_env s' = process_env s)).
    + by destruct (prepared_fields connectionOptions userDefinedConfigs s) as (-> & _ & -> & _).
    + intros name s' _ (Hcfg & Henv).
      destruct (static_initializeProperty name s') as (-> & _ & _).
      split; [done|]. rewrite process_env_unmirrored; [done|].
      rewrite Hcfg. revert Hoff. unfold overrideDefaultConfigs, Conf.flag.
      by destruct (Conf.driverConfigs userDefinedConfigs).
    + by intros e s' H.
  - intros Hoff. unfold exec, notify, bind, gets. simpl.
    destruct (watchers s !! i) as [w|]; [|done].
    destruct (wactive w); [|done].
    destruct ev as [val|].
    + unfold on_put, updateEnv, console_log, env_set, bind, gets, modify, when, throw. simpl.
      revert Hoff. unfold Conf.flag.
      destruct (Conf.driverConfigs (proccesedConfigurations s)) as [d|]; simpl; [|done].
      intros ->. simpl. by destruct (envParams s).
    + unfold on_delete, cancel, env_delete, console_log, bind, gets, modify, when. simpl.
      destruct (envParams s); simpl; by rewrite Hoff.
Qed.

Lemma process_env_untouched_without_mirroring_witness :
  process_env (exec (initialize "localhost:2379" (mongoManifest (watchOnlyConfigs "svc")))
                 (fresh {[ "HOME" := "/root" ]} ∅)) = {[ "HOME" := "/root" ]}
  ∧ process_env
      (exec (notify 0 (EvPut "mongodb://other"))
         (exec (initialize "localhost:2379" (mongoManifest (watchOnlyConfigs "svc")))
            (fresh {[ "HOME" := "/root" ]} ∅)))
    = {[ "HOME" := "/root" ]}.
Proof.
  destruct (process_env_untouched_without_mirroring "localhost:2379"
              (mongoManifest (watchOnlyConfigs "svc")) 0 (EvPut "mongodb://other")
              (fresh {[ "HOME" := "/root" ]} ∅)) as (Hinitialize & _).
  destruct (process_env_untouched_without_mirroring "localhost:2379"
              (mongoManifest (watchOnlyConfigs "svc")) 0 (EvPut "mongodb://other")
              (exec (initialize "localhost:2379" (mongoManifest (watchOnlyConfigs "svc")))
                 (fresh {[ "HOME" := "/root" ]} ∅))) as (_ & Hnotify).
  split.
  - apply Hinitialize. reflexivity.
  - rewrite Hnotify; [apply Hinitialize; reflexivity|vm_compute; reflexivity].
Defined.

(** ** Entries of the parameter stores *)

Lemma storedParam_step_Some q name s :
  is_Some (storedParam s q) → is_Some (storedParam (exec (initializeProperty name) s) q).
Proof.
  intros Hq. destruct (decide (q = name)) as [->|Hne]; [|by rewrite storedParam_frame].
  destruct (decide (etcdEntryName s name ∈ unavailable s)) as [Hav|Hav].
  - unfold exec. by rewrite initializeProperty_unavailable.
  - unfold storedParam. rewrite envParams_initializeProperty by done. simpl.
    rewrite lookup_insert_eq. eauto.
Qed.

Lemma process_env_step_Some q name s :
  is_Some (process_env s !! q) →
  is_Some (process_env (exec (initializeProperty name) s) !! q).
Proof.
  intros Hq. destruct (decide (q = name)) as [->|Hne]; [|by rewrite process_env_frame].
  destruct (decide (etcdEntryName s name ∈ unavailable s)) as [Hav|Hav].
  - unfold exec. by rewrite initializeProperty_unavailable.
  - rewrite process_env_initializeProperty, process_env_mirrored by done.
    destruct (_ && _); [|done]. rewrite lookup_insert_eq. eauto.
Qed.

(** X12: [initialize] touches the entries of the parameters of its
    manifest only, in [envParams] and in [process.env], and it never
    removes an entry: a parameter that had a value before the call has
    one after it, however the call ends. *)
Theorem initialize_keeps_entries (connectionOptions : IETCDOptions)
    (userDefinedConfigs : Conf.IETCDConfigurations) (s : State) (name : string) :
  (name ∉ Conf.keys (Conf.envParams userDefinedConfigs) →
   storedParam (exec (initialize connectionOptions userDefinedConfigs) s) name
     = storedParam s name
   ∧ process_env (exec (initialize connectionOptions userDefinedConfigs) s) !! name
     = process_env s !! name)
  ∧ (is_Some (storedParam s name) →
     is_Some (storedParam (exec (initialize connectionOptions userDefinedConfigs) s) name))
  ∧ (is_Some (process_env s !! name) →
     is_Some (process_env (exec (initialize connectionOptions userDefinedConfigs) s) !! name)).
Proof.
  destruct (prepared_fields connectionOptions userDefinedConfigs s)
    as (_ & Hparams & Henv & _).
  split; [|split].
  - intros Hout.
    apply (initialize_invariant
             (λ s', storedParam s' name = storedParam s name
                    ∧ process_env s' !! name = process_env s !! name)).
    + unfold storedParam. by rewrite Hparams, Henv.
    + intros n s' Hn (<- & <-).
      assert (name ≠ n) by (by intros ->).
      by rewrite storedParam_frame, process_env_frame.
    + by intros e s' H.
  - intros Hsome.
    apply (initialize_invariant (λ s', is_Some (storedParam s' name))).
    + unfold storedParam. by rewrite Hparams.
    + intros n s' _. apply storedParam_step_Some.
    + by intros e s' H.
  - intros Hsome.
    apply (initialize_invariant (λ s', is_Some (process_env s' !! name))).
    + by rewrite Henv.
    + intros n s' _. apply process_env_step_Some.
    + by intros e s' H.
Qed.

Lemma initialize_keeps_entries_witness :
  process_env (exec (initialize "localhost:2379" (mongoManifest (generatingConfigs "svc")))
                 (fresh {[ "HOME" := "/root" ]} ∅)) !! "HOME" = Some "/root".
Proof.
  destruct (initialize_keeps_entries "localhost:2379" (mongoManifest (generatingConfigs "svc"))
              (fresh {[ "HOME" := "/root" ]} ∅) "HOME") as (Hframe & _).
  destruct Hframe as (_ & ->); [|reflexivity].
  vm_compute. intros H. by repeat (apply elem_of_cons in H as [H|H]; [done|]);
    apply elem_of_nil in H.
Defined.

(** ** Runs that nothing interrupts *)

Lemma step_uninterrupted name rest s :
  uninterrupted (name :: rest) s →
  (initializeProperty name s).1 = Normal tt
  ∧ uninterrupted rest (exec (initializeProperty name) s).
Proof.
  intros (Hup & Hput).
  assert (etcdEntryName s name ∉ unavailable s) as Hav by (rewrite Hup; set_solver).
  split.
  - rewrite outcome_initializeProperty by done.
    destruct (pushing s name) eqn:Hpush; [|done].
    destruct Hput as [[Hm Hnames]|Hg].
    + apply Forall_cons in Hnames as [Hset _]. by rewrite pushedValue_mirror.
    + apply pushing_inv in Hpush as (_ & ? & _). congruence.
  - unfold uninterrupted.
    destruct (static_initializeProperty name s) as (-> & -> & _).
    split; [done|]. destruct Hput as [[Hm Hnames]|Hg]; [left|by right].
    apply Forall_cons in Hnames as [_ Hrest]. done.
Qed.

Lemma for_of_step name rest s :
  (initializeProperty name s).1 = Normal tt →
  for_of (name :: rest) initializeProperty s
  = for_of rest initializeProperty (exec (initializeProperty name) s).
Proof.
  intros Hok. rewrite for_of_cons. unfold exec.
  destruct (initializeProperty name s) as [[[]|e] s1]; [done|discriminate].
Qed.

Lemma for_of_uninterrupted names s :
  uninterrupted names s → (for_of names initializeProperty s).1 = Normal tt.
Proof.
  revert s. induction names as [|name rest IH]; intros s Hs; [done|].
  destruct (step_uninterrupted name rest s Hs) as (Hok & Hs1).
  rewrite for_of_step by done. by apply IH.
Qed.

Lemma for_of_resolves names s name :
  uninterrupted names s → name ∈ names →
  is_Some (storedParam (exec (for_of names initializeProperty) s) name)
  ∧ (Conf.flag Conf.overrideSysObj (proccesedConfigurations s) = true →
     env_settable name = true →
     is_Some (process_env (exec (for_of names initializeProperty) s) !! name)).
Proof.
  revert s. induction names as [|n rest IH]; intros s Hs Hin; [by apply elem_of_nil in Hin|].
  destruct (step_uninterrupted n rest s Hs) as (Hok & Hs1).
  unfold exec at 1 2. rewrite for_of_step by done.
  fold (exec (for_of rest initializeProperty) (exec (initializeProperty n) s)).
  destruct (decide (name = n)) as [->|Hne].
  - assert (etcdEntryName s n ∉ unavailable s) as Hav
      by (destruct Hs as (-> & _); set_solver).
    split.
    + apply (for_of_invariant (λ s', is_Some (storedParam s' n))).
      * intros m s' _. apply storedParam_step_Some.
      * unfold storedParam. rewrite envParams_initializeProperty by done. simpl.
        rewrite lookup_insert_eq. eauto.
    + intros Hm Hset. apply (for_of_invariant (λ s', is_Some (process_env s' !! n))).
      * intros m s' _. apply process_env_step_Some.
      * rewrite process_env_initializeProperty, process_env_mirrored, Hm, Hset by done.
        cbn [andb]. rewrite lookup_insert_eq. eauto.
  - apply elem_of_cons in Hin as [?|Hin]; [done|].
    destruct (IH _ Hs1 Hin) as (Hp & He). split; [done|].
    intros Hm. apply He.
    by destruct (static_initializeProperty n s) as (-> & _).
Qed.

Lemma prepared_uninterrupted connectionOptions cfg s :
  unavailable s = ∅ →
  (Conf.flag Conf.overrideSysObj cfg = true
   ∧ Forall (λ name, env_settable name = true) (Conf.keys (Conf.envParams cfg)))
  ∨ Conf.flag Conf.genKeys cfg = false →
  uninterrupted (Conf.keys (Conf.envParams cfg)) (prepared connectionOptions cfg s).
Proof.
  intros Hup Hput. unfold uninterrupted.
  destruct (prepared_fields connectionOptions cfg s) as (-> & _ & _ & _ & -> & _).
  split; [done|]. revert Hput. unfold overrideDefaultConfigs, Conf.flag.
  by destruct (Conf.driverConfigs cfg).
Qed.

Lemma initialize_uninterrupted connectionOptions cfg s :
  JS.truthy (Conf.dir (overrideDefaultConfigs s cfg)) = true →
  Conf.keys (Conf.envParams cfg) ≠ [] →
  uninterrupted (Conf.keys (Conf.envParams cfg)) (prepared connectionOptions cfg s) →
  initialize connectionOptions cfg s
  = for_of (Conf.keys (Conf.envParams cfg)) initializeProperty (prepared connectionOptions cfg s).
Proof.
  intros Hdir Hkeys Hs. rewrite initialize_valid by done. rewrite try_catch_run.
  pose proof (for_of_uninterrupted (Conf.keys (Conf.envParams cfg)) _ Hs) as Hok.
  destruct (for_of _ _ _) as [[[]|e] s1]; [done|discriminate].
Qed.

(** Why the names matter: under mirroring and key generation a parameter
    named ['A=B'] is not mirrored, so the put call of its turn carries
    [undefined], the client refuses it, and the loop ends there. *)
Remark refused_name_interrupts :
  Conf.flag Conf.overrideSysObj (refusedNameManifest (generatingConfigs "svc")) = true
  ∧ unavailable (fresh ∅ ∅) = ∅
  ∧ (initializeProcess
       (prepared "localhost:2379" (refusedNameManifest (generatingConfigs "svc")) (fresh ∅ ∅))).1
    ≠ Normal tt.
Proof. split; [done|]. split; [done|]. vm_compute. discriminate. Qed.

(** X13: when the coordination service answers every request, and keys
    are generated only under mirroring and for parameter names the
    environment accepts, a valid call of [initialize] goes through the
    whole manifest: the resolution loop ends without an exception, no
    error is caught, and every parameter of the manifest has an entry in
    [envParams] and, under mirroring and a name the environment accepts,
    in [process.env]. *)
Theorem initialize_resolves_every_parameter (connectionOptions : IETCDOptions)
    (userDefinedConfigs : Conf.IETCDConfigurations) (s : State) :
  JS.truthy (Conf.dir (overrideDefaultConfigs s userDefinedConfigs)) = true →
  Conf.keys (Conf.envParams userDefinedConfigs) ≠ [] →
  unavailable s = ∅ →
  (Conf.flag Conf.overrideSysObj userDefinedConfigs = true
   ∧ Forall (λ name, env_settable name = true) (Conf.keys (Conf.envParams userDefinedConfigs)))
  ∨ Conf.flag Conf.genKeys userDefinedConfigs = false →
  initialize connectionOptions userDefinedConfigs s
    = initializeProcess (prepared connectionOptions userDefinedConfigs s)
  ∧ (initializeProcess (prepared connectionOptions userDefinedConfigs s)).1 = Normal tt
  ∧ ∀ name, name ∈ Conf.keys (Conf.envParams userDefinedConfigs) →
      is_Some (storedParam (exec (initialize connectionOptions userDefinedConfigs) s) name)
      ∧ (Conf.flag Conf.overrideSysObj userDefinedConfigs = true →
         env_settable name = true →
         is_Some (process_env (exec (initialize connectionOptions userDefinedConfigs) s)
                    !! name)).
Proof.
  intros Hdir Hkeys Hup Hput.
  pose proof (prepared_uninterrupted connectionOptions _ _ Hup Hput) as Hs.
  assert (initializeProcess (prepared connectionOptions userDefinedConfigs s)
          = for_of (Conf.keys (Conf.envParams userDefinedConfigs)) initializeProperty
              (prepared connectionOptions userDefinedConfigs s)) as Hprocess.
  { unfold initializeProcess, bind, gets. cbn [fst snd].
    by destruct (prepared_fields connectionOptions userDefinedConfigs s) as (-> & _). }
  rewrite Hprocess. unfold exec. rewrite initialize_uninterrupted by done.
  split; [done|]. split; [by apply for_of_uninterrupted|].
  intros name Hname. destruct (for_of_resolves _ _ name Hs Hname) as (Hp & He).
  split; [done|]. intros Hm. apply He.
  destruct (prepared_fields connectionOptions userDefinedConfigs s) as (-> & _).
  revert Hm. unfold overrideDefaultConfigs, Conf.flag.
  by destruct (Conf.driverConfigs userDefinedConfigs).
Qed.

Lemma initialize_resolves_every_parameter_witness :
  is_Some (storedParam
             (exec (initialize "localhost:2379" (abcManifest (generatingConfigs "svc")))
                (fresh ∅ ∅)) "C")
  ∧ is_Some (process_env
               (exec (initialize "localhost:2379" (abcManifest (generatingConfigs "svc")))
                  (fresh ∅ ∅)) !! "C").
Proof.
  destruct (initialize_resolves_every_parameter "localhost:2379"
              (abcManifest (generatingConfigs "svc")) (fresh ∅ ∅)) as (_ & _ & Hall).
  - reflexivity.
  - discriminate.
  - reflexivity.
  - left. split; [reflexivity|]. by repeat constructor.
  - destruct (Hall "C") as (Hstored & Henv).
    + apply list_elem_of_further, list_elem_of_further, list_elem_of_here.
    + split; [exact Hstored|apply Henv; reflexivity].
Defined.

(** ** Watch registration *)

Lemma for_of_watches names s :
  uninterrupted names s →
  Conf.flag Conf.watchKeys (proccesedConfigurations s) = true →
  _etcdWatcher s = true →
  ∃ new, watchers (exec (for_of names initializeProperty) s) = (watchers s ++ new)%list
         ∧ wprop <$> new = names
         ∧ Forall (λ w, wactive w = true) new.
Proof.
  revert s. induction names as [|n rest IH]; intros s Hs Hwatch Hbuilder.
  - exists []. by rewrite app_nil_r.
  - destruct (step_uninterrupted n rest s Hs) as (Hok & Hs1).
    assert (etcdEntryName s n ∉ unavailable s) as Hav
      by (destruct Hs as (-> & _); set_solver).
    unfold exec at 1. rewrite for_of_step by done.
    fold (exec (for_of rest initializeProperty) (exec (initializeProperty n) s)).
    destruct (IH (exec (initializeProperty n) s)) as (new & -> & Hnames & Hactive).
    + done.
    + by destruct (static_initializeProperty n s) as (-> & _).
    + by destruct (machinery_step n s) as (_ & ->).
    + rewrite watchers_step, Hwatch, Hbuilder by done. simpl.
      exists ({| wkey := etcdEntryName s n; wprop := n;
                 wactive := true; wcancelling := false |} :: new).
      rewrite <- app_assoc. split; [done|]. split; [by rewrite fmap_cons, Hnames|].
      by constructor.
Qed.

(** X14: a valid call of [initialize] that nothing interrupts (every
    request answered, keys generated only under mirroring and for names
    the environment accepts), with [watchKeys] on, subscribes once to each
    parameter of the manifest, in manifest order, and keeps every
    subscription the driver already had: nothing is deduplicated, so a
    second call subscribes again. Without [watchKeys] no call of
    [initialize] changes the subscriptions. *)
Theorem initialize_watch_registration (connectionOptions : IETCDOptions)
    (userDefinedConfigs : Conf.IETCDConfigurations) (s : State) :
  (Conf.flag Conf.watchKeys userDefinedConfigs = true →
   JS.truthy (Conf.dir (overrideDefaultConfigs s userDefinedConfigs)) = true →
   Conf.keys (Conf.envParams userDefinedConfigs) ≠ [] →
   unavailable s = ∅ →
   (Conf.flag Conf.overrideSysObj userDefinedConfigs = true
    ∧ Forall (λ name, env_settable name = true)
        (Conf.keys (Conf.envParams userDefinedConfigs)))
   ∨ Conf.flag Conf.genKeys userDefinedConfigs = false →
   ∃ new, watchers (exec (initialize connectionOptions userDefinedConfigs) s)
            = (watchers s ++ new)%list
          ∧ wprop <$> new = Conf.keys (Conf.envParams userDefinedConfigs)
          ∧ Forall (λ w, wactive w = true) new)
  ∧ (Conf.flag Conf.watchKeys userDefinedConfigs = false →
     watchers (exec (initialize connectionOptions userDefinedConfigs) s) = watchers s).
Proof.
  split.
  - intros Hwatch Hdir Hkeys Hup Hput.
    pose proof (prepared_uninterrupted connectionOptions _ _ Hup Hput) as Hs.
    unfold exec. rewrite initialize_uninterrupted by done.
    destruct (for_of_watches (Conf.keys (Conf.envParams userDefinedConfigs)) _ Hs)
      as (new & Hnew & Hrest).
    + destruct (prepared_fields connectionOptions userDefinedConfigs s) as (-> & _).
      destruct (flags_merged s userDefinedConfigs) as (_ & -> & _). done.
    + by destruct (prepared_fields connectionOptions userDefinedConfigs s)
        as (_ & _ & _ & _ & _ & _ & _ & ->).
    + exists new. split; [|done]. unfold exec in Hnew. rewrite Hnew.
      by destruct (prepared_fields connectionOptions userDefinedConfigs s)
        as (_ & _ & _ & _ & _ & _ & -> & _).
  - intros Hoff.
    enough (proccesedConfigurations (exec (initialize connectionOptions userDefinedConfigs) s)
              = overrideDefaultConfigs s userDefinedConfigs
            ∧ watchers (exec (initialize connectionOptions userDefinedConfigs) s)
              = watchers s) as (_ & ?); [done|].
    apply (initialize_invariant
             (λ s', proccesedConfigurations s' = overrideDefaultConfigs s userDefinedConfigs
                    ∧ watchers s' = watchers s)).
    + by destruct (prepared_fields connectionOptions userDefinedConfigs s)
        as (-> & _ & _ & _ & _ & _ & -> & _).
    + intros name s' _ (Hcfg & Hws).
      destruct (static_initializeProperty name s') as (Hstatic & _).
      split; [by rewrite Hstatic|].
      destruct (decide (etcdEntryName s' name ∈ unavailable s')) as [Hav|Hav].
      * unfold exec. by rewrite initializeProperty_unavailable.
      * rewrite watchers_step by done. rewrite Hcfg.
        destruct (flags_merged s userDefinedConfigs) as (_ & -> & _). by rewrite Hoff.
    + by intros e s' H.
Qed.

Lemma initialize_watch_registration_witness :
  ∃ new, watchers (exec (initialize "localhost:2379" (abcManifest (watchConfigs "svc")))
                     watching)
           = (watchers watching ++ new)%list
         ∧ wprop <$> new = ["A"; "B"; "C"]
         ∧ Forall (λ w, wactive w = true) new.
Proof.
  destruct (initialize_watch_registration "localhost:2379" (abcManifest (watchConfigs "svc"))
              watching) as (Hon & _).
  apply Hon.
  - reflexivity.
  - reflexivity.
  - discriminate.
  - vm_compute. reflexivity.
  - left. split; [reflexivity|]. by repeat constructor.
Defined.

(** ** A rejected request *)

(** X15: the resolution loop stops at the first request the coordination
    service rejects: the parameters before it are resolved, the error is
    caught and logged, and neither the parameter of the rejected request
    nor any parameter after it in the manifest is looked at; their entries
    in [envParams] and [process.env] are what they were before the call. *)
Theorem initialize_stops_at_rejected_request (connectionOptions : IETCDOptions)
    (userDefinedConfigs : Conf.IETCDConfigurations) (s s1 : State)
    (pre post : list string) (name : string) :
  JS.truthy (Conf.dir (overrideDefaultConfigs s userDefinedConfigs)) = true →
  Conf.keys (Conf.envParams userDefinedConfigs) = (pre ++ name :: post)%list →
  for_of pre initializeProperty (prepared connectionOptions userDefinedConfigs s)
    = (Normal tt, s1) →
  etcdEntryName s1 name ∈ unavailable s →
  exec (initialize connectionOptions userDefinedConfigs) s
    = caught (RemoteUnavailable (etcdEntryName s1 name)) s1
  ∧ ∀ later, later ∉ pre →
      storedParam (exec (initialize connectionOptions userDefinedConfigs) s) later
        = storedParam s later
      ∧ process_env (exec (initialize connectionOptions userDefinedConfigs) s) !! later
        = process_env s !! later.
Proof.
  intros Hdir Hkeys Hpre Hdown.
  assert (s1 = exec (for_of pre initializeProperty)
                 (prepared connectionOptions userDefinedConfigs s)) as Hs1
    by (unfold exec; by rewrite Hpre).
  assert (unavailable s1 = unavailable s) as Hup.
  { rewrite Hs1.
    apply (for_of_invariant (λ s', unavailable s' = unavailable s)).
    - intros n s' _ <-. by destruct (static_initializeProperty n s') as (_ & -> & _).
    - by destruct (prepared_fields connectionOptions userDefinedConfigs s)
        as (_ & _ & _ & _ & -> & _). }
  assert (exec (initialize connectionOptions userDefinedConfigs) s
          = caught (RemoteUnavailable (etcdEntryName s1 name)) s1) as Hend.
  { unfold exec. rewrite initialize_valid; [|done|rewrite Hkeys; by destruct pre].
    rewrite try_catch_run, Hkeys, for_of_app, Hpre, for_of_cons.
    rewrite initializeProperty_unavailable by (by rewrite Hup). done. }
  split; [done|]. intros later Hlater. rewrite Hend.
  change (storedParam s1 later = storedParam s later
          ∧ process_env s1 !! later = process_env s !! later).
  rewrite Hs1.
  apply (for_of_invariant (λ s', storedParam s' later = storedParam s later
                                 ∧ process_env s' !! later = process_env s !! later)).
  - intros n s' Hn (<- & <-).
    assert (later ≠ n) by (by intros ->).
    by rewrite storedParam_frame, process_env_frame.
  - destruct (prepared_fields connectionOptions userDefinedConfigs s)
      as (_ & Hparams & -> & _).
    unfold storedParam. by rewrite Hparams.
Qed.

Lemma initialize_stops_at_rejected_request_witness :
  storedParam (exec (initialize "localhost:2379" (abcManifest (plainConfigs "svc")))
                 (partlyDown {[ "/svc/B" ]} ∅ ∅)) "C" = None
  ∧ process_env (exec (initialize "localhost:2379" (abcManifest (plainConfigs "svc")))
                   (partlyDown {[ "/svc/B" ]} ∅ ∅)) !! "C" = None.
Proof.
  destruct (initialize_stops_at_rejected_request "localhost:2379"
              (abcManifest (plainConfigs "svc")) (partlyDown {[ "/svc/B" ]} ∅ ∅)
              (exec (initializeProperty "A")
                 (prepared "localhost:2379" (abcManifest (plainConfigs "svc"))
                    (partlyDown {[ "/svc/B" ]} ∅ ∅)))
              ["A"] ["C"] "B") as (_ & Hrest).
  - reflexivity.
  - reflexivity.
  - vm_compute. reflexivity.
  - replace (etcdEntryName _ "B") with "/svc/B" by (vm_compute; reflexivity).
    unfold partlyDown. cbn [unavailable set_unavailable]. set_solver.
  - destruct (Hrest "C") as (-> & ->); [|split; reflexivity].
    intros Hin. apply elem_of_cons in Hin as [Hin|Hin]; [discriminate|].
    by apply elem_of_nil in Hin.
Defined.

(** ** Watch notifications, again *)

(** X16: a notification concerns one subscription and one parameter: the
    entries of every other parameter and every other subscription stay as
    they are, the coordination service is not written, the options are
    not changed, and a notification for a subscription that does not
    exist does nothing at all. *)
Theorem notify_touches_one_parameter (i : nat) (ev : WatchEvent) (s : State) :
  (∀ w other, watchers s !! i = Some w → other ≠ wprop w →
     storedParam (exec (notify i ev) s) other = storedParam s other
     ∧ process_env (exec (notify i ev) s) !! other = process_env s !! other)
  ∧ (∀ j, j ≠ i → watchers (exec (notify i ev) s) !! j = watchers s !! j)
  ∧ (watchers s !! i = None → notify i ev s = (Normal tt, s))
  ∧ etcd (exec (notify i ev) s) = etcd s
  ∧ puts (exec (notify i ev) s) = puts s
  ∧ proccesedConfigurations (exec (notify i ev) s) = proccesedConfigurations s.
Proof.
  unfold exec, notify, bind, gets. cbn [fst snd].
  destruct (watchers s !! i) as [w|] eqn:Hw; [|by repeat split].
  destruct (wactive w); [|by repeat split].
  destruct ev as [val|].
  - unfold on_put, updateEnv, console_log, env_set, bind, gets, modify, when, throw, ret.
    cbn [fst snd proccesedConfigurations set_console].
    destruct (Conf.driverConfigs (proccesedConfigurations s)) as [d|]; [|by repeat split].
    destruct (Conf.overrideSysObj d); simpl;
      destruct (env_settable (wprop w)); simpl;
      destruct (envParams s) as [m|] eqn:Hm; simpl;
      (split; [intros w' other [= <-] Hother; unfold storedParam; simpl; rewrite ?Hm; simpl;
               by rewrite ?lookup_insert_ne by done|by repeat split]).
  - unfold on_delete, cancel, env_delete, console_log, bind, gets, modify, when, ret.
    cbn [fst snd envParams set_console].
    destruct (envParams s) as [m|] eqn:Hm; simpl;
      destruct (Conf.flag Conf.overrideSysObj (proccesedConfigurations s)); simpl;
      (split; [intros w' other [= <-] Hother; unfold storedParam; simpl; rewrite ?Hm; simpl;
               by rewrite ?lookup_delete_ne by done
              |split; [intros j Hj; by rewrite list_lookup_alter_ne|by repeat split]]).
Qed.

Lemma notify_touches_one_parameter_witness :
  storedParam (exec (notify 0 EvDelete) watching) "PORT" = storedParam watching "PORT"
  ∧ process_env (exec (notify 0 EvDelete) watching) !! "PORT" = process_env watching !! "PORT".
Proof.
  destruct (notify_touches_one_parameter 0 EvDelete watching) as (Hother & _).
  apply (Hother mongoWatcher "PORT"); [reflexivity|discriminate].
Defined.

(** X17: in every state the driver can be in (constructed, then any
    sequence of [initialize] calls, notifications, acknowledged
    cancellations and changes of the environment and of the coordination
    service), a notification ends without an exception: a listener never
    finds the options or [envParams] missing. *)
Theorem notify_never_throws (s : State) (i : nat) (ev : WatchEvent) :
  reachable s → (notify i ev s).1 = Normal tt.
Proof.
  intros Hs.
  destruct (watchers s !! i) as [w|] eqn:Hw.
  - destruct (wactive w) eqn:Hactive; [|by rewrite (notify_cancelled s i w)].
    destruct (reachable_initialized s Hs) as ([d Hd] & [m Hm]);
      [intros Hnil; by rewrite Hnil in Hw|].
    destruct ev as [val|].
    + by destruct (notify_put s i w val d m Hw Hactive Hd Hm) as (-> & _).
    + by destruct (notify_delete s i w Hw Hactive) as (-> & _).
  - unfold notify, bind, gets. cbn [fst snd]. by rewrite Hw.
Qed.

Lemma notify_never_throws_witness :
  (notify 0 (EvPut "mongodb://other") watching).1 = Normal tt.
Proof. apply notify_never_throws. apply reachable_initialize, reachable_fresh. Defined.

(** ** Generated keys *)

(** X18: under mirroring, for a parameter name the environment accepts
    and a locally resolved string it keeps whole (no NUL character), a
    loop turn that generates a key writes to it the very string it stores
    for the parameter: afterwards the key, the entry of [envParams] and
    the entry of [process.env] hold the same string, the one the local
    part of the fallback chain gives. *)
Theorem generated_key_holds_stored_value (s : State) (propertyName : string) :
  Conf.flag Conf.overrideSysObj (proccesedConfigurations s) = true →
  env_settable propertyName = true →
  nulFree (JS.to_String (localValue s propertyName)) →
  etcdEntryName s propertyName ∉ unavailable s →
  pushing s propertyName = true →
  (initializeProperty propertyName s).1 = Normal tt
  ∧ storedParam (exec (initializeProperty propertyName) s) propertyName
    = Some (JS.VString (JS.to_String (localValue s propertyName)))
  ∧ process_env (exec (initializeProperty propertyName) s) !! propertyName
    = Some (JS.to_String (localValue s propertyName))
  ∧ etcd (exec (initializeProperty propertyName) s) !! etcdEntryName s propertyName
    = Some (JS.to_String (localValue s propertyName))
  ∧ puts (exec (initializeProperty propertyName) s)
    = (etcdEntryName s propertyName, JS.VString (JS.to_String (localValue s propertyName)))
        :: puts s.
Proof.
  intros Hm Hset Hnul Hav Hpush.
  pose proof (pushing_inv _ _ Hpush) as (Hremote & _).
  assert (fallback (remoteValue s (etcdEntryName s propertyName)) s propertyName
          = localValue s propertyName) as Hlocal.
  { unfold fallback, localValue. by rewrite (or_falsy _ _ Hremote). }
  pose proof (pushedValue_mirror s propertyName Hm Hset) as Hpushed.
  rewrite Hlocal, Hnul in Hpushed.
  split; [|split; [|split; [|split]]].
  - by rewrite outcome_initializeProperty, Hpush, Hpushed.
  - unfold storedParam. rewrite envParams_initializeProperty by done. simpl.
    rewrite lookup_insert_eq, effectiveValue_mirror; [by rewrite Hlocal|done..|].
    by rewrite Hlocal.
  - rewrite process_env_initializeProperty, process_env_mirrored, Hm, Hset by done.
    cbn [andb]. by rewrite lookup_insert_eq, Hlocal, Hnul.
  - rewrite etcd_initializeProperty, Hpush, Hpushed by done. by rewrite lookup_insert_eq.
  - destruct (puts_step propertyName s) as [Hsame|[_ ->]]; [|by rewrite Hpushed].
    rewrite puts_initializeProperty in Hsame by done.
    fold (pushing s propertyName) in Hsame. rewrite Hpush in Hsame.
    exfalso. revert Hsame. generalize (puts s). intros l Hl.
    apply (f_equal length) in Hl. simpl in Hl. lia.
Qed.

Lemma generated_key_holds_stored_value_witness :
  etcd (exec (initializeProperty "MONGO_URI")
          (configured (mongoManifest (generatingConfigs "svc")) ∅ ∅)) !! "/svc/MONGO_URI"
  = Some "mongodb://localhost".
Proof.
  destruct (generated_key_holds_stored_value
              (configured (mongoManifest (generatingConfigs "svc")) ∅ ∅) "MONGO_URI")
    as (_ & _ & _ & Hkey & _).
  - reflexivity.
  - reflexivity.
  - reflexivity.
  - apply unavailable_configured.
  - reflexivity.
  - exact Hkey.
Defined.

(** X19: without mirroring, a loop turn that generates a key hands the
    put the ambient value of [process.env], whatever the parameter
    resolves to: an in-code default is stored in [envParams] and never
    written to the coordination service. *)
Theorem generated_key_without_mirroring (s : State) (propertyName : string) :
  Conf.flag Conf.overrideSysObj (proccesedConfigurations s) = false →
  etcdEntryName s propertyName ∉ unavailable s →
  pushing s propertyName = true →
  puts (exec (initializeProperty propertyName) s)
    = (etcdEntryName s propertyName, env_get s propertyName) :: puts s
  ∧ storedParam (exec (initializeProperty propertyName) s) propertyName
    = Some (localValue s propertyName)
  ∧ (∀ ambient, process_env s !! propertyName = Some ambient →
       (initializeProperty propertyName s).1 = Normal tt
       ∧ etcd (exec (initializeProperty propertyName) s) !! etcdEntryName s propertyName
         = Some ambient)
  ∧ (process_env s !! propertyName = None →
     etcd (exec (initializeProperty propertyName) s) = etcd s).
Proof.
  intros Hm Hav Hpush.
  pose proof (pushing_inv _ _ Hpush) as (Hremote & _).
  assert (pushedValue s propertyName = env_get s propertyName) as Hpushed.
  { unfold pushedValue, env_get. by rewrite process_env_mirrored, Hm. }
  split; [|split; [|split]].
  - rewrite puts_initializeProperty by done. fold (pushing s propertyName).
    fold (pushedValue s propertyName). by rewrite Hpush, Hpushed.
  - unfold storedParam. rewrite envParams_initializeProperty by done. simpl.
    rewrite lookup_insert_eq, effectiveValue_plain by done.
    unfold fallback, localValue. by rewrite (or_falsy _ _ Hremote).
  - intros ambient Hambient.
    rewrite outcome_initializeProperty, etcd_initializeProperty, Hpush, Hpushed by done.
    unfold env_get. rewrite Hambient. simpl. by rewrite lookup_insert_eq.
  - intros Hnone. rewrite etcd_initializeProperty, Hpush, Hpushed by done.
    unfold env_get. by rewrite Hnone.
Qed.

Lemma generated_key_without_mirroring_witness :
  puts (exec (initializeProperty "MONGODB_URI")
          (configured (mongodbManifest "/profile/prod/mongodb_uri" profileConfigsNoMirror)
             {[ "MONGODB_URI" := "mongodb://ambient" ]} ∅))
  = [("/profile/prod/mongodb_uri", JS.VString "mongodb://ambient")].
Proof.
  destruct (generated_key_without_mirroring
              (configured (mongodbManifest "/profile/prod/mongodb_uri" profileConfigsNoMirror)
                 {[ "MONGODB_URI" := "mongodb://ambient" ]} ∅) "MONGODB_URI")
    as (Hputs & _).
  - reflexivity.
  - apply unavailable_configured.
  - reflexivity.
  - exact Hputs.
Defined.
